(** * bpftrace PMDA: a shallow embedding of [src/pmdas/bpftrace/bpftrace.py]

    The development follows the Python module top to bottom:

    - [PyStr]: the fragment of Python's [str] the module relies on
      (character classes of [re], [str.split], [str.join], [str.isspace],
      decimal formatting of integers);
    - [Re]: a backtracking matcher for the regular expressions that occur in
      [parse_script], with [re.match], [re.search] and [re.findall] on top;
    - [Patterns]: those regular expressions;
    - [Dict]: Python's insertion-ordered [dict];
    - [Py]: the values [json.loads] produces and the dynamic operations
      [process_output_obj] applies to them;
    - [Json]: a decoder for the part of JSON these values cover;
    - [BPFtraceState], [BPFtraceVarDef] and the methods of class [BPFtrace];
    - [Store]: an explicit object store with [copy.deepcopy], for the
      aliasing behaviour of [BPFtrace.state];
    - [Spec] and [Samples]: the vocabulary of the statements and the
      scripts, records and stores of the examples.

    The lemmas and the statements C1 to C10 follow the definitions.

    Characters are code points U+0000 to U+00FF, carried by [ascii]; JSON
    numbers are integers. *)

From Stdlib Require Import String Ascii List ZArith Lia Bool Arith.
From Stdlib Require Import DecimalString.
From stdpp Require Import base list.
Import ListNotations.

Set Warnings "-register-all".

Local Open Scope list_scope.
Local Open Scope string_scope.

(* ===================================================================== *)
(** * Python strings                                                      *)
(* ===================================================================== *)

Module PyStr.

Definition code (c : ascii) : nat := nat_of_ascii c.

Definition between (lo hi : nat) (c : ascii) : bool :=
  Nat.leb lo (code c) && Nat.leb (code c) hi.

Definition chr_eqb (a b : ascii) : bool := Ascii.eqb a b.

Definition newline : ascii := ascii_of_nat 10.

(** [[a-zA-Z_]] *)
Definition is_alpha_us (c : ascii) : bool :=
  between 97 122 c || between 65 90 c || chr_eqb c "_".

(** [[A-Za-z0-9_]], the class the specification writes for names. *)
Definition is_ascii_word (c : ascii) : bool :=
  is_alpha_us c || between 48 57 c.

(** [\w] of a [str] pattern: [c.isalnum() or c == '_']. Above U+007F this
    adds the letters and numeric characters of Latin-1. *)
Definition is_word (c : ascii) : bool :=
  is_ascii_word c
  || chr_eqb c (ascii_of_nat 170) || between 178 179 c
  || chr_eqb c (ascii_of_nat 181) || between 185 186 c
  || between 188 190 c || between 192 214 c
  || between 216 246 c || between 248 255 c.

(** [\s] of a [str] pattern, which is also what [str.isspace] tests. *)
Definition is_space (c : ascii) : bool :=
  between 9 13 c || between 28 32 c
  || chr_eqb c (ascii_of_nat 133) || chr_eqb c (ascii_of_nat 160).

Definition dquote : ascii := ascii_of_nat 34.

(** [.] without DOTALL: anything but a line feed. *)
Definition is_dot (c : ascii) : bool := negb (chr_eqb c newline).

Fixpoint all_chars (p : ascii -> bool) (s : string) : bool :=
  match s with
  | EmptyString => true
  | String c s' => p c && all_chars p s'
  end.

(** [s.isspace()]: at least one character, all of them whitespace. *)
Definition isspace (s : string) : bool :=
  match s with
  | EmptyString => false
  | _ => all_chars is_space s
  end.

(** [s.split(sep)] for a one-character separator. *)
Fixpoint split (sep : ascii) (s : string) : list string :=
  match s with
  | EmptyString => [EmptyString]
  | String c s' =>
      if chr_eqb c sep then EmptyString :: split sep s'
      else match split sep s' with
           | w :: ws => String c w :: ws
           | [] => [String c EmptyString]
           end
  end.

(** [sep.join(l)] *)
Fixpoint join (sep : string) (l : list string) : string :=
  match l with
  | [] => EmptyString
  | [x] => x
  | x :: rest => x ++ sep ++ join sep rest
  end.

(** [str(n)] for an [int]. *)
Definition of_Z (z : Z) : string := NilZero.string_of_int (Z.to_int z).

Fixpoint mem (x : string) (l : list string) : bool :=
  match l with
  | [] => false
  | y :: l' => String.eqb y x || mem x l'
  end.

Definition take (n : nat) (s : string) : string := String.substring 0 n s.

End PyStr.

(* ===================================================================== *)
(** * Regular expressions                                                 *)
(* ===================================================================== *)

Module Re.
Import PyStr.

(** The constructs [parse_script]'s patterns use. Every quantified atom
    there is a one-character class, so [Star] repeats a class; [greedy]
    distinguishes [x*] from [x*?]. [Bol] and [Eol] carry the MULTILINE
    flag. *)
Inductive regex : Type :=
| Eps
| Class (p : ascii -> bool)
| Seq (r1 r2 : regex)
| Alt (r1 r2 : regex)
| Star (greedy : bool) (p : ascii -> bool)
| Group (n : nat) (r : regex)
| Bol (multiline : bool)
| Eol (multiline : bool).

Definition Chr (c : ascii) : regex := Class (chr_eqb c).
Definition Plus (greedy : bool) (p : ascii -> bool) : regex :=
  Seq (Class p) (Star greedy p).
(** [r?] *)
Definition Opt (r : regex) : regex := Alt r Eps.

Fixpoint Lit (s : string) : regex :=
  match s with
  | EmptyString => Eps
  | String c EmptyString => Chr c
  | String c s' => Seq (Chr c) (Lit s')
  end.

(** A position in the subject: the character just before it (none at the
    start), the text from it on, and the groups captured so far. *)
Record mstate : Type := MState {
  prev : option ascii;
  rest : string;
  caps : list (nat * string)
}.

Definition consumed (a b : mstate) : string :=
  take (String.length (rest a) - String.length (rest b)) (rest a).

Definition set_cap (n : nat) (text : string) (st : mstate) : mstate :=
  MState (prev st) (rest st) ((n, text) :: caps st).

Fixpoint get_cap (n : nat) (cs : list (nat * string)) : option string :=
  match cs with
  | [] => None
  | (m, t) :: cs' => if Nat.eqb m n then Some t else get_cap n cs'
  end.

(** What [findall] puts in a tuple: the group's text, [''] if the group
    took no part in the match. *)
Definition group (n : nat) (st : mstate) : string :=
  match get_cap n (caps st) with Some t => t | None => EmptyString end.

Definition at_bol (multiline : bool) (st : mstate) : bool :=
  match prev st with
  | None => true
  | Some c => multiline && chr_eqb c newline
  end.

Definition at_eol (multiline : bool) (st : mstate) : bool :=
  match rest st with
  | EmptyString => true
  | String c EmptyString => chr_eqb c newline
  | String c _ => multiline && chr_eqb c newline
  end.

Definition orelse {A} (x y : option A) : option A :=
  match x with Some _ => x | None => y end.

Section Matcher.
Context {A : Type}.

(** Repetition of a class from a position: the greedy form tries one
    more character before it tries the continuation, the lazy form the
    other way round. *)
Fixpoint star_bt (greedy : bool) (p : ascii -> bool)
         (k : mstate -> option A)
         (pv : option ascii) (cs : list (nat * string)) (s : string)
  : option A :=
  let here := k (MState pv s cs) in
  match s with
  | String c s' =>
      if p c then
        if greedy then orelse (star_bt greedy p k (Some c) cs s') here
        else orelse here (star_bt greedy p k (Some c) cs s')
      else here
  | EmptyString => here
  end.

(** Backtracking matcher in continuation-passing style: [bt r st k]
    is the first way, in the order the [re] engine explores them, to
    match [r] at [st] so that the continuation [k] succeeds. *)
Fixpoint bt (r : regex) (st : mstate) (k : mstate -> option A)
  : option A :=
  match r with
  | Eps => k st
  | Class p =>
      match rest st with
      | String c s' =>
          if p c then k (MState (Some c) s' (caps st)) else None
      | EmptyString => None
      end
  | Seq r1 r2 => bt r1 st (fun st1 => bt r2 st1 k)
  | Alt r1 r2 => orelse (bt r1 st k) (bt r2 st k)
  | Star g p => star_bt g p k (prev st) (caps st) (rest st)
  | Group n r1 =>
      bt r1 st (fun st1 => k (set_cap n (consumed st st1) st1))
  | Bol m => if at_bol m st then k st else None
  | Eol m => if at_eol m st then k st else None
  end.
End Matcher.

(** Does the pattern contain group [n]? *)
Fixpoint has_group (n : nat) (r : regex) : bool :=
  match r with
  | Seq r1 r2 | Alt r1 r2 => has_group n r1 || has_group n r2
  | Group m r1 => Nat.eqb m n || has_group n r1
  | _ => false
  end.

(** The ways [r] can match between two positions, whatever the order in
    which the engine tries them. *)
Inductive Matches : regex -> mstate -> mstate -> Prop :=
| M_Eps st : Matches Eps st st
| M_Class p pv c s cs :
    p c = true ->
    Matches (Class p) (MState pv (String c s) cs) (MState (Some c) s cs)
| M_Seq r1 r2 a b c :
    Matches r1 a b -> Matches r2 b c -> Matches (Seq r1 r2) a c
| M_AltL r1 r2 a b : Matches r1 a b -> Matches (Alt r1 r2) a b
| M_AltR r1 r2 a b : Matches r2 a b -> Matches (Alt r1 r2) a b
| M_Star0 g p st : Matches (Star g p) st st
| M_StarS g p pv c s cs b :
    p c = true ->
    Matches (Star g p) (MState (Some c) s cs) b ->
    Matches (Star g p) (MState pv (String c s) cs) b
| M_Group n r a b :
    Matches r a b -> Matches (Group n r) a (set_cap n (consumed a b) b)
| M_Bol m st : at_bol m st = true -> Matches (Bol m) st st
| M_Eol m st : at_eol m st = true -> Matches (Eol m) st st.

(** One attempt at one position; [must_advance] refuses the empty match
    (the engine sets it right after an empty match at that position). *)
Definition attempt (r : regex) (must_advance : bool) (pv : option ascii)
           (s : string) : option mstate :=
  bt r (MState pv s [])
     (fun st' =>
        if must_advance && Nat.eqb (String.length (rest st')) (String.length s)
        then None else Some st').

(** [re.match(r, s)] as a truth value. *)
Definition py_match (r : regex) (s : string) : bool :=
  match attempt r false None s with Some _ => true | None => false end.

(** [re.search(r, s)] as a truth value. *)
Fixpoint search_from (r : regex) (pv : option ascii) (s : string) : bool :=
  match attempt r false pv s with
  | Some _ => true
  | None =>
      match s with
      | String c s' => search_from r (Some c) s'
      | EmptyString => false
      end
  end.

Definition search (r : regex) (s : string) : bool := search_from r None s.

(** [re.findall]: the matches from left to right, not overlapping. [skip]
    counts the characters of the last match still to step over. *)
Fixpoint findall_from (r : regex) (pv : option ascii) (s : string)
         (skip : nat) : list mstate :=
  let step (found : list mstate) (k : nat) :=
    match s with
    | String c s' => (found ++ findall_from r (Some c) s' k)%list
    | EmptyString => found
    end in
  match skip with
  | S k => step [] k
  | O =>
      match attempt r false pv s with
      | None => step [] 0
      | Some m =>
          let n := String.length s - String.length (rest m) in
          match n with
          | S k => step [m] k
          | O =>
              match attempt r true pv s with
              | Some m' =>
                  step [m; m']
                       (String.length s - String.length (rest m') - 1)
              | None => step [m] 0
              end
          end
      end
  end.

Definition findall (r : regex) (s : string) : list mstate :=
  findall_from r None s 0.

End Re.

(* ===================================================================== *)
(** * The patterns of [parse_script]                                      *)
(* ===================================================================== *)

Module Patterns.
Import PyStr Re.

(** [r'^// (\w+): (.+)$'] with [re.MULTILINE] *)
Definition metadata_re : regex :=
  Seq (Bol true)
 (Seq (Lit "// ")
 (Seq (Group 1 (Plus true is_word))
 (Seq (Lit ": ")
 (Seq (Group 2 (Plus true is_dot))
      (Eol true))))).

(** [r'^[a-zA-Z_]\w+$'] *)
Definition name_re : regex :=
  Seq (Bol false)
 (Seq (Class is_alpha_us)
 (Seq (Plus true is_word)
      (Eol false))).

(** [r'(@.*?)(\[.+?\])?\s*=\s*(count|hist)?'] *)
Definition variables_re : regex :=
  Seq (Group 1 (Seq (Chr "@") (Star false is_dot)))
 (Seq (Opt (Group 2 (Seq (Chr "[") (Seq (Plus false is_dot) (Chr "]")))))
 (Seq (Star true is_space)
 (Seq (Chr "=")
 (Seq (Star true is_space)
      (Opt (Group 3 (Alt (Lit "count") (Lit "hist")))))))).

(** [r'printf\s*\('] *)
Definition printf_re : regex :=
  Seq (Lit "printf") (Seq (Star true is_space) (Chr "(")).

End Patterns.

(* ===================================================================== *)
(** * Python's insertion-ordered [dict]                                   *)
(* ===================================================================== *)

Module Dict.
Section Dict.
Context {K V : Type} (eqb : K -> K -> bool).

Definition t : Type := list (K * V).

(** [d.get(k)] *)
Fixpoint get (k : K) (d : t) : option V :=
  match d with
  | [] => None
  | (k', v) :: d' => if eqb k' k then Some v else get k d'
  end.

(** [d[k] = v]: an existing key keeps its place (and its key object),
    a new key goes last. *)
Fixpoint set (k : K) (v : V) (d : t) : t :=
  match d with
  | [] => [(k, v)]
  | (k', v') :: d' =>
      if eqb k' k then (k', v) :: d' else (k', v') :: set k v d'
  end.

(** iteration order of [d] *)
Definition keys (d : t) : list K := map fst d.

(** [d.update(src)] for a mapping [src] *)
Definition update (src d : t) : t :=
  fold_left (fun acc kv => set (fst kv) (snd kv) acc) src d.
End Dict.
End Dict.

(* ===================================================================== *)
(** * Python values and the dynamic operations applied to them            *)
(* ===================================================================== *)

Inductive exn : Type :=
| ValueError
| KeyError
| TypeError
| AttributeError
| OSError
| BPFtraceError (msg : string).

Inductive res (A : Type) : Type :=
| Ok (a : A)
| Err (e : exn).
Arguments Ok {A} a.
Arguments Err {A} e.

Module Py.
Import PyStr.

(** What [json.loads] builds, and what ends up in [BPFtraceState.maps]. *)
Inductive value : Type :=
| PNone
| PBool (b : bool)
| PInt (z : Z)
| PStr (s : string)
| PList (l : list value)
| PDict (d : list (value * value)).

Definition as_int (v : value) : option Z :=
  match v with
  | PInt z => Some z
  | PBool b => Some (if b then 1%Z else 0%Z)
  | _ => None
  end.

(** Equality of dictionary keys: [True == 1] and [False == 0]. *)
Definition key_eqb (a b : value) : bool :=
  match a, b with
  | PNone, PNone => true
  | PStr s, PStr s' => String.eqb s s'
  | _, _ =>
      match as_int a, as_int b with
      | Some x, Some y => Z.eqb x y
      | _, _ => false
      end
  end.

Definition hashable (v : value) : bool :=
  match v with
  | PList _ | PDict _ => false
  | _ => true
  end.

Definition pydict : Type := list (value * value).
Definition dget (k : value) (d : pydict) : option value := Dict.get key_eqb k d.
Definition dset (k v : value) (d : pydict) : pydict := Dict.set key_eqb k v d.

(** [v == s] for a string literal [s] *)
Definition eq_str (v : value) (s : string) : bool :=
  match v with
  | PStr s' => String.eqb s' s
  | _ => false
  end.

(** [o[k]] for a string [k] *)
Definition getitem (o : value) (k : string) : res value :=
  match o with
  | PDict d =>
      match dget (PStr k) d with
      | Some v => Ok v
      | None => Err KeyError
      end
  | _ => Err TypeError
  end.

(** [o.get(k, default)] *)
Definition get_default (o : value) (k : string) (default : value) : res value :=
  match o with
  | PDict d =>
      match dget (PStr k) d with
      | Some v => Ok v
      | None => Ok default
      end
  | _ => Err AttributeError
  end.

(** [o.items()] *)
Definition items (o : value) : res (list (value * value)) :=
  match o with
  | PDict d => Ok d
  | _ => Err AttributeError
  end.

Fixpoint chars (s : string) : list value :=
  match s with
  | EmptyString => []
  | String c s' => PStr (String c EmptyString) :: chars s'
  end.

(** [iter(o)] *)
Definition iterate (o : value) : res (list value) :=
  match o with
  | PList l => Ok l
  | PDict d => Ok (Dict.keys d)
  | PStr s => Ok (chars s)
  | _ => Err TypeError
  end.

(** [a + b] *)
Definition add (a b : value) : res value :=
  match a, b with
  | PStr x, PStr y => Ok (PStr (x ++ y))
  | PList x, PList y => Ok (PList (x ++ y)%list)
  | _, _ =>
      match as_int a, as_int b with
      | Some x, Some y => Ok (PInt (x + y))
      | _, _ => Err TypeError
      end
  end.

Definition hex_digit (n : nat) : ascii :=
  ascii_of_nat (if Nat.ltb n 10 then 48 + n else 87 + n).

Definition printable (c : ascii) : bool :=
  negb (Nat.ltb (code c) 32 || between 127 160 c || chr_eqb c (ascii_of_nat 173)).

Fixpoint has_char (q : ascii) (s : string) : bool :=
  match s with
  | EmptyString => false
  | String c s' => chr_eqb c q || has_char q s'
  end.

Fixpoint escape (q : ascii) (s : string) : string :=
  match s with
  | EmptyString => EmptyString
  | String c s' =>
      (if chr_eqb c q || chr_eqb c "\" then String "\" (String c EmptyString)
       else if chr_eqb c (ascii_of_nat 9) then "\t"
       else if chr_eqb c (ascii_of_nat 10) then "\n"
       else if chr_eqb c (ascii_of_nat 13) then "\r"
       else if printable c then String c EmptyString
       else String "\" (String "x" (String (hex_digit (code c / 16))
              (String (hex_digit (code c mod 16)) EmptyString))))
      ++ escape q s'
  end.

(** [repr(s)] for a [str] *)
Definition repr_str (s : string) : string :=
  let q : ascii :=
  if has_char "'" s && negb (has_char dquote s) then dquote else "'"%char in
  String q (escape q s ++ String q EmptyString).

(** [repr(v)] *)
Fixpoint repr (v : value) : string :=
  match v with
  | PNone => "None"
  | PBool true => "True"
  | PBool false => "False"
  | PInt z => of_Z z
  | PStr s => repr_str s
  | PList l => "[" ++ join ", " (map repr l) ++ "]"
  | PDict d =>
      "{" ++ join ", " (map (fun kv => match kv with
                                        | (k, x) => repr k ++ ": " ++ repr x
                                        end) d) ++ "}"
  end.

(** ['{}'.format(v)], that is [str(v)] *)
Definition str (v : value) : string :=
  match v with
  | PStr s => s
  | _ => repr v
  end.

(** One element of the sequence given to [dict.update]: it has to unpack
    into a key and a value. *)
Definition as_pair (e : value) : res (value * value) :=
  match iterate e with
  | Ok [k; v] => Ok (k, v)
  | Ok _ => Err ValueError
  | Err _ => Err TypeError
  end.

(** [d.update(src)] for a sequence of pairs: the pairs before a bad one
    are stored. *)
Fixpoint update_pairs (src : list value) (d : pydict) : pydict * option exn :=
  match src with
  | [] => (d, None)
  | e :: src' =>
      match as_pair e with
      | Ok (k, v) =>
          if hashable k then update_pairs src' (dset k v d)
          else (d, Some TypeError)
      | Err x => (d, Some x)
      end
  end.

(** [d.update(src)] *)
Definition update (src : value) (d : pydict) : pydict * option exn :=
  match src with
  | PDict m => (Dict.update key_eqb m d, None)
  | PNone | PBool _ | PInt _ => (d, Some TypeError)
  | _ =>
      match iterate src with
      | Ok l => update_pairs l d
      | Err x => (d, Some x)
      end
  end.

End Py.

(* ===================================================================== *)
(** * A JSON decoder                                                      *)
(* ===================================================================== *)

(** [json.loads] on the texts the value model can hold: objects, arrays,
    strings, integers, [true], [false] and [null]. A number with a fraction
    or an exponent, [NaN], [Infinity] and an escape above U+00FF are outside
    the model; [loads] has no result for them, as for a text that is not
    JSON. [process_output] takes its decoder as a parameter; this one runs
    the examples. *)
Module Json.
Import PyStr Py.

Definition is_ws (c : ascii) : bool :=
  chr_eqb c " " || chr_eqb c (ascii_of_nat 9)
  || chr_eqb c (ascii_of_nat 10) || chr_eqb c (ascii_of_nat 13).

Fixpoint skip_ws (s : string) : string :=
  match s with
  | String c s' => if is_ws c then skip_ws s' else s
  | EmptyString => s
  end.

Definition is_digit (c : ascii) : bool := between 48 57 c.

Fixpoint digits (s : string) (acc : Z) : Z * string :=
  match s with
  | String c s' =>
      if is_digit c then digits s' (10 * acc + Z.of_nat (code c - 48))%Z
      else (acc, s)
  | EmptyString => (acc, s)
  end.

(** After the digits of an integer, a fraction or an exponent makes the
    number a float. *)
Definition float_follows (s : string) : bool :=
  match s with
  | String c (String d _) =>
      (chr_eqb c "." && is_digit d)
      || ((chr_eqb c "e" || chr_eqb c "E")
          && (is_digit d || chr_eqb d "+" || chr_eqb d "-"))
  | _ => false
  end.

Definition unsigned (s : string) : option (Z * string) :=
  match s with
  | String c s' =>
      if chr_eqb c "0" then Some (0%Z, s')
      else if is_digit c then Some (digits s 0%Z)
      else None
  | EmptyString => None
  end.

Definition number (s : string) : option (value * string) :=
  let '(sign, body) :=
    match s with
    | String c s' => if chr_eqb c "-" then ((-1)%Z, s') else (1%Z, s)
    | EmptyString => (1%Z, s)
    end in
  match unsigned body with
  | Some (n, rest) =>
      if float_follows rest then None else Some (PInt (sign * n), rest)
  | None => None
  end.

Definition hex_value (c : ascii) : option nat :=
  if between 48 57 c then Some (code c - 48)
  else if between 97 102 c then Some (code c - 87)
  else if between 65 70 c then Some (code c - 55)
  else None.

Definition escape_char (c : ascii) : option ascii :=
  if chr_eqb c dquote then Some dquote
  else if chr_eqb c "\" then Some "\"%char
  else if chr_eqb c "/" then Some "/"%char
  else if chr_eqb c "b" then Some (ascii_of_nat 8)
  else if chr_eqb c "f" then Some (ascii_of_nat 12)
  else if chr_eqb c "n" then Some (ascii_of_nat 10)
  else if chr_eqb c "r" then Some (ascii_of_nat 13)
  else if chr_eqb c "t" then Some (ascii_of_nat 9)
  else None.

(** The text of a string, from the character after the opening quote. *)
Fixpoint string_body (s : string) : option (string * string) :=
  match s with
  | EmptyString => None
  | String c s' =>
      if chr_eqb c dquote then Some (EmptyString, s')
      else if Nat.ltb (code c) 32 then None
      else if chr_eqb c "\" then
        match s' with
        | String "u" (String h1 (String h2 (String h3 (String h4 s'')))) =>
            match hex_value h1, hex_value h2, hex_value h3, hex_value h4 with
            | Some 0, Some 0, Some a, Some b =>
                match string_body s'' with
                | Some (t, rest) =>
                    Some (String (ascii_of_nat (16 * a + b)) t, rest)
                | None => None
                end
            | _, _, _, _ => None
            end
        | String e s'' =>
            match escape_char e, string_body s'' with
            | Some x, Some (t, rest) => Some (String x t, rest)
            | _, _ => None
            end
        | EmptyString => None
        end
      else
        match string_body s' with
        | Some (t, rest) => Some (String c t, rest)
        | None => None
        end
  end.

Fixpoint starts_with (p s : string) : option string :=
  match p, s with
  | EmptyString, _ => Some s
  | String a p', String b s' => if chr_eqb a b then starts_with p' s' else None
  | _, EmptyString => None
  end.

(** [value] reads one value at the start of the text; [elements] and
    [members] read what follows the opening bracket or brace. *)
Fixpoint value_at (fuel : nat) (s : string) : option (value * string) :=
  match fuel with
  | O => None
  | S fuel' =>
      match s with
      | EmptyString => None
      | String c s' =>
          if chr_eqb c dquote then
            match string_body s' with
            | Some (t, rest) => Some (PStr t, rest)
            | None => None
            end
          else if chr_eqb c "[" then
            match skip_ws s' with
            | String "]" rest => Some (PList [], rest)
            | s1 => elements fuel' s1 []
            end
          else if chr_eqb c "{" then
            match skip_ws s' with
            | String "}" rest => Some (PDict [], rest)
            | s1 => members fuel' s1 []
            end
          else
            match starts_with "null" s, starts_with "true" s,
                  starts_with "false" s with
            | Some rest, _, _ => Some (PNone, rest)
            | _, Some rest, _ => Some (PBool true, rest)
            | _, _, Some rest => Some (PBool false, rest)
            | _, _, _ => number s
            end
      end
  end
with elements (fuel : nat) (s : string) (acc : list value)
  : option (value * string) :=
  match fuel with
  | O => None
  | S fuel' =>
      match value_at fuel' s with
      | Some (v, rest) =>
          match skip_ws rest with
          | String "," rest' => elements fuel' (skip_ws rest') (acc ++ [v])%list
          | String "]" rest' => Some (PList (acc ++ [v])%list, rest')
          | _ => None
          end
      | None => None
      end
  end
with members (fuel : nat) (s : string) (acc : pydict)
  : option (value * string) :=
  match fuel with
  | O => None
  | S fuel' =>
      match s with
      | String q s' =>
          if chr_eqb q dquote then
            match string_body s' with
            | Some (key, rest) =>
                match skip_ws rest with
                | String ":" rest' =>
                    match value_at fuel' (skip_ws rest') with
                    | Some (v, rest'') =>
                        let acc' := dset (PStr key) v acc in
                        match skip_ws rest'' with
                        | String "," r => members fuel' (skip_ws r) acc'
                        | String "}" r => Some (PDict acc', r)
                        | _ => None
                        end
                    | None => None
                    end
                | _ => None
                end
            | None => None
            end
          else None
      | EmptyString => None
      end
  end.

(** The whole text is one value, with whitespace around it at most. *)
Definition loads (s : string) : option value :=
  match value_at (2 * String.length s + 2) (skip_ws s) with
  | Some (v, rest) =>
      match skip_ws rest with
      | EmptyString => Some v
      | _ => None
      end
  | None => None
  end.

End Json.

(* ===================================================================== *)
(** * [BPFtraceState] and [BPFtraceVarDef]                                *)
(* ===================================================================== *)

(** [status]: ['stopped'], ['starting'], ['started'] or ['stopping'] *)
Inductive status_t : Type := Stopped | Starting | Started | Stopping.

Definition status_str (s : status_t) : string :=
  match s with
  | Stopped => "stopped"
  | Starting => "starting"
  | Started => "started"
  | Stopping => "stopping"
  end.

Definition status_eqb (a b : status_t) : bool :=
  String.eqb (status_str a) (status_str b).

Record BPFtraceState : Type := mkState {
  status : status_t;
  pid : option Z;
  exit_code : option Z;
  output : string;
  probes : Py.value;
  maps : Py.pydict
}.

(** [BPFtraceState.reset] *)
Definition reset (st : BPFtraceState) : BPFtraceState :=
  mkState (status st) None None "" (Py.PInt 0) [].

(** [BPFtraceState.__init__] *)
Definition BPFtraceState_init : BPFtraceState :=
  reset (mkState Stopped None None "" Py.PNone []).

Definition with_status (s : status_t) (st : BPFtraceState) : BPFtraceState :=
  mkState s (pid st) (exit_code st) (output st) (probes st) (maps st).
Definition with_pid (p : option Z) (st : BPFtraceState) : BPFtraceState :=
  mkState (status st) p (exit_code st) (output st) (probes st) (maps st).
Definition with_exit_code (c : option Z) (st : BPFtraceState) : BPFtraceState :=
  mkState (status st) (pid st) c (output st) (probes st) (maps st).
Definition with_output (o : string) (st : BPFtraceState) : BPFtraceState :=
  mkState (status st) (pid st) (exit_code st) o (probes st) (maps st).
Definition with_probes (v : Py.value) (st : BPFtraceState) : BPFtraceState :=
  mkState (status st) (pid st) (exit_code st) (output st) v (maps st).
Definition with_maps (m : Py.pydict) (st : BPFtraceState) : BPFtraceState :=
  mkState (status st) (pid st) (exit_code st) (output st) (probes st) m.

(** [cpmapi]'s constants *)
Inductive pm_sem : Type := PM_SEM_INSTANT | PM_SEM_COUNTER.
Inductive pm_type : Type := PM_TYPE_U64 | PM_TYPE_STRING.

Record BPFtraceVarDef : Type := mkVarDef {
  single : bool;
  semantics : pm_sem;
  datatype : pm_type
}.

(* ===================================================================== *)
(** * State and exceptions                                                *)
(* ===================================================================== *)

(** A method of [BPFtrace] runs on [self._state] and either returns or
    raises; what it wrote before it raised stays written. *)
Inductive outcome (A : Type) : Type :=
| Return (a : A) (st : BPFtraceState)
| Raise (e : exn) (st : BPFtraceState).
Arguments Return {A} a st.
Arguments Raise {A} e st.

Definition M (A : Type) : Type := BPFtraceState -> outcome A.

Definition ret {A} (a : A) : M A := fun st => Return a st.
Definition raise {A} (e : exn) : M A := fun st => Raise e st.
Definition bind {A B} (m : M A) (f : A -> M B) : M B :=
  fun st =>
    match m st with
    | Return a st' => f a st'
    | Raise e st' => Raise e st'
    end.
Definition get : M BPFtraceState := fun st => Return st st.
Definition modify (f : BPFtraceState -> BPFtraceState) : M unit :=
  fun st => Return tt (f st).
Definition lift {A} (r : res A) : M A :=
  match r with
  | Ok a => ret a
  | Err e => raise e
  end.

(** [try: body except ValueError: handler] *)
Definition try_except_ValueError (body handler : M unit) : M unit :=
  fun st =>
    match body st with
    | Raise ValueError st' => handler st'
    | o => o
    end.

Definition final_state {A} (o : outcome A) : BPFtraceState :=
  match o with
  | Return _ st => st
  | Raise _ st => st
  end.

Declare Scope py_scope.
Delimit Scope py_scope with py.
Notation "x <- m ;; k" := (bind m (fun x => k))
  (at level 100, m at next level, k at level 200, right associativity) : py_scope.
Notation "m ;; k" := (bind m (fun _ => k))
  (at level 100, k at level 200, right associativity) : py_scope.
Notation "'let*' x := r 'in' k" :=
  (match r with Ok x => k | Err e => Err e end)
  (at level 10, x pattern, r at level 99, k at level 200) : py_scope.

Local Open Scope py_scope.

(* ===================================================================== *)
(** * class [BPFtrace]                                                    *)
(* ===================================================================== *)

Module BPFtrace.
Import PyStr Re Patterns Py.

(** ** [process_output_obj] *)

(** The dict comprehension over the buckets of one histogram: for each
    bucket the key is evaluated, then the value (the order of Python 3.8
    and later). *)
Fixpoint bucket_map (buckets : list value) (acc : pydict) : res pydict :=
  match buckets with
  | [] => Ok acc
  | bucket :: buckets' =>
      let* lo := get_default bucket "min" (PStr "inf") in
      let* hi := get_default bucket "max" (PStr "inf") in
      let* count := getitem bucket "count" in
      bucket_map buckets' (dset (PStr (str lo ++ "-" ++ str hi)) count acc)
  end.

Fixpoint hist_items (its : list (value * value)) : M unit :=
  match its with
  | [] => ret tt
  | (k, v) :: its' =>
      buckets <- lift (iterate v) ;;
      m <- lift (bucket_map buckets []) ;;
      modify (fun st => with_maps (dset k (PDict m) (maps st)) st) ;;
      hist_items its'
  end.

Definition maps_update (data : value) : M unit :=
  fun st =>
    match update data (maps st) with
    | (m, None) => Return tt (with_maps m st)
    | (m, Some e) => Raise e (with_maps m st)
    end.

(** The body runs under [self.lock]. *)
Definition process_output_obj (obj : value) : M unit :=
  modify (fun st => match status st with
                    | Starting => with_status Started st
                    | _ => st
                    end) ;;
  ty <- lift (getitem obj "type") ;;
  if eq_str ty "attached_probes" then
    p <- lift (getitem obj "probes") ;;
    modify (with_probes p)
  else if eq_str ty "map" then
    data <- lift (getitem obj "data") ;;
    maps_update data
  else if eq_str ty "hist" then
    data <- lift (getitem obj "data") ;;
    its <- lift (items data) ;;
    hist_items its
  else if eq_str ty "printf" || eq_str ty "time" then
    st <- get ;;
    let cur := match dget (PStr "@printf") (maps st) with
               | Some v => v
               | None => PStr ""
               end in
    msg <- lift (getitem obj "msg") ;;
    text <- lift (add cur msg) ;;
    modify (fun st => with_maps (dset (PStr "@printf") text (maps st)) st)
  else ret tt.

(** ** [process_output] *)

(** [json_loads line] is [None] where [json.loads] raises [ValueError]. *)
Section Output.
Variable json_loads : string -> option value.

Definition process_line (line : string) : M unit :=
  if (match line with EmptyString => true | _ => false end)
     || isspace line
  then ret tt
  else
    try_except_ValueError
      (obj <- (match json_loads line with
               | Some obj => ret obj
               | None => raise ValueError
               end) ;;
       process_output_obj obj)
      (modify (fun st => with_output (output st ++ line) st)).

Fixpoint process_lines (lines : list string) : M unit :=
  match lines with
  | [] => ret tt
  | line :: lines' => process_line line ;; process_lines lines'
  end.

(** [lines] is what the child writes until it closes its output,
    [returncode] what [poll] finds afterwards. *)
Definition process_output (lines : list string) (returncode : option Z)
  : M unit :=
  process_lines lines ;;
  modify (fun st => with_exit_code returncode (with_status Stopped st)).
End Output.

(** ** [parse_script] *)

Record metadata_t : Type := mkMeta {
  md_name : option string;
  md_include : option (list string)
}.

Definition find_metadata (script : string) : list (string * string) :=
  map (fun m => (group 1 m, group 2 m)) (findall metadata_re script).

Definition find_variables (script : string)
  : list (string * string * string) :=
  map (fun m => (group 1 m, group 2 m, group 3 m))
      (findall variables_re script).

Definition invalid_name (val : string) : exn :=
  BPFtraceError ("invalid value '" ++ val ++ "' for script name: must contain only "
                 ++ "alphanumeric characters and start with a letter").

Definition nothing_found : exn :=
  BPFtraceError ("no bpftrace variables or printf statements found, please include "
                 ++ "at least one variable or print statement in your script").

Fixpoint read_metadata (pairs : list (string * string)) (md : metadata_t)
  : res metadata_t :=
  match pairs with
  | [] => Ok md
  | (key, val) :: pairs' =>
      if String.eqb key "name" then
        if py_match name_re val
        then read_metadata pairs' (mkMeta (Some val) (md_include md))
        else Err (invalid_name val)
      else if String.eqb key "include" then
        read_metadata pairs' (mkMeta (md_name md) (Some (split "," val)))
      else read_metadata pairs' md
  end.

Definition var_defs_t : Type := list (string * BPFtraceVarDef).

(** ['include' in self.metadata and var not in self.metadata['include']] *)
Definition excluded (md : metadata_t) (var : string) : bool :=
  match md_include md with
  | Some incl => negb (mem var incl)
  | None => false
  end.

Definition vardef_of (key func : string) : BPFtraceVarDef :=
  let vardef := mkVarDef true PM_SEM_INSTANT PM_TYPE_U64 in
  let vardef :=
    if mem func ["hist"; "lhist"]
    then mkVarDef false PM_SEM_COUNTER (datatype vardef) else vardef in
  let vardef :=
    if String.eqb func "count"
    then mkVarDef (single vardef) PM_SEM_COUNTER (datatype vardef) else vardef in
  let vardef :=
    match key with
    | EmptyString => vardef
    | _ => mkVarDef false (semantics vardef) (datatype vardef)
    end in
  vardef.

Fixpoint declare (md : metadata_t) (variables : list (string * string * string))
         (var_defs : var_defs_t) : var_defs_t :=
  match variables with
  | [] => var_defs
  | (var, key, func) :: variables' =>
      if excluded md var then declare md variables' var_defs
      else declare md variables'
                   (Dict.set String.eqb var (vardef_of key func) var_defs)
  end.

Definition print_st (var_defs : var_defs_t) : string :=
  join " " (map (fun var => "print(" ++ var ++ ");") (Dict.keys var_defs)).

Definition printf_def : BPFtraceVarDef :=
  mkVarDef true PM_SEM_INSTANT PM_TYPE_STRING.

(** The declarations and the script after the [variables] block. *)
Definition declare_variables (md : metadata_t) (script : string)
  : var_defs_t * string :=
  match find_variables script with
  | [] => ([], script)
  | variables =>
      let var_defs := declare md variables [] in
      (var_defs, script ++ " interval:s:1 { " ++ print_st var_defs ++ " }")
  end.

Definition declare_printf (md : metadata_t) (script : string)
           (var_defs : var_defs_t) : var_defs_t :=
  if search printf_re script
     && match md_include md with
        | None => true
        | Some incl => mem "@printf" incl
        end
  then Dict.set String.eqb "@printf" printf_def var_defs
  else var_defs.

(** [parse_script] on [self.script]; on success, [self.metadata],
    [self.var_defs] and the new [self.script]. *)
Definition parse_script (script : string)
  : res (metadata_t * var_defs_t * string) :=
  let* md := read_metadata (find_metadata script) (mkMeta None None) in
  let '(var_defs, script') := declare_variables md script in
  let var_defs := declare_printf md script' var_defs in
  match var_defs with
  | [] => Err nothing_found
  | _ => Ok (md, var_defs, script')
  end.

(** ** [start] and [stop] *)

Definition cannot (what : string) (s : status_t) : exn :=
  BPFtraceError ("cannot " ++ what ++ " bpftrace, current status: " ++ status_str s).

(** [popen] is what [subprocess.Popen] does: the child's pid, or the
    error it raises. The two [with self.lock] blocks are the two halves. *)
Definition start_locked : M unit :=
  st <- get ;;
  if negb (status_eqb (status st) Stopped)
  then raise (cannot "start" (status st))
  else modify (fun st => with_status Starting (reset st)).

Definition start (popen : res Z) : M unit :=
  start_locked ;;
  child <- lift popen ;;
  modify (with_pid (Some child)).

(** [returncode] is [self.process.returncode] after [communicate] or
    [poll]. *)
Definition stop_locked : M unit :=
  st <- get ;;
  if negb (status_eqb (status st) Started)
  then raise (cannot "stop" (status st))
  else modify (with_status Stopping).

Definition stop (wait : bool) (returncode : option Z) : M unit :=
  stop_locked ;;
  modify (fun st => with_exit_code returncode (with_status Stopped st)).

(** [state] in this value model: the caller gets the record itself. The
    copy and what it shares with the live object are in [Store]. *)
Definition state : M BPFtraceState := get.

End BPFtrace.

(* ===================================================================== *)
(** * The object store and [copy.deepcopy]                                *)
(* ===================================================================== *)

Module Store.
Import Py.

Abbreviation loc := nat (only parsing).

(** A Python value as a variable holds it: an immutable object, or a
    reference to a mutable one. *)
Inductive val : Type :=
| VNone
| VBool (b : bool)
| VInt (z : Z)
| VStr (s : string)
| VRef (l : loc).

(** The mutable objects: lists, dicts and the [BPFtraceState] instance
    (its immutable attributes, then [probes] and [maps]). *)
Inductive cell : Type :=
| CList (items : list val)
| CDict (entries : list (val * val))
| CState (st : status_t) (pid exit_code : option Z) (output : string)
         (probes maps : val).

(** Objects are never freed; a new one goes at the end. *)
Abbreviation heap := (list cell) (only parsing).

Definition memo_t : Type := list (loc * loc).

Fixpoint memo_get (l : loc) (memo : memo_t) : option loc :=
  match memo with
  | [] => None
  | (a, b) :: memo' => if Nat.eqb a l then Some b else memo_get l memo'
  end.

Fixpoint flatten (entries : list (val * val)) : list val :=
  match entries with
  | [] => []
  | (k, v) :: entries' => k :: v :: flatten entries'
  end.

Fixpoint pair_up (vs : list val) : list (val * val) :=
  match vs with
  | k :: v :: vs' => (k, v) :: pair_up vs'
  | _ => []
  end.

(** The values an object holds, in the order [deepcopy] visits them. *)
Definition children (c : cell) : list val :=
  match c with
  | CList items => items
  | CDict entries => flatten entries
  | CState _ _ _ _ probes maps => [probes; maps]
  end.

(** The same kind of object around other values. *)
Definition rebuild (c : cell) (vs : list val) : cell :=
  match c with
  | CList _ => CList vs
  | CDict _ => CDict (pair_up vs)
  | CState st p e o probes maps =>
      match vs with
      | [probes'; maps'] => CState st p e o probes' maps'
      | _ => c
      end
  end.

(** The new object before it is filled. *)
Definition blank (c : cell) : cell :=
  match c with
  | CList _ => CList []
  | CDict _ => CDict []
  | CState st p e o _ _ => CState st p e o VNone VNone
  end.

Definition result_t : Type := heap * memo_t * val.

(** The copies of a sequence of values, left to right, with [copy] for
    each. *)
Fixpoint copy_seq (copy : heap -> memo_t -> val -> option result_t)
         (vs : list val) (h : heap) (memo : memo_t)
  : option (heap * memo_t * list val) :=
  match vs with
  | [] => Some (h, memo, [])
  | x :: vs' =>
      match copy h memo x with
      | Some (h1, memo1, x') =>
          match copy_seq copy vs' h1 memo1 with
          | Some (h2, memo2, vs'') => Some (h2, memo2, x' :: vs'')
          | None => None
          end
      | None => None
      end
  end.

(** [deepcopy(v, memo)]: immutable objects are returned as they are; an
    object already in [memo] gives its copy; otherwise a new object is
    created, recorded in [memo], and filled with the copies of what the
    original holds. [fuel] bounds the nesting. *)
Fixpoint deepcopy (fuel : nat) (h : heap) (memo : memo_t) (v : val)
  : option result_t :=
  match v with
  | VRef l =>
      match memo_get l memo with
      | Some l' => Some (h, memo, VRef l')
      | None =>
          match fuel with
          | O => None
          | S fuel' =>
              match h !! l with
              | None => None
              | Some c =>
                  let l' := length h in
                  match copy_seq (deepcopy fuel') (children c)
                                 (h ++ [blank c])%list ((l, l') :: memo) with
                  | Some (h2, memo2, vs) =>
                      Some (<[l' := rebuild c vs]> h2, memo2, VRef l')
                  | None => None
                  end
              end
          end
      end
  | _ => Some (h, memo, v)
  end.

(** [BPFtrace.state]: [deepcopy(self._state)] under [self.lock]. The
    result is the store after the copy and the snapshot's address. *)
Definition state (h : heap) (root : loc) : option (heap * loc) :=
  match deepcopy (length h) h [] (VRef root) with
  | Some (h', _, VRef snap) => Some (h', snap)
  | _ => None
  end.

(** ** Reading a stored object as a value *)

Fixpoint all_some {A} (l : list (option A)) : option (list A) :=
  match l with
  | [] => Some []
  | Some a :: l' =>
      match all_some l' with Some r => Some (a :: r) | None => None end
  | None :: _ => None
  end.

Fixpoint pair_values (vs : list value) : list (value * value) :=
  match vs with
  | k :: v :: vs' => (k, v) :: pair_values vs'
  | _ => []
  end.

Fixpoint reify (fuel : nat) (h : heap) (v : val) : option value :=
  match v with
  | VNone => Some PNone
  | VBool b => Some (PBool b)
  | VInt z => Some (PInt z)
  | VStr s => Some (PStr s)
  | VRef l =>
      match fuel with
      | O => None
      | S fuel' =>
          match h !! l with
          | Some (CList items) =>
              match all_some (map (reify fuel' h) items) with
              | Some vs => Some (PList vs)
              | None => None
              end
          | Some (CDict entries) =>
              match all_some (map (reify fuel' h) (flatten entries)) with
              | Some vs => Some (PDict (pair_values vs))
              | None => None
              end
          | _ => None
          end
      end
  end.

(** The [BPFtraceState] record an instance in the store stands for. *)
Definition reify_state (fuel : nat) (h : heap) (root : loc)
  : option BPFtraceState :=
  match h !! root with
  | Some (CState st p e o probes maps) =>
      match reify fuel h probes, reify fuel h maps with
      | Some pr, Some (PDict d) => Some (mkState st p e o pr d)
      | _, _ => None
      end
  | _ => None
  end.

(** ** Building objects from values *)

Fixpoint alloc (v : value) (h : heap) : heap * val :=
  let alloc_seq :=
    fix alloc_seq (vs : list value) (h : heap) : heap * list val :=
      match vs with
      | [] => (h, [])
      | x :: vs' =>
          let '(h1, x') := alloc x h in
          let '(h2, vs'') := alloc_seq vs' h1 in
          (h2, x' :: vs'')
      end in
  match v with
  | PNone => (h, VNone)
  | PBool b => (h, VBool b)
  | PInt z => (h, VInt z)
  | PStr s => (h, VStr s)
  | PList l =>
      let '(h1, vs) := alloc_seq l h in
      ((h1 ++ [CList vs])%list, VRef (length h1))
  | PDict d =>
      let alloc_entries :=
        fix alloc_entries (d : list (value * value)) (h : heap)
          : heap * list (val * val) :=
          match d with
          | [] => (h, [])
          | (k, x) :: d' =>
              let '(h1, k') := alloc k h in
              let '(h2, x') := alloc x h1 in
              let '(h3, d'') := alloc_entries d' h2 in
              (h3, (k', x') :: d'')
          end in
      let '(h1, es) := alloc_entries d h in
      ((h1 ++ [CDict es])%list, VRef (length h1))
  end.

(** A [BPFtraceState] instance with the given attributes. *)
Definition alloc_state (s : BPFtraceState) (h : heap) : heap * loc :=
  let '(h1, pr) := alloc (probes s) h in
  let '(h2, m) := alloc (PDict (maps s)) h1 in
  ((h2 ++ [CState (status s) (pid s) (exit_code s) (output s) pr m])%list,
   length h2).

(** ** Reachability and well-formed stores *)

Inductive reach (h : heap) : val -> loc -> Prop :=
| reach_here l : reach h (VRef l) l
| reach_step l c v l' :
    h !! l = Some c -> In v (children c) -> reach h v l' ->
    reach h (VRef l) l'.

Definition val_below (n : nat) (v : val) : Prop :=
  match v with
  | VRef l => l < n
  | _ => True
  end.

(** No dangling reference. *)
Definition closed (h : heap) : Prop :=
  forall l c, h !! l = Some c ->
              Forall (val_below (length h)) (children c).

(** [h2] differs from [h] only on objects in [footprint]; it may hold
    new objects. *)
Definition mutates_only (footprint : loc -> Prop) (h h2 : heap) : Prop :=
  forall l c, h !! l = Some c -> ~ footprint l -> h2 !! l = Some c.

(** ** The invariant of a copy in progress

    [n] is the size of the store when the copy started: the originals
    are below [n], the copies at [n] and above. *)

(** The first [n] objects only refer to one another. *)
Definition old_closed (n : nat) (h : heap) : Prop :=
  forall l c, l < n -> h !! l = Some c -> Forall (val_below n) (children c).

(** [memo] maps originals to copies. *)
Definition memo_ok (n : nat) (h : heap) (memo : memo_t) : Prop :=
  forall l l', memo_get l memo = Some l' -> l < n /\ n <= l' < length h.

Definition memo_ext (memo memo' : memo_t) : Prop :=
  forall l l', memo_get l memo = Some l' -> memo_get l memo' = Some l'.

(** What [memo'] has and [memo] has not was created at [size] or above. *)
Definition memo_fresh (size : nat) (memo memo' : memo_t) : Prop :=
  forall l l', memo_get l memo' = Some l' ->
               memo_get l memo = Some l'
               \/ (memo_get l memo = None /\ size <= l').

(** [v'] is [v] with a reference to an original replaced by the
    reference to its copy. *)
Definition related (memo : memo_t) (v v' : val) : Prop :=
  match v with
  | VRef l => exists l', v' = VRef l' /\ memo_get l memo = Some l'
  | _ => v' = v
  end.

(** [c'] is the same kind of object as [c], around related values. *)
Definition cell_sim (memo : memo_t) (c c' : cell) : Prop :=
  exists vs, c' = rebuild c vs /\ Forall2 (related memo) (children c) vs.

(** Every copy in [memo] that is not still being filled matches its
    original. *)
Definition copied (pending : list loc) (h : heap) (memo : memo_t) : Prop :=
  forall l l', memo_get l memo = Some l' -> ~ In l' pending ->
               exists c c', h !! l = Some c /\ h !! l' = Some c'
                            /\ cell_sim memo c c'.

Definition pre (n : nat) (pending : list loc) (h : heap) (memo : memo_t)
  : Prop :=
  n <= length h /\ old_closed n h /\ memo_ok n h memo
  /\ copied pending h memo.

Definition post (n : nat) (pending : list loc) (h : heap) (memo : memo_t)
           (h' : heap) (memo' : memo_t) : Prop :=
  length h <= length h'
  /\ (forall l, l < length h -> h' !! l = h !! l)
  /\ memo_ok n h' memo'
  /\ memo_ext memo memo'
  /\ memo_fresh (length h) memo memo'
  /\ copied pending h' memo'.

(** What one call has to guarantee for [copy_seq] to keep the
    invariant. *)
Definition copy_ok (n : nat)
           (copy : heap -> memo_t -> val -> option result_t) : Prop :=
  forall pending h memo v h' memo' v',
    pre n pending h memo -> val_below n v ->
    copy h memo v = Some (h', memo', v') ->
    post n pending h memo h' memo' /\ related memo' v v'.

(** The originals [memo] has no copy of yet. *)
Definition unvisited (n : nat) (memo : memo_t) : nat :=
  length (List.filter (fun l => match memo_get l memo with
                                | Some _ => false
                                | None => true
                                end) (seq 0 n)).

End Store.

(* ===================================================================== *)
(** * Vocabulary of the statements                                        *)
(* ===================================================================== *)

Module Spec.
Import PyStr Re Patterns Py BPFtrace.

(** A JSON object with string keys. *)
Definition record (fields : list (string * value)) : value :=
  PDict (map (fun kv => (PStr (fst kv), snd kv)) fields).

(** ** Script analysis *)

(** The names of the variables the script's assignments declare, in the
    order of the assignments. *)
Definition discovered (script : string) : list string :=
  map (fun t => fst (fst t)) (find_variables script).

(** What the annotation loop leaves in [self.metadata] when it refuses
    no name. *)
Fixpoint scan_metadata (pairs : list (string * string)) (md : metadata_t)
  : metadata_t :=
  match pairs with
  | [] => md
  | (key, val) :: pairs' =>
      if String.eqb key "name"
      then scan_metadata pairs' (mkMeta (Some val) (md_include md))
      else if String.eqb key "include"
      then scan_metadata pairs' (mkMeta (md_name md) (Some (split "," val)))
      else scan_metadata pairs' md
  end.

Definition metadata_of (script : string) : metadata_t :=
  scan_metadata (find_metadata script) (mkMeta None None).

(** The values of the script's [name] annotations. *)
Definition declared_names (script : string) : list string :=
  map snd (List.filter (fun kv => String.eqb (fst kv) "name")
                  (find_metadata script)).

(** The discovered variables the [include] list lets through. *)
Definition not_excluded (md : metadata_t) (vars : list (string * string * string))
  : list string :=
  List.filter (fun var => negb (excluded md var))
              (map (fun t => fst (fst t)) vars).

Definition kept (script : string) : list string :=
  not_excluded (metadata_of script) (find_variables script).

(** The elements of [l] not in [seen], each at its first occurrence. *)
Fixpoint first_occurrences (seen l : list string) : list string :=
  match l with
  | [] => []
  | x :: l' =>
      if mem x seen then first_occurrences seen l'
      else x :: first_occurrences (x :: seen) l'
  end.

Definition print_ref (var : string) : string := "print(" ++ var ++ ");".

(** The clause that prints [names] every second. *)
Definition periodic_clause (names : list string) : string :=
  " interval:s:1 { " ++ join " " (map print_ref names) ++ " }".

(** The script and the declarations [parse_script] ends with when it
    refuses no name. *)
Definition rewritten (script : string) : string :=
  snd (declare_variables (metadata_of script) script).

Definition script_variables (script : string) : var_defs_t :=
  fst (declare_variables (metadata_of script) script).

Definition declarations (script : string) : var_defs_t :=
  declare_printf (metadata_of script) (rewritten script)
                 (fst (declare_variables (metadata_of script) script)).

(** Does [parse_script] declare the console metric? *)
Definition console_declared (script : string) : bool :=
  search printf_re (rewritten script)
  && match md_include (metadata_of script) with
     | None => true
     | Some incl => mem "@printf" incl
     end.

(** A name pattern: a first character in [[a-zA-Z_]], then one or more
    characters of the class [p], up to the end. *)
Definition name_pattern (p : ascii -> bool) : regex :=
  Seq (Bol false)
 (Seq (Class is_alpha_us)
 (Seq (Plus true p)
      (Eol false))).

(** What [name_pattern p] accepts, character by character: after the
    first two characters, characters of [p] up to the end or up to a final
    line feed. *)
Fixpoint name_tail (p : ascii -> bool) (s : string) : bool :=
  match s with
  | EmptyString => true
  | String c s' =>
      (p c && name_tail p s')
      || (chr_eqb c newline && match s' with EmptyString => true | _ => false end)
  end.

Definition name_shape (p : ascii -> bool) (val : string) : bool :=
  match val with
  | String c (String d s) => is_alpha_us c && p d && name_tail p s
  | _ => false
  end.

(** The names [parse_script] accepts: [^[a-zA-Z_]\w+$]. *)
Definition name_ok (val : string) : bool := name_shape is_word val.

(** The pattern the specification gives for names,
    [[a-zA-Z_][A-Za-z0-9_]+], matched against the whole value. *)
Definition spec_name_re : regex := name_pattern is_ascii_word.

Definition spec_name_ok (val : string) : bool := py_match spec_name_re val.

(** Only characters up to U+007F. *)
Definition is_ascii (s : string) : bool :=
  all_chars (fun c => Nat.ltb (code c) 128) s.

(** ** Output records *)

(** The text accumulated for the console metric: [''] before the first
    message. *)
Definition console_text (st : BPFtraceState) : option string :=
  match dget (PStr "@printf") (maps st) with
  | None => Some ""
  | Some (PStr s) => Some s
  | Some _ => None
  end.

(** The range label of a bucket with the given bounds. *)
Definition bound (b : option value) : string :=
  match b with
  | Some v => str v
  | None => "inf"
  end.

Definition label (lo hi : option value) : string :=
  bound lo ++ "-" ++ bound hi.

(** A bucket as the child reports it: an object with a [count] and
    optional [min] and [max]. *)
Definition bucket_label (bucket : pydict) : string :=
  label (dget (PStr "min") bucket) (dget (PStr "max") bucket).

Definition is_bucket (b : value) : Prop :=
  exists d c, b = PDict d /\ dget (PStr "count") d = Some c.

(** The [data] of a [hist] record as the child reports it: metric names
    with their lists of buckets. *)
Definition hist_data_ok (data : pydict) : Prop :=
  List.NoDup (map fst data)
  /\ forall k v, In (k, v) data ->
                 exists name buckets,
                   k = PStr name /\ v = PList buckets
                   /\ Forall is_bucket buckets.

(** The count the buckets give for a label: that of the last bucket
    with this label. *)
Fixpoint label_count (lbl : string) (buckets : list value) : option value :=
  match buckets with
  | [] => None
  | PDict d :: buckets' =>
      match label_count lbl buckets' with
      | Some c => Some c
      | None =>
          if String.eqb (bucket_label d) lbl
          then dget (PStr "count") d else None
      end
  | _ :: buckets' => label_count lbl buckets'
  end.

End Spec.

(* ===================================================================== *)
(** * Sample scripts                                                      *)
(* ===================================================================== *)

Module Samples.
Import PyStr Py Spec Store.

Definition nl : string := String newline "".

Definition quoted (s : string) : string :=
  String dquote (s ++ String dquote "").

(** [{"type":"attached_probes","probes":3}] *)
Definition probes_record : value :=
  record [("type", PStr "attached_probes"); ("probes", PInt 3)].

(** [{"type":"map","data":{"@x":5}}] *)
Definition map_record : value :=
  record [("type", PStr "map"); ("data", record [("@x", PInt 5)])].

(** [{"type":"hist","data":{"@h":[{"min":0,"max":10,"count":2},
    {"max":20,"count":1}]}}] *)
Definition hist_data : pydict :=
  [(PStr "@h",
    PList [record [("min", PInt 0); ("max", PInt 10); ("count", PInt 2)];
           record [("max", PInt 20); ("count", PInt 1)]])].

Definition hist_record : value :=
  record [("type", PStr "hist"); ("data", PDict hist_data)].

(** A running state with a scalar metric and a bucket map. *)
Definition running_state : BPFtraceState :=
  mkState Started (Some 4242%Z) None "Attaching 3 probes..." (PInt 3)
          [(PStr "@x", PInt 5);
           (PStr "@h", record [("0-10", PInt 2); ("inf-20", PInt 1)])].

(** The store that holds [running_state] as the live object, and the
    address of that object. *)
Definition live_store : list cell := fst (alloc_state running_state []).
Definition live_root : nat := snd (alloc_state running_state []).

(** The writer overwrites the live bucket map (the object at 0). *)
Definition overwrite_buckets (h : list cell) : list cell :=
  <[0 := CDict [(VStr "0-10", VInt 99)]]> h.

(** Lines of child output: two records, the empty object, free text. *)
Definition probes_line : string :=
  "{" ++ quoted "type" ++ ": " ++ quoted "attached_probes" ++ ", "
      ++ quoted "probes" ++ ": 3}" ++ nl.

Definition map_line : string :=
  "{" ++ quoted "type" ++ ": " ++ quoted "map" ++ ", "
      ++ quoted "data" ++ ": {" ++ quoted "@x" ++ ": 5}}" ++ nl.

Definition empty_object_line : string := "{}" ++ nl.

Definition text_line : string := "Attaching 3 probes..." ++ nl.

(** [{"type":"printf","msg":msg}] *)
Definition printf_record (msg : string) : value :=
  record [("type", PStr "printf"); ("msg", PStr msg)].

(** A linear histogram. *)
Definition lhist_script : string := "@h = lhist(retval, 0, 100, 10);".

(** A keyed counter and a histogram, the counter assigned twice. *)
Definition two_metrics : string :=
  "// name: probes" ++ nl
  ++ "kprobe:f { @x[pid] = count(); @y = hist(retval); @x[0] = 1; }".

(** The only variable is left out by the [include] list. *)
Definition all_excluded : string :=
  "// include: @y" ++ nl ++ "@x = count();".

(** A name that starts with a digit. *)
Definition bad_name : string :=
  "// name: 1probe" ++ nl ++ "@x = count();".

(** A variable and a [printf]. *)
Definition with_printf : string :=
  "@x = count(); printf(" ++ quoted "hi" ++ ");".

(** The name [a] followed by U+00E9 (e with acute accent). *)
Definition accented_name : string := String "a" (String (ascii_of_nat 233) "").

Definition accented_script : string :=
  "// name: " ++ accented_name ++ nl ++ "@x = 1;".

(** An [include] list written with a space after the comma. *)
Definition spaced_include : string :=
  "// include: @a, @b" ++ nl
  ++ "@a = count(); @b = count(); printf(" ++ quoted "x" ++ ");".

End Samples.

(* ===================================================================== *)
(** * Further vocabulary: records, streams, declarations                  *)
(* ===================================================================== *)

Module Cover.
Import PyStr Re Patterns Py BPFtrace Spec Samples.

(** The state after the first statement of [process_output_obj]. *)
Definition stepped (st : BPFtraceState) : BPFtraceState :=
  match status st with
  | Starting => with_status Started st
  | _ => st
  end.

(** The record types [process_output_obj] has a branch for. *)
Definition known_type (ty : value) : bool :=
  eq_str ty "attached_probes" || eq_str ty "map" || eq_str ty "hist"
  || eq_str ty "printf" || eq_str ty "time".

(** Every key is a string, as in a decoded JSON object. *)
Definition str_keys (m : pydict) : Prop :=
  Forall (fun kv => exists a, fst kv = PStr a) m.

(** The value [m] gives the key [a]: that of its last entry for [a]. *)
Fixpoint last_value (a : string) (m : pydict) : option value :=
  match m with
  | [] => None
  | (k, v) :: m' =>
      match last_value a m' with
      | Some x => Some x
      | None => if key_eqb k (PStr a) then Some v else None
      end
  end.

(** A line [process_output] does not skip. *)
Definition nonblank (line : string) : bool :=
  negb ((match line with EmptyString => true | _ => false end)
        || isspace line).

Fixpoint concat_lines (lines : list string) : string :=
  match lines with
  | [] => EmptyString
  | line :: lines' => line ++ concat_lines lines'
  end.

Fixpoint last_opt {A : Type} (l : list A) : option A :=
  match l with
  | [] => None
  | [x] => Some x
  | _ :: l' => last_opt l'
  end.

(** The descriptor of the last assignment to [var]. *)
Fixpoint last_def (var : string) (vars : list (string * string * string))
  : option BPFtraceVarDef :=
  match vars with
  | [] => None
  | (v, key, func) :: vars' =>
      match last_def var vars' with
      | Some d => Some d
      | None => if String.eqb v var then Some (vardef_of key func) else None
      end
  end.

(** The values of the script's [include] annotations. *)
Definition include_values (script : string) : list string :=
  map snd (List.filter (fun kv => String.eqb (fst kv) "include")
                       (find_metadata script)).

Fixpoint has_comma (s : string) : bool :=
  match s with
  | EmptyString => false
  | String c s' => chr_eqb c "," || has_comma s'
  end.

(** A key and a value as a two-element list, the form [dict.update]
    takes from a sequence. *)
Definition pair_of (kv : string * value) : value :=
  PList [PStr (fst kv); snd kv].

Definition str_entries (good : list (string * value)) : pydict :=
  map (fun kv => (PStr (fst kv), snd kv)) good.

(** A [map] record whose [data] is a list: one pair, then a list of one
    element. *)
Definition map_pairs_line : string :=
  "{" ++ quoted "type" ++ ": " ++ quoted "map" ++ ", "
      ++ quoted "data" ++ ": [[" ++ quoted "@a" ++ ", 1], ["
      ++ quoted "@b" ++ "]]}" ++ nl.

(** A [map] record whose [data] is a string. *)
Definition map_text_line : string :=
  "{" ++ quoted "type" ++ ": " ++ quoted "map" ++ ", "
      ++ quoted "data" ++ ": " ++ quoted "x" ++ "}" ++ nl.

(** A [map] record that stores a number under [@printf]. *)
Definition console_number_record : value :=
  record [("type", PStr "map"); ("data", record [("@printf", PInt 5)])].

(** A [map] record for a metric the state holds and one it does not. *)
Definition map_record_two : value :=
  record [("type", PStr "map");
          ("data", PDict [(PStr "@x", PInt 7); (PStr "@y", PInt 2)])].

(** A record of a type the module does not know. *)
Definition lost_events_record : value :=
  record [("type", PStr "lost_events"); ("data", record [("events", PInt 4)])].

(** The [include] list keeps the console metric only. *)
Definition console_only : string :=
  "// include: @printf" ++ nl
  ++ "@x = count(); printf(" ++ quoted "x" ++ ");".

(** A script variable with the name of the console metric. *)
Definition console_clash : string :=
  "@printf = count(); printf(" ++ quoted "x" ++ ");".

(** A histogram with a key. *)
Definition keyed_hist_script : string :=
  "kprobe:f { @h[comm] = hist(retval); }".

(** The record the child prints for a histogram with a key: under the
    metric name, an object from key to buckets. *)
Definition keyed_hist_record : value :=
  record [("type", PStr "hist");
          ("data",
           record [("@h",
                    record [("bash",
                             PList [record [("min", PInt 0); ("max", PInt 1);
                                            ("count", PInt 2)]])])])].

Definition keyed_hist_line : string :=
  "{" ++ quoted "type" ++ ": " ++ quoted "hist" ++ ", "
      ++ quoted "data" ++ ": {" ++ quoted "@h" ++ ": {" ++ quoted "bash"
      ++ ": [{" ++ quoted "min" ++ ": 0, " ++ quoted "max" ++ ": 1, "
      ++ quoted "count" ++ ": 2}]}}}" ++ nl.

(** The value of the script variable [@printf], as the periodic clause
    of [console_clash] prints it, and a message of its [printf]. *)
Definition console_number_line : string :=
  "{" ++ quoted "type" ++ ": " ++ quoted "map" ++ ", "
      ++ quoted "data" ++ ": {" ++ quoted "@printf" ++ ": 5}}" ++ nl.

Definition printf_line : string :=
  "{" ++ quoted "type" ++ ": " ++ quoted "printf" ++ ", "
      ++ quoted "msg" ++ ": " ++ quoted "x" ++ "}" ++ nl.

(** Two [name] and two [include] annotations. *)
Definition annotated_twice : string :=
  "// name: first" ++ nl ++ "// include: @a" ++ nl
  ++ "// name: second" ++ nl ++ "// include: @b,@c" ++ nl
  ++ "@a = count(); @b = count();".

End Cover.

(* ===================================================================== *)
(** * Properties of the matcher                                           *)
(* ===================================================================== *)

Section MatcherFacts.
Import PyStr Re.
Context {A : Type}.

Lemma mstate_eta st : MState (prev st) (rest st) (caps st) = st.
Proof. destruct st; reflexivity. Qed.

Lemma orelse_some (x y : option A) a :
  orelse x y = Some a -> x = Some a \/ (x = None /\ y = Some a).
Proof. destruct x; simpl; intros H; [left | right]; auto. Qed.

Lemma orelse_none (x y : option A) :
  orelse x y = None -> x = None /\ y = None.
Proof. destruct x; simpl; intros H; [discriminate | auto]. Qed.

Lemma star_bt_sound g p (k : mstate -> option A) s :
  forall pv cs x,
    star_bt g p k pv cs s = Some x ->
    exists st', Matches (Star g p) (MState pv s cs) st' /\ k st' = Some x.
Proof.
  induction s as [|c s IH]; intros pv cs x H; simpl in H.
  - eexists; split; [apply M_Star0 | exact H].
  - destruct (p c) eqn:Hp.
    + assert (Hcases :
        star_bt g p k (Some c) cs s = Some x
        \/ k (MState pv (String c s) cs) = Some x).
      { destruct g; apply orelse_some in H; intuition. }
      destruct Hcases as [Hmore | Hhere].
      * destruct (IH _ _ _ Hmore) as (st' & Hm & Hk).
        exists st'; split; [eapply M_StarS; eauto | exact Hk].
      * eexists; split; [apply M_Star0 | exact Hhere].
    + eexists; split; [apply M_Star0 | exact H].
Qed.

Lemma star_bt_complete g p (k : mstate -> option A) s :
  forall pv cs,
    star_bt g p k pv cs s = None ->
    forall st', Matches (Star g p) (MState pv s cs) st' -> k st' = None.
Proof.
  induction s as [|c s IH]; intros pv cs H st' Hm; simpl in H.
  - inversion Hm; subst. exact H.
  - destruct (p c) eqn:Hp.
    + assert (Hboth :
        star_bt g p k (Some c) cs s = None
        /\ k (MState pv (String c s) cs) = None).
      { destruct g; apply orelse_none in H; intuition. }
      destruct Hboth as [Hmore Hhere].
      inversion Hm; subst; [exact Hhere | eapply IH; eauto].
    + inversion Hm; subst; [exact H | congruence].
Qed.

End MatcherFacts.

Section MatcherSound.
Import PyStr Re.
Context {A : Type}.

(** Whatever [bt] returns comes from a match of [r] that the
    continuation accepted. *)
Lemma bt_sound r :
  forall st (k : mstate -> option A) x,
    bt r st k = Some x ->
    exists st', Matches r st st' /\ k st' = Some x.
Proof.
  induction r as [|p|r1 IH1 r2 IH2|r1 IH1 r2 IH2|g p|n r IH|m|m];
    intros st k x H; simpl in H.
  - exists st; split; [constructor | exact H].
  - destruct st as [pv s cs]; simpl in H.
    destruct s as [|c s]; [discriminate|].
    destruct (p c) eqn:Hp; [|discriminate].
    eexists; split; [apply M_Class; exact Hp | exact H].
  - destruct (IH1 _ _ _ H) as (b & Hm1 & H2).
    destruct (IH2 _ _ _ H2) as (c & Hm2 & Hk).
    exists c; split; [eapply M_Seq; eauto | exact Hk].
  - apply orelse_some in H. destruct H as [H | [_ H]].
    + destruct (IH1 _ _ _ H) as (b & Hm & Hk).
      exists b; split; [apply M_AltL; exact Hm | exact Hk].
    + destruct (IH2 _ _ _ H) as (b & Hm & Hk).
      exists b; split; [apply M_AltR; exact Hm | exact Hk].
  - destruct (star_bt_sound _ _ _ _ _ _ _ H) as (st' & Hm & Hk).
    rewrite mstate_eta in Hm. eauto.
  - destruct (IH _ _ _ H) as (b & Hm & Hk).
    eexists; split; [apply M_Group; exact Hm | exact Hk].
  - destruct (at_bol m st) eqn:Hb; [|discriminate].
    exists st; split; [constructor; exact Hb | exact H].
  - destruct (at_eol m st) eqn:Hb; [|discriminate].
    exists st; split; [constructor; exact Hb | exact H].
Qed.

(** [bt] fails only if the continuation refuses every match of [r]. *)
Lemma bt_complete r :
  forall st (k : mstate -> option A),
    bt r st k = None ->
    forall st', Matches r st st' -> k st' = None.
Proof.
  induction r as [|p|r1 IH1 r2 IH2|r1 IH1 r2 IH2|g p|n r IH|m|m];
    intros st k H st' Hm; inversion Hm; subst; cbn [bt rest prev caps] in H.
  - exact H.
  - rewrite H1 in H. exact H.
  - eapply IH2; [|eassumption]. eapply (IH1 _ _ H). eassumption.
  - apply orelse_none in H. destruct H as [H _]. eapply IH1; eauto.
  - apply orelse_none in H. destruct H as [_ H]. eapply IH2; eauto.
  - eapply star_bt_complete; [exact H|]. rewrite mstate_eta. exact Hm.
  - eapply star_bt_complete; [exact H|]. exact Hm.
  - eapply (IH _ _ H). eassumption.
  - rewrite H1 in H. exact H.
  - rewrite H1 in H. exact H.
Qed.

End MatcherSound.

Section StringFacts.
Import PyStr.

Lemma str_length_app (s t : string) :
  String.length (s ++ t) = String.length s + String.length t.
Proof. induction s as [|c s IH]; simpl; [reflexivity | now rewrite IH]. Qed.

Lemma app_assoc_s (s t u : string) : (s ++ t) ++ u = s ++ (t ++ u).
Proof. induction s as [|c s IH]; simpl; [reflexivity | now rewrite IH]. Qed.

Lemma take_app (s t : string) : take (String.length s) (s ++ t) = s.
Proof.
  unfold take. induction s as [|c s IH]; simpl.
  - destruct t; reflexivity.
  - now rewrite IH.
Qed.

Lemma take_app_diff (s t : string) :
  take (String.length (s ++ t) - String.length t) (s ++ t) = s.
Proof.
  rewrite str_length_app.
  replace (String.length s + String.length t - String.length t)
    with (String.length s) by lia.
  apply take_app.
Qed.

Lemma mem_In x l : mem x l = true <-> In x l.
Proof.
  induction l as [|y l IH]; simpl.
  - split; [discriminate | tauto].
  - rewrite orb_true_iff, IH, String.eqb_eq. tauto.
Qed.

Lemma mem_false_In x l : mem x l = false <-> ~ In x l.
Proof.
  rewrite <- mem_In. destruct (mem x l); split; congruence.
Qed.

End StringFacts.

Section MatchFacts.
Import PyStr Re.

(** A match consumes a prefix of what is left. *)
Lemma Matches_rest r a b :
  Matches r a b -> exists t, rest a = t ++ rest b.
Proof.
  induction 1; simpl.
  - exists ""; reflexivity.
  - exists (String c ""); reflexivity.
  - destruct IHMatches1 as [t1 H1], IHMatches2 as [t2 H2].
    exists (t1 ++ t2). rewrite H1, H2. symmetry; apply app_assoc_s.
  - assumption.
  - assumption.
  - exists ""; reflexivity.
  - destruct IHMatches as [t Ht]. simpl in Ht.
    exists (String c t). simpl. now rewrite Ht.
  - assumption.
  - exists ""; reflexivity.
  - exists ""; reflexivity.
Qed.

Lemma consumed_app a b t : rest a = t ++ rest b -> consumed a b = t.
Proof. intros H. unfold consumed. rewrite H. apply take_app_diff. Qed.

Lemma Matches_Chr c a b :
  Matches (Chr c) a b -> rest a = String c (rest b).
Proof.
  unfold Chr, chr_eqb. inversion 1; subst; simpl.
  f_equal. symmetry. now apply Ascii.eqb_eq.
Qed.

Lemma Matches_Lit s : forall a b,
  Matches (Lit s) a b -> rest a = s ++ rest b.
Proof.
  induction s as [|c s IH]; intros a b H.
  - inversion H; reflexivity.
  - destruct s as [|c' s].
    + apply Matches_Chr in H. exact H.
    + change (Lit (String c (String c' s)))
        with (Seq (Chr c) (Lit (String c' s))) in H.
      inversion H as [| |? ? ? m ? Hc Hl| | | | | | |]; subst.
      apply Matches_Chr in Hc. apply IH in Hl.
      rewrite Hc, Hl. reflexivity.
Qed.

(** Groups the pattern does not contain keep what they had. *)
Lemma Matches_other_group n r a b :
  Matches r a b -> has_group n r = false ->
  get_cap n (caps b) = get_cap n (caps a).
Proof.
  induction 1; simpl; intros Hg; try reflexivity.
  - apply orb_false_iff in Hg. destruct Hg.
    rewrite IHMatches2, IHMatches1; auto.
  - apply orb_false_iff in Hg. destruct Hg. auto.
  - apply orb_false_iff in Hg. destruct Hg. auto.
  - apply IHMatches in Hg. exact Hg.
  - apply orb_false_iff in Hg. destruct Hg as [Hn Hg].
    rewrite Hn. auto.
Qed.

Lemma attempt_sound r adv pv s m :
  attempt r adv pv s = Some m -> Matches r (MState pv s []) m.
Proof.
  unfold attempt. intros H. apply bt_sound in H.
  destruct H as (st' & Hm & Hk).
  destruct (_ && _); [discriminate|]. now inversion Hk; subst.
Qed.

(** Every element of [findall] is a match of the pattern somewhere in
    the subject. *)
Lemma findall_from_sound r s : forall pv skip m,
  In m (findall_from r pv s skip) ->
  exists pv' s', Matches r (MState pv' s' []) m.
Proof.
  induction s as [|c s IH]; intros pv skip m Hin; simpl in Hin.
  - destruct skip; [|contradiction].
    destruct (attempt r false pv "") as [m0|] eqn:H0; [|contradiction].
    destruct (attempt r true pv "") as [m1|] eqn:H1; simpl in Hin.
    + destruct Hin as [<-|[<-|[]]]; eauto using attempt_sound.
    + destruct Hin as [<-|[]]; eauto using attempt_sound.
  - repeat match type of Hin with
           | context [match ?x with _ => _ end] =>
               destruct x eqn:?; simpl in Hin
           end;
      repeat (destruct Hin as [<-|Hin]; [eauto using attempt_sound|]);
      try (eapply IH; exact Hin).
Qed.

Lemma findall_sound r s m :
  In m (findall r s) -> exists pv' s', Matches r (MState pv' s' []) m.
Proof. apply findall_from_sound. Qed.

End MatchFacts.

Section PatternFacts.
Import PyStr Re Patterns.

Lemma Matches_Seq_inv r1 r2 a c :
  Matches (Seq r1 r2) a c -> exists b, Matches r1 a b /\ Matches r2 b c.
Proof. inversion 1; subst; eauto. Qed.

Lemma Matches_Alt_inv r1 r2 a b :
  Matches (Alt r1 r2) a b -> Matches r1 a b \/ Matches r2 a b.
Proof. inversion 1; subst; auto. Qed.

Lemma Matches_Group_inv n r a b :
  Matches (Group n r) a b ->
  exists b0, Matches r a b0 /\ b = set_cap n (consumed a b0) b0.
Proof. inversion 1; subst; eauto. Qed.

Lemma Matches_Eps_inv a b : Matches Eps a b -> b = a.
Proof. inversion 1; reflexivity. Qed.

Ltac seq_inv H :=
  let b := fresh "b" in
  let H1 := fresh "Hl" in
  let H2 := fresh "Hr" in
  apply Matches_Seq_inv in H; destruct H as (b & H1 & H2).

(** What a match of the variables pattern captures: group 1 starts with
    the sigil, group 3 is [count], [hist] or nothing. *)
Lemma variables_re_shape pv s m :
  Matches variables_re (MState pv s []) m ->
  (exists t, group 1 m = String "@" t)
  /\ (group 3 m = "" \/ group 3 m = "count" \/ group 3 m = "hist").
Proof.
  unfold variables_re, Opt. intros H.
  seq_inv H. rename b into a1, Hl into Hg1, Hr into H.
  seq_inv H. rename b into a2, Hl into Hopt2, Hr into H.
  seq_inv H. rename b into a3, Hl into Hs1, Hr into H.
  seq_inv H. rename b into a4, Hl into Heq, Hr into H.
  seq_inv H. rename b into a5, Hl into Hs2, Hr into Hopt3.
  assert (Hrest : Matches
            (Seq (Alt (Group 2 (Seq (Chr "[")
                                    (Seq (Plus false is_dot) (Chr "]")))) Eps)
                 (Seq (Star true is_space)
                      (Seq (Chr "=") (Star true is_space)))) a1 a5)
    by (repeat (eapply M_Seq; [eassumption|]); eassumption).
  apply Matches_Group_inv in Hg1. destruct Hg1 as (b1 & Hb1 & ->).
  split.
  - (* group 1 *)
    assert (Hcap : get_cap 1 (caps m)
                   = Some (consumed (MState pv s []) b1)).
    { assert (H15 : get_cap 1 (caps a5)
                    = Some (consumed (MState pv s []) b1))
        by (rewrite (Matches_other_group 1 _ _ _ Hrest); reflexivity).
      apply Matches_Alt_inv in Hopt3. destruct Hopt3 as [H3 | H3].
      - apply Matches_Group_inv in H3. destruct H3 as (d & Hd & ->).
        simpl. rewrite (Matches_other_group 1 _ _ _ Hd) by reflexivity.
        exact H15.
      - apply Matches_Eps_inv in H3. subst m. exact H15. }
    unfold group. rewrite Hcap.
    seq_inv Hb1. apply Matches_Chr in Hl.
    destruct (Matches_rest _ _ _ Hr) as [t Ht].
    exists t. apply consumed_app. rewrite Hl, Ht. reflexivity.
  - (* group 3 *)
    assert (H35 : get_cap 3 (caps a5) = None).
    { rewrite (Matches_other_group 3 _ _ _ Hrest) by reflexivity.
      simpl. apply (Matches_other_group 3) in Hb1; [|reflexivity].
      rewrite Hb1. reflexivity. }
    apply Matches_Alt_inv in Hopt3. destruct Hopt3 as [H3 | H3].
    + apply Matches_Group_inv in H3. destruct H3 as (d & Hd & ->).
      unfold group. simpl.
      apply Matches_Alt_inv in Hd. destruct Hd as [Hd | Hd];
        apply Matches_Lit in Hd; apply consumed_app in Hd; rewrite Hd; auto.
    + apply Matches_Eps_inv in H3. subst m.
      unfold group. rewrite H35. auto.
Qed.

End PatternFacts.

(* ===================================================================== *)
(** * Properties of dictionaries                                          *)
(* ===================================================================== *)

Section DictFacts.
Context {K V : Type} (eqb : K -> K -> bool).

Lemma dict_get_set_same k (v : V) d :
  eqb k k = true -> Dict.get eqb k (Dict.set eqb k v d) = Some v.
Proof.
  intros Hk. induction d as [|[k' v'] d IH]; simpl.
  - now rewrite Hk.
  - destruct (eqb k' k) eqn:E; simpl; rewrite E; auto.
Qed.

Lemma dict_get_set_other k k' (v : V) d :
  eqb k k = true ->
  (forall x, eqb x k = true -> eqb x k' = false) ->
  Dict.get eqb k' (Dict.set eqb k v d) = Dict.get eqb k' d.
Proof.
  intros Hk Hne. induction d as [|[k0 v0] d IH]; simpl.
  - now rewrite (Hne k Hk).
  - destruct (eqb k0 k) eqn:E; simpl.
    + now rewrite (Hne k0 E).
    + destruct (eqb k0 k'); auto.
Qed.

Hypothesis eqb_spec : forall a b, eqb a b = true <-> a = b.

Lemma dict_keys_set_old k (v : V) d :
  In k (Dict.keys d) -> Dict.keys (Dict.set eqb k v d) = Dict.keys d.
Proof.
  unfold Dict.keys. induction d as [|[k' v'] d IH]; simpl; [tauto|].
  intros Hin. destruct (eqb k' k) eqn:E; simpl; [reflexivity|].
  destruct Hin as [Heq | Hin].
  - apply eqb_spec in Heq. congruence.
  - now rewrite IH.
Qed.

Lemma dict_keys_set_new k (v : V) d :
  ~ In k (Dict.keys d) ->
  Dict.keys (Dict.set eqb k v d) = (Dict.keys d ++ [k])%list.
Proof.
  unfold Dict.keys. induction d as [|[k' v'] d IH]; simpl; [reflexivity|].
  intros Hin. destruct (eqb k' k) eqn:E; simpl.
  - apply eqb_spec in E. tauto.
  - rewrite IH; tauto.
Qed.

Lemma dict_keys_set_In k (v : V) d x :
  In x (Dict.keys (Dict.set eqb k v d)) <-> x = k \/ In x (Dict.keys d).
Proof.
  unfold Dict.keys. induction d as [|[k' v'] d IH]; simpl.
  - intuition.
  - destruct (eqb k' k) eqn:E; simpl.
    + apply eqb_spec in E. subst. intuition.
    + rewrite IH. intuition.
Qed.

End DictFacts.

(* ===================================================================== *)
(** * Properties of [parse_script]                                        *)
(* ===================================================================== *)

Section ScriptFacts.
Import PyStr Re Patterns Py BPFtrace Spec.

Lemma declared_names_In script v :
  In v (declared_names script) <-> In ("name", v) (find_metadata script).
Proof.
  unfold declared_names. rewrite in_map_iff. split.
  - intros ([k v'] & Hv & Hin). simpl in Hv. subst v'.
    apply filter_In in Hin. destruct Hin as [Hin Hk]. simpl in Hk.
    apply String.eqb_eq in Hk. now subst.
  - intros Hin. exists ("name", v). split; [reflexivity|].
    apply filter_In. split; [assumption | reflexivity].
Qed.

(** The annotation loop either refuses a name or ends like
    [scan_metadata]. *)
Lemma read_metadata_spec pairs : forall md,
  (read_metadata pairs md = Ok (scan_metadata pairs md)
   /\ forall v, In ("name", v) pairs -> py_match name_re v = true)
  \/ (exists v, In ("name", v) pairs /\ py_match name_re v = false
                /\ read_metadata pairs md = Err (invalid_name v)).
Proof.
  induction pairs as [|[key val] pairs IH]; intros md; simpl.
  - left. split; [reflexivity | tauto].
  - destruct (String.eqb key "name") eqn:Hk.
    + apply String.eqb_eq in Hk. subst key.
      destruct (py_match name_re val) eqn:Hv.
      * destruct (IH (mkMeta (Some val) (md_include md)))
          as [[H1 H2] | (v & H1 & H2 & H3)].
        -- left. split; [exact H1|].
           intros v [Heq | Hin]; [congruence | auto].
        -- right. exists v. auto.
      * right. exists val. auto.
    + assert (Hne : forall v, (key, val) = ("name", v) -> False).
      { intros v Heq. inversion Heq. subst. discriminate. }
      destruct (String.eqb key "include").
      * destruct (IH (mkMeta (md_name md) (Some (split "," val))))
          as [[H1 H2] | (v & H1 & H2 & H3)].
        -- left. split; [exact H1|].
           intros v [Heq | Hin]; [destruct (Hne _ Heq) | auto].
        -- right. exists v. auto.
      * destruct (IH md) as [[H1 H2] | (v & H1 & H2 & H3)].
        -- left. split; [exact H1|].
           intros v [Heq | Hin]; [destruct (Hne _ Heq) | auto].
        -- right. exists v. auto.
Qed.

Lemma parse_script_valid script :
  (forall v, In v (declared_names script) -> py_match name_re v = true) ->
  parse_script script =
  match declarations script with
  | [] => Err nothing_found
  | _ => Ok (metadata_of script, declarations script, rewritten script)
  end.
Proof.
  intros Hv. unfold parse_script.
  destruct (read_metadata_spec (find_metadata script) (mkMeta None None))
    as [[H1 _] | (v & Hin & Hbad & _)].
  - rewrite H1. fold (metadata_of script).
    unfold declarations, rewritten.
    destruct (declare_variables (metadata_of script) script) as [defs s'].
    reflexivity.
  - apply declared_names_In in Hin. rewrite (Hv _ Hin) in Hbad. discriminate.
Qed.

Lemma parse_script_invalid script v :
  In v (declared_names script) -> py_match name_re v = false ->
  exists w, parse_script script = Err (invalid_name w).
Proof.
  intros Hin Hbad. unfold parse_script.
  destruct (read_metadata_spec (find_metadata script) (mkMeta None None))
    as [[_ H2] | (w & _ & _ & H3)].
  - apply declared_names_In in Hin. rewrite (H2 _ Hin) in Hbad. discriminate.
  - exists w. now rewrite H3.
Qed.

(** The exception is the one for the first name the loop refuses. *)
Lemma parse_script_refused script :
  (exists v, In v (declared_names script) /\ py_match name_re v = false) ->
  exists w, In w (declared_names script) /\ py_match name_re w = false
            /\ parse_script script = Err (invalid_name w).
Proof.
  intros (v & Hin & Hbad). unfold parse_script.
  destruct (read_metadata_spec (find_metadata script) (mkMeta None None))
    as [[_ H2] | (w & Hw & Hwbad & H3)].
  - apply declared_names_In in Hin. rewrite (H2 _ Hin) in Hbad. discriminate.
  - exists w. split; [now apply declared_names_In|].
    split; [exact Hwbad | now rewrite H3].
Qed.

End ScriptFacts.

Section DeclareFacts.
Import PyStr Re Patterns Py BPFtrace Spec.

Lemma first_occurrences_ext l : forall s1 s2,
  (forall x, In x s1 <-> In x s2) ->
  first_occurrences s1 l = first_occurrences s2 l.
Proof.
  induction l as [|x l IH]; intros s1 s2 Hs; simpl; [reflexivity|].
  assert (Hm : mem x s1 = mem x s2).
  { destruct (mem x s1) eqn:E1, (mem x s2) eqn:E2; try reflexivity.
    - apply mem_In, Hs, mem_In in E1. congruence.
    - apply mem_In, Hs, mem_In in E2. congruence. }
  rewrite Hm. destruct (mem x s2).
  - apply IH, Hs.
  - f_equal. apply IH. intros y. simpl. rewrite Hs. tauto.
Qed.

Lemma first_occurrences_In l : forall seen x,
  In x (first_occurrences seen l) <-> In x l /\ ~ In x seen.
Proof.
  induction l as [|y l IH]; intros seen x; simpl; [tauto|].
  destruct (mem y seen) eqn:E.
  - apply mem_In in E. rewrite IH. split; [tauto|].
    intros [[-> | H] Hn]; tauto.
  - apply mem_false_In in E. simpl. rewrite IH. simpl.
    destruct (string_dec y x) as [-> | Hne]; tauto.
Qed.

Lemma first_occurrences_nil_In l x :
  In x (first_occurrences [] l) <-> In x l.
Proof. rewrite first_occurrences_In. simpl. tauto. Qed.

Lemma first_occurrences_NoDup l : forall seen,
  List.NoDup (first_occurrences seen l).
Proof.
  induction l as [|y l IH]; intros seen; simpl; [apply List.NoDup_nil|].
  destruct (mem y seen); [apply IH|].
  apply List.NoDup_cons; [|apply IH].
  rewrite first_occurrences_In. simpl. tauto.
Qed.

(** The keys the declaration loop leaves: those it started with, then
    the variables let through, each where it first occurs. *)
Lemma declare_keys md vars : forall acc,
  Dict.keys (declare md vars acc) =
  (Dict.keys acc
   ++ first_occurrences (Dict.keys acc) (not_excluded md vars))%list.
Proof.
  unfold not_excluded.
  induction vars as [|[[var key] func] vars IH]; intros acc; simpl.
  - now rewrite app_nil_r.
  - destruct (excluded md var); simpl; [apply IH|].
    rewrite IH. destruct (mem var (Dict.keys acc)) eqn:E.
    + apply mem_In in E.
      rewrite (dict_keys_set_old String.eqb String.eqb_eq) by assumption.
      reflexivity.
    + apply mem_false_In in E.
      rewrite (dict_keys_set_new String.eqb String.eqb_eq) by assumption.
      rewrite <- app_assoc. simpl. do 2 f_equal.
      apply first_occurrences_ext. intros x.
      rewrite in_app_iff. simpl. tauto.
Qed.

End DeclareFacts.

Section NameFacts.
Import PyStr Re Patterns Py BPFtrace Spec.
Variable p : ascii -> bool.

Lemma Matches_Star_run g a b :
  Matches (Star g p) a b ->
  exists t, rest a = t ++ rest b /\ all_chars p t = true.
Proof.
  remember (Star g p) as r eqn:Hr. induction 1; inversion Hr; subst.
  - exists "". auto.
  - destruct (IHMatches eq_refl) as (t & Ht & Hall). simpl in Ht.
    exists (String c t). simpl. rewrite Ht, H, Hall. auto.
Qed.

Lemma name_tail_run t : forall e,
  all_chars p t = true ->
  (e = "" \/ e = String newline "") ->
  name_tail p (t ++ e) = true.
Proof.
  induction t as [|c t IH]; intros e Hall He; simpl in *.
  - destruct He as [-> | ->]; [reflexivity|].
    simpl. destruct (p newline); reflexivity.
  - apply andb_true_iff in Hall. destruct Hall as [Hc Hall].
    rewrite Hc, (IH e Hall He). reflexivity.
Qed.

Lemma at_eol_false_end m :
  at_eol false m = true -> rest m = "" \/ rest m = String newline "".
Proof.
  unfold at_eol. destruct (rest m) as [|c [|d s]]; simpl; auto.
  - intros H. apply Ascii.eqb_eq in H. subst. auto.
  - discriminate.
Qed.

Lemma name_tail_match s : forall pv cs,
  name_tail p s = true ->
  exists b, Matches (Star true p) (MState pv s cs) b
            /\ at_eol false b = true.
Proof.
  induction s as [|c s IH]; intros pv cs H; simpl in H.
  - eexists; split; [apply M_Star0 | reflexivity].
  - apply orb_true_iff in H. destruct H as [H | H].
    + apply andb_true_iff in H. destruct H as [Hc Hs].
      destruct (IH (Some c) cs Hs) as (b & Hm & He).
      exists b. split; [apply M_StarS; assumption | exact He].
    + apply andb_true_iff in H. destruct H as [Hc Hs].
      destruct s; [|discriminate].
      eexists; split; [apply M_Star0 | exact Hc].
Qed.

(** [re.match] with a name pattern decides [name_shape]. *)
Lemma name_pattern_shape val :
  py_match (name_pattern p) val = name_shape p val.
Proof.
  unfold py_match.
  destruct (attempt (name_pattern p) false None val) as [m|] eqn:Hatt.
  - symmetry. apply attempt_sound in Hatt.
    unfold name_pattern, Plus in Hatt.
    apply Matches_Seq_inv in Hatt. destruct Hatt as (a0 & Hbol & Hatt).
    inversion Hbol; subst. clear Hbol.
    apply Matches_Seq_inv in Hatt. destruct Hatt as (a1 & Hfirst & Hatt).
    inversion Hfirst as [|? ? c s1 ? Hc| | | | | | | |]; subst. clear Hfirst.
    apply Matches_Seq_inv in Hatt. destruct Hatt as (a3 & Hplus & Heol).
    apply Matches_Seq_inv in Hplus. destruct Hplus as (a2 & Hsecond & Hrun).
    inversion Hsecond as [|? ? d s2 ? Hd| | | | | | | |]; subst. clear Hsecond.
    apply Matches_Star_run in Hrun. destruct Hrun as (t & Ht & Hall).
    simpl in Ht. subst.
    inversion Heol as [| | | | | | | | |? ? He]; subst. simpl.
    rewrite Hc, Hd. simpl.
    apply name_tail_run; [assumption | now apply at_eol_false_end].
  - destruct (name_shape p val) eqn:Hok; [|reflexivity]. exfalso.
    unfold name_shape in Hok. destruct val as [|c [|d s]]; try discriminate.
    apply andb_true_iff in Hok. destruct Hok as [Hok Htail].
    apply andb_true_iff in Hok. destruct Hok as [Hc Hd].
    destruct (name_tail_match s (Some d) [] Htail) as (b & Hm & He).
    unfold attempt in Hatt.
    assert (Hname : Matches (name_pattern p)
                            (MState None (String c (String d s)) []) b).
    { unfold name_pattern, Plus.
      eapply M_Seq; [apply M_Bol; reflexivity|].
      eapply M_Seq; [apply M_Class; exact Hc|].
      eapply M_Seq; [|apply M_Eol; exact He].
      eapply M_Seq; [apply M_Class; exact Hd | exact Hm]. }
    pose proof (bt_complete _ _ _ Hatt _ Hname) as Hk.
    simpl in Hk. discriminate.
Qed.

End NameFacts.

Section NameClasses.
Import PyStr Re Patterns Py BPFtrace Spec.

(** [re.match(r'^[a-zA-Z_]\w+$', val)] decides [name_ok]. *)
Lemma name_re_ok val : py_match name_re val = name_ok val.
Proof. apply (name_pattern_shape is_word). Qed.

Lemma spec_name_ok_shape val :
  spec_name_ok val = name_shape is_ascii_word val.
Proof. apply (name_pattern_shape is_ascii_word). Qed.

Lemma is_word_ascii c :
  Nat.ltb (code c) 128 = true -> is_word c = is_ascii_word c.
Proof.
  destruct c as [b0 b1 b2 b3 b4 b5 b6 b7].
  destruct b7; [vm_compute; destruct b0, b1, b2, b3, b4, b5, b6; discriminate|].
  intros _. destruct b0, b1, b2, b3, b4, b5, b6; reflexivity.
Qed.

Lemma name_tail_ascii s :
  is_ascii s = true -> name_tail is_word s = name_tail is_ascii_word s.
Proof.
  unfold is_ascii. induction s as [|c s IH]; simpl; [reflexivity|].
  intros H. apply andb_true_iff in H. destruct H as [Hc Hs].
  now rewrite (is_word_ascii c Hc), (IH Hs).
Qed.

(** On a value made of ASCII characters, the pattern of the code and the
    pattern of the specification accept the same names. *)
Lemma name_ok_ascii val :
  is_ascii val = true -> name_ok val = spec_name_ok val.
Proof.
  rewrite spec_name_ok_shape. unfold name_ok, name_shape, is_ascii.
  destruct val as [|c [|d s]]; try reflexivity. simpl.
  intros H. apply andb_true_iff in H. destruct H as [_ H].
  apply andb_true_iff in H. destruct H as [Hd Hs].
  now rewrite (is_word_ascii d Hd), (name_tail_ascii s Hs).
Qed.

End NameClasses.

Section AnalysisFacts.
Import PyStr Re Patterns Py BPFtrace Spec.

Lemma parse_script_ok_inv script md defs script' :
  parse_script script = Ok (md, defs, script') ->
  md = metadata_of script /\ defs = declarations script
  /\ script' = rewritten script
  /\ forall v, In v (declared_names script) -> name_ok v = true.
Proof.
  intros H.
  assert (Hv : forall v, In v (declared_names script) ->
                         py_match name_re v = true).
  { intros v Hin. destruct (py_match name_re v) eqn:E; [reflexivity|].
    destruct (parse_script_invalid _ _ Hin E) as [w Hw]. congruence. }
  rewrite (parse_script_valid _ Hv) in H.
  destruct (declarations script) as [|d0 l0] eqn:Hd; [discriminate|].
  inversion H; subst. repeat split; auto.
  intros w Hin. rewrite <- name_re_ok. auto.
Qed.

Lemma script_variables_keys script :
  Dict.keys (script_variables script) = first_occurrences [] (kept script).
Proof.
  unfold script_variables, kept, declare_variables.
  destruct (find_variables script) as [|t vars] eqn:Hf; [reflexivity|].
  cbv beta iota. unfold fst at 1. rewrite declare_keys. reflexivity.
Qed.

Lemma rewritten_clause script :
  find_variables script <> [] ->
  rewritten script
  = script ++ periodic_clause (first_occurrences [] (kept script)).
Proof.
  intros Hne. rewrite <- script_variables_keys.
  unfold rewritten, script_variables, declare_variables.
  destruct (find_variables script); [congruence | reflexivity].
Qed.

Lemma kept_In script var :
  In var (kept script)
  <-> In var (discovered script)
      /\ excluded (metadata_of script) var = false.
Proof.
  unfold kept, not_excluded, discovered. rewrite filter_In.
  rewrite negb_true_iff. tauto.
Qed.

Lemma declarations_keys script x :
  In x (Dict.keys (declarations script))
  <-> In x (kept script) \/ (x = "@printf" /\ console_declared script = true).
Proof.
  unfold declarations. fold (script_variables script).
  rewrite <- (first_occurrences_nil_In (kept script) x).
  rewrite <- script_variables_keys.
  unfold declare_printf, console_declared.
  destruct (search printf_re (rewritten script) && _).
  - rewrite (dict_keys_set_In String.eqb String.eqb_eq). simpl. tauto.
  - split; [tauto|]. intros [H | [_ H]]; [assumption | discriminate].
Qed.

(** The order of the declarations: the variables let through, then the
    console metric when it is declared and is not one of them. *)
Lemma declarations_keys_order script :
  Dict.keys (declarations script)
  = (first_occurrences [] (kept script)
     ++ (if console_declared script
            && negb (mem "@printf" (first_occurrences [] (kept script)))
         then ["@printf"] else []))%list.
Proof.
  unfold declarations. fold (script_variables script).
  rewrite <- script_variables_keys.
  unfold declare_printf, console_declared.
  destruct (search printf_re (rewritten script) && _); simpl;
    [|now rewrite app_nil_r].
  destruct (mem "@printf" (Dict.keys (script_variables script))) eqn:E; simpl.
  - rewrite (dict_keys_set_old String.eqb String.eqb_eq)
      by (now apply mem_In).
    now rewrite app_nil_r.
  - rewrite (dict_keys_set_new String.eqb String.eqb_eq)
      by (now apply mem_false_In).
    reflexivity.
Qed.

Lemma declarations_nil script :
  declarations script = []
  <-> kept script = [] /\ console_declared script = false.
Proof.
  split.
  - intros H. split.
    + destruct (kept script) as [|x l] eqn:Hk; [reflexivity|].
      assert (Hin : In x (Dict.keys (declarations script)))
        by (apply declarations_keys; left; rewrite Hk; left; reflexivity).
      rewrite H in Hin. destruct Hin.
    + destruct (console_declared script) eqn:Hc; [|reflexivity].
      assert (Hin : In "@printf" (Dict.keys (declarations script)))
        by (apply declarations_keys; auto).
      rewrite H in Hin. destruct Hin.
  - intros [Hk Hc].
    destruct (declarations script) as [|[x d] l] eqn:Hd; [reflexivity|].
    assert (Hin : In x (Dict.keys (declarations script)))
      by (rewrite Hd; left; reflexivity).
    apply declarations_keys in Hin. rewrite Hk, Hc in Hin.
    destruct Hin as [[] | [_ Hin]]. discriminate.
Qed.

Lemma scan_metadata_include pairs : forall md incl,
  md_include (scan_metadata pairs md) = Some incl ->
  md_include md = Some incl
  \/ exists val, In ("include", val) pairs /\ incl = split "," val.
Proof.
  induction pairs as [|[key val] pairs IH]; intros md incl H; simpl in H.
  - auto.
  - destruct (String.eqb key "name").
    + apply IH in H. simpl in H. destruct H as [H | (v & Hin & Hv)];
        [auto | right; exists v; simpl; auto].
    + destruct (String.eqb key "include") eqn:Hk.
      * apply String.eqb_eq in Hk. subst key.
        apply IH in H. simpl in H. destruct H as [H | (v & Hin & Hv)].
        -- right. exists val. inversion H. simpl. auto.
        -- right. exists v. simpl. auto.
      * apply IH in H. destruct H as [H | (v & Hin & Hv)];
          [auto | right; exists v; simpl; auto].
Qed.

(** Every discovered variable starts with the sigil, and the function
    captured with it is [count], [hist] or nothing. *)
Lemma find_variables_shape script var key func :
  In (var, key, func) (find_variables script) ->
  (exists t, var = String "@" t)
  /\ (func = "" \/ func = "count" \/ func = "hist").
Proof.
  unfold find_variables. rewrite in_map_iff.
  intros (m & Heq & Hin). inversion Heq; subst.
  apply findall_sound in Hin. destruct Hin as (pv & s & Hm).
  eapply variables_re_shape; eassumption.
Qed.

Lemma discovered_sigil script var :
  In var (discovered script) -> exists t, var = String "@" t.
Proof.
  unfold discovered. rewrite in_map_iff.
  intros ([[v k] f] & Heq & Hin). simpl in Heq. subst v.
  eapply find_variables_shape; eassumption.
Qed.

End AnalysisFacts.

(* ===================================================================== *)
(** * Script analysis: the statements                                     *)
(* ===================================================================== *)

Section AnalysisStatements.
Import PyStr Re Patterns Py BPFtrace Spec Samples Cover.

(** C1, the divergence. The declaration loop gives [hist] and [lhist]
    the non-scalar COUNTER descriptor, but the variables pattern only
    captures [count] or [hist]: a script that assigns [lhist(...)] gets
    the default descriptor, scalar with INSTANT semantics. *)
Theorem C1_lhist_declared_scalar_instant :
  parse_script lhist_script
  = Ok (mkMeta None None,
        [("@h", mkVarDef true PM_SEM_INSTANT PM_TYPE_U64)],
        lhist_script ++ " interval:s:1 { print(@h); }")
  /\ find_variables lhist_script = [("@h", "", "")]
  /\ vardef_of "" "hist" = mkVarDef false PM_SEM_COUNTER PM_TYPE_U64
  /\ vardef_of "" "lhist" = mkVarDef false PM_SEM_COUNTER PM_TYPE_U64.
Proof. split; [|split; [|split]]; vm_compute; reflexivity. Qed.

(** With [hist] the declaration is non-scalar with COUNTER semantics. *)
Example hist_declared_non_scalar_counter :
  parse_script "@h = hist(retval);"
  = Ok (mkMeta None None,
        [("@h", mkVarDef false PM_SEM_COUNTER PM_TYPE_U64)],
        "@h = hist(retval); interval:s:1 { print(@h); }").
Proof. vm_compute. reflexivity. Qed.

(** The [lhist] branch of the declaration loop is never taken. *)
Lemma find_variables_never_lhist script var key func :
  In (var, key, func) (find_variables script) -> func <> "lhist".
Proof.
  intros Hin. apply find_variables_shape in Hin.
  destruct Hin as [_ [-> | [-> | ->]]]; discriminate.
Qed.

(** With a histogram function the descriptor is non-scalar with COUNTER
    semantics, whatever the key. *)
Lemma vardef_of_hist key func :
  func = "hist" \/ func = "lhist" ->
  vardef_of key func = mkVarDef false PM_SEM_COUNTER PM_TYPE_U64.
Proof. intros [-> | ->]; destruct key; reflexivity. Qed.

(** C3, as stated, fails: the script below contains a declaration the
    pattern recognizes ([@x = count()]), yet analysis produces no
    declaration set at all, because [include] leaves the variable out. *)
Lemma C3_counterexample :
  find_variables all_excluded = [("@x", "", "count")]
  /\ parse_script all_excluded = Err nothing_found
  /\ ~ exists md defs script',
         parse_script all_excluded = Ok (md, defs, script').
Proof.
  assert (H : parse_script all_excluded = Err nothing_found)
    by (vm_compute; reflexivity).
  split; [vm_compute; reflexivity | split; [exact H |]].
  intros (md & defs & s' & Hok). rewrite H in Hok. discriminate.
Qed.

(** Analysis also produces nothing when a name annotation is refused. *)
Lemma C3_refused_name :
  discovered bad_name = ["@x"]
  /\ parse_script bad_name = Err (invalid_name "1probe").
Proof. split; vm_compute; reflexivity. Qed.

(** Here the console metric is declared after the variable and the
    clause does not print it. *)
Lemma C3_console_not_printed :
  parse_script with_printf
  = Ok (mkMeta None None,
        [("@x", mkVarDef true PM_SEM_COUNTER PM_TYPE_U64);
         ("@printf", mkVarDef true PM_SEM_INSTANT PM_TYPE_STRING)],
        with_printf ++ " interval:s:1 { print(@x); }").
Proof. vm_compute; reflexivity. Qed.

(** A script variable may itself be named [@printf]: then the clause
    prints it, and the one declaration under that name is the console
    descriptor. *)
Lemma C3_console_variable_printed :
  parse_script console_clash
  = Ok (mkMeta None None, [("@printf", printf_def)],
        console_clash ++ " interval:s:1 { print(@printf); }").
Proof. vm_compute; reflexivity. Qed.

(** C3, amended. When no name annotation is refused and [include] lets
    at least one discovered variable through, analysis succeeds with a
    non-empty declaration set, and the script it returns is the input
    followed by the one-second clause whose print statements name the
    variables let through, each once, in the order of their first
    assignment. The declared metrics are these variables, in that order,
    followed by the console metric [@printf] when it is declared (the
    script calls [printf] and [include], if there is one, lists it) and
    none of the variables has that name; the clause then has no print
    statement for it. *)
Theorem C3_periodic_clause script :
  (forall v, In v (declared_names script) -> name_ok v = true) ->
  kept script <> [] ->
  let names := first_occurrences [] (kept script) in
  exists defs,
    parse_script script
    = Ok (metadata_of script, defs, script ++ periodic_clause names)
    /\ defs <> []
    /\ List.NoDup names
    /\ (forall v, In v names <-> In v (kept script))
    /\ (forall v, In v names -> In v (Dict.keys defs))
    /\ Dict.keys defs
       = (names ++ (if console_declared script && negb (mem "@printf" names)
                    then ["@printf"] else []))%list.
Proof.
  intros Hnames Hkept names. subst names.
  assert (Hvars : find_variables script <> []).
  { intros Hf. apply Hkept. unfold kept, not_excluded. now rewrite Hf. }
  assert (Hdecl : declarations script <> []).
  { intros Hd. apply declarations_nil in Hd. tauto. }
  exists (declarations script).
  split; [|split; [|split; [|split; [|split]]]].
  - rewrite parse_script_valid.
    + rewrite <- (rewritten_clause _ Hvars).
      destruct (declarations script); [congruence | reflexivity].
    + intros v Hin. rewrite name_re_ok. auto.
  - exact Hdecl.
  - apply first_occurrences_NoDup.
  - intros v. apply first_occurrences_nil_In.
  - intros v Hin. apply declarations_keys. left.
    now apply first_occurrences_nil_In.
  - apply declarations_keys_order.
Qed.

Lemma C3_witness :
  (forall v, In v (declared_names two_metrics) -> name_ok v = true)
  /\ kept two_metrics <> []
  /\ exists defs,
       parse_script two_metrics
       = Ok (metadata_of two_metrics, defs,
             two_metrics ++ " interval:s:1 { print(@x); print(@y); }")
       /\ defs <> []
       /\ Dict.keys defs = ["@x"; "@y"].
Proof.
  assert (H1 : forall v, In v (declared_names two_metrics) -> name_ok v = true).
  { intros v Hin. vm_compute in Hin. destruct Hin as [<- | []]. reflexivity. }
  assert (H2 : kept two_metrics <> []) by (vm_compute; discriminate).
  split; [exact H1 | split; [exact H2 |]].
  destruct (C3_periodic_clause two_metrics H1 H2)
    as (defs & Hp & Hne & _ & _ & _ & Hkeys).
  exists defs. split; [|split; [exact Hne|]].
  - rewrite Hp. vm_compute. reflexivity.
  - rewrite Hkeys. vm_compute. reflexivity.
Defined.

End AnalysisStatements.

Section AnalysisFailureStatements.
Import PyStr Re Patterns Py BPFtrace Spec Samples.

(** C8, as stated, fails: the script below declares the name [a]
    followed by U+00E9, which does not match [[a-zA-Z_][A-Za-z0-9_]+],
    and declares a variable; analysis accepts it. *)
Lemma C8_counterexample :
  declared_names accented_script = [accented_name]
  /\ spec_name_ok accented_name = false
  /\ declarations accented_script <> []
  /\ parse_script accented_script
     = Ok (mkMeta (Some accented_name) None,
           [("@x", mkVarDef true PM_SEM_INSTANT PM_TYPE_U64)],
           accented_script ++ " interval:s:1 { print(@x); }").
Proof.
  split; [|split; [|split]]; try (vm_compute; reflexivity).
  vm_compute. discriminate.
Qed.

(** C8, amended, for scripts over the characters U+0000 to U+00FF: the
    name pattern is [^[a-zA-Z_]\w+$] with the [\w] of a [str] pattern,
    which beyond [[A-Za-z0-9_]] accepts the letters and numeric
    characters of U+0080 to U+00FF ([name_ok]). Analysis fails exactly
    when a declared name is not [name_ok] or the declaration set is
    empty, which is when [include] lets no discovered variable through
    and the console metric is not declared. What it raises is always a
    [BPFtraceError]: the one with the invalid-name message for a refused
    name, the one with the nothing-found message for an empty declaration
    set. Otherwise it returns the metadata, the declarations and the
    rewritten script. *)
Theorem C8_failure_cases script :
  ((exists e, parse_script script = Err e)
   <-> (exists v, In v (declared_names script) /\ name_ok v = false)
       \/ declarations script = [])
  /\ (forall e, parse_script script = Err e ->
        (exists v, In v (declared_names script) /\ name_ok v = false
           /\ e = BPFtraceError
                   ("invalid value '" ++ v
                    ++ "' for script name: must contain only alphanumeric characters and start with a letter"))
        \/ (declarations script = []
            /\ e = BPFtraceError
                     "no bpftrace variables or printf statements found, please include at least one variable or print statement in your script"))
  /\ (declarations script = []
      <-> kept script = [] /\ console_declared script = false)
  /\ ((exists e, parse_script script = Err e)
      \/ parse_script script
         = Ok (metadata_of script, declarations script, rewritten script)).
Proof.
  assert (Hcases :
    (exists v, In v (declared_names script) /\ name_ok v = false)
    \/ (forall v, In v (declared_names script) -> py_match name_re v = true)).
  { destruct (forallb name_ok (declared_names script)) eqn:E.
    - right. intros v Hin. rewrite name_re_ok.
      rewrite forallb_forall in E. auto.
    - left. apply not_true_iff_false in E.
      destruct (existsb (fun v => negb (name_ok v)) (declared_names script)) eqn:X.
      + apply existsb_exists in X. destruct X as (v & Hin & Hv).
        exists v. split; [exact Hin | now apply negb_true_iff].
      + exfalso. apply E. apply forallb_forall. intros v Hin.
        destruct (name_ok v) eqn:Hv; [reflexivity|].
        assert (Hx : existsb (fun v => negb (name_ok v)) (declared_names script) = true)
          by (apply existsb_exists; exists v; rewrite Hv; auto).
        congruence. }
  split; [|split; [|split; [apply declarations_nil|]]].
  - split.
    + intros [e He]. destruct Hcases as [Hbad | Hok]; [left; exact Hbad|].
      right. rewrite (parse_script_valid _ Hok) in He.
      destruct (declarations script); [reflexivity | discriminate].
    + intros [(v & Hin & Hv) | Hnil].
      * rewrite <- name_re_ok in Hv.
        destruct (parse_script_invalid _ _ Hin Hv) as [w Hw]. eauto.
      * destruct Hcases as [(v & Hin & Hv) | Hok].
        -- rewrite <- name_re_ok in Hv.
           destruct (parse_script_invalid _ _ Hin Hv) as [w Hw]. eauto.
        -- rewrite (parse_script_valid _ Hok), Hnil. eauto.
  - intros e He. destruct Hcases as [(v & Hin & Hv) | Hok].
    + rewrite <- name_re_ok in Hv.
      destruct (parse_script_refused script (ex_intro _ v (conj Hin Hv)))
        as (w & Hw & Hwbad & Hrun).
      left. exists w. rewrite name_re_ok in Hwbad.
      split; [exact Hw | split; [exact Hwbad|]].
      rewrite Hrun in He. inversion He. reflexivity.
    + right. rewrite (parse_script_valid _ Hok) in He.
      destruct (declarations script); [|discriminate].
      split; [reflexivity|]. inversion He. reflexivity.
  - destruct Hcases as [(v & Hin & Hv) | Hok].
    + rewrite <- name_re_ok in Hv.
      destruct (parse_script_invalid _ _ Hin Hv) as [w Hw]. eauto.
    + rewrite (parse_script_valid _ Hok).
      destruct (declarations script); eauto.
Qed.

Lemma C8_witness :
  parse_script bad_name
  = Err (BPFtraceError
           "invalid value '1probe' for script name: must contain only alphanumeric characters and start with a letter")
  /\ parse_script all_excluded
     = Err (BPFtraceError
              "no bpftrace variables or printf statements found, please include at least one variable or print statement in your script").
Proof.
  split.
  - destruct (proj2 (proj1 (C8_failure_cases bad_name))) as [e He].
    { left. exists "1probe". split; [vm_compute; auto | reflexivity]. }
    rewrite He. f_equal.
    destruct (proj1 (proj2 (C8_failure_cases bad_name)) e He)
      as [(v & Hin & _ & ->) | [Hnil _]].
    + vm_compute in Hin. destruct Hin as [<- | []]. reflexivity.
    + vm_compute in Hnil. discriminate.
  - destruct (proj2 (proj1 (C8_failure_cases all_excluded))) as [e He].
    { right. vm_compute. reflexivity. }
    rewrite He. f_equal.
    destruct (proj1 (proj2 (C8_failure_cases all_excluded)) e He)
      as [(v & Hin & _) | [_ ->]].
    + vm_compute in Hin. destruct Hin.
    + reflexivity.
Defined.

End AnalysisFailureStatements.

Section IncludeStatements.
Import PyStr Re Patterns Py BPFtrace Spec Samples.

(** C10. When analysis succeeds with an [include] list in the metadata,
    the list is the value of an [include] annotation split at its commas
    and nothing more; a discovered variable is declared exactly when its
    name is an element of the list; the console metric is declared only
    if [@printf] is an element; and since every discovered name starts
    with the sigil, an element that starts with anything else (a space,
    a bare identifier) selects no variable. *)
Theorem C10_include_filter script md defs script' incl :
  parse_script script = Ok (md, defs, script') ->
  md_include md = Some incl ->
  (exists val, In ("include", val) (find_metadata script)
               /\ incl = split "," val)
  /\ (forall var, In var (discovered script) ->
                  (In var (Dict.keys defs) <-> In var incl))
  /\ (In "@printf" (Dict.keys defs) -> In "@printf" incl)
  /\ (forall entry, In entry incl ->
                    (forall t, entry <> String "@" t) ->
                    ~ In entry (discovered script)).
Proof.
  intros Hok Hincl.
  apply parse_script_ok_inv in Hok. destruct Hok as (-> & -> & -> & _).
  assert (Hex : forall var, excluded (metadata_of script) var = negb (mem var incl))
    by (intros var; unfold excluded; now rewrite Hincl).
  assert (Hkept : forall var, In var (kept script)
                              <-> In var (discovered script) /\ In var incl).
  { intros var. rewrite kept_In, Hex, negb_false_iff, mem_In. tauto. }
  split; [|split; [|split]].
  - unfold metadata_of in Hincl. apply scan_metadata_include in Hincl.
    destruct Hincl as [Hnone | Hval]; [discriminate | exact Hval].
  - intros var Hd. rewrite declarations_keys, Hkept. split.
    + intros [[_ Hin] | [-> Hc]]; [exact Hin|].
      unfold console_declared in Hc. rewrite Hincl in Hc.
      apply andb_true_iff in Hc. destruct Hc as [_ Hc]. now apply mem_In.
    + intros Hin. left. tauto.
  - rewrite declarations_keys, Hkept.
    intros [[_ Hin] | [_ Hc]]; [exact Hin|].
    unfold console_declared in Hc. rewrite Hincl in Hc.
    apply andb_true_iff in Hc. destruct Hc as [_ Hc]. now apply mem_In.
  - intros entry _ Hno Hd. apply discovered_sigil in Hd.
    destruct Hd as [t Ht]. exact (Hno t Ht).
Qed.

(** With [@a, @b] the list is [@a] and [ @b]: the variable [@b] and the
    console metric are not declared, although the script assigns the one
    and calls [printf]. *)
Lemma C10_witness :
  parse_script spaced_include
  = Ok (mkMeta None (Some ["@a"; " @b"]),
        [("@a", mkVarDef true PM_SEM_COUNTER PM_TYPE_U64)],
        spaced_include ++ " interval:s:1 { print(@a); }")
  /\ discovered spaced_include = ["@a"; "@b"]
  /\ (In "@a" (Dict.keys [("@a", mkVarDef true PM_SEM_COUNTER PM_TYPE_U64)])
      <-> In "@a" ["@a"; " @b"])
  /\ (In "@b" (Dict.keys [("@a", mkVarDef true PM_SEM_COUNTER PM_TYPE_U64)])
      <-> In "@b" ["@a"; " @b"]).
Proof.
  assert (Hp : parse_script spaced_include
               = Ok (mkMeta None (Some ["@a"; " @b"]),
                     [("@a", mkVarDef true PM_SEM_COUNTER PM_TYPE_U64)],
                     spaced_include ++ " interval:s:1 { print(@a); }"))
    by (vm_compute; reflexivity).
  assert (Hd : discovered spaced_include = ["@a"; "@b"])
    by (vm_compute; reflexivity).
  destruct (C10_include_filter _ _ _ _ _ Hp eq_refl) as (_ & Hiff & _ & _).
  split; [exact Hp | split; [exact Hd | split]]; apply Hiff; rewrite Hd;
    simpl; auto.
Defined.

End IncludeStatements.

(* ===================================================================== *)
(** * Properties of the output records                                    *)
(* ===================================================================== *)

Section ValueFacts.
Import PyStr Py BPFtrace Spec.

Lemma key_eqb_str_inv x a : key_eqb x (PStr a) = true -> x = PStr a.
Proof.
  destruct x as [|[|]| | | |]; simpl; try discriminate.
  intros H. apply String.eqb_eq in H. now subst.
Qed.

Lemma dget_dset_same a v d : dget (PStr a) (dset (PStr a) v d) = Some v.
Proof. apply dict_get_set_same. simpl. apply String.eqb_refl. Qed.

Lemma dget_dset_other a b v d :
  a <> b -> dget (PStr b) (dset (PStr a) v d) = dget (PStr b) d.
Proof.
  intros Hne. apply dict_get_set_other.
  - simpl. apply String.eqb_refl.
  - intros x Hx. apply key_eqb_str_inv in Hx. subst x. simpl.
    now apply String.eqb_neq.
Qed.

Lemma hist_items_status its : forall st,
  status (final_state (hist_items its st)) = status st.
Proof.
  induction its as [|[k v] its IH]; intros st; simpl; [reflexivity|].
  unfold bind, lift, modify.
  destruct (iterate v) as [buckets|e]; simpl; [|reflexivity].
  destruct (bucket_map buckets []) as [m|e]; simpl; [|reflexivity].
  rewrite IH. reflexivity.
Qed.

Lemma maps_update_status data st :
  status (final_state (maps_update data st)) = status st.
Proof.
  unfold maps_update. destruct (update data (maps st)) as [m [e|]]; reflexivity.
Qed.

(** After the first step, a record leaves the status alone. *)
Lemma process_output_obj_status obj st :
  status (final_state (process_output_obj obj st))
  = match status st with Starting => Started | s => s end.
Proof.
  unfold process_output_obj, bind, modify, lift, ret, raise, get.
  set (st1 := match status st with Starting => with_status Started st | _ => st end).
  assert (H1 : status st1 = match status st with Starting => Started | s => s end)
    by (subst st1; destruct (status st) eqn:E; simpl; congruence).
  rewrite <- H1. clearbody st1.
  destruct (getitem obj "type") as [ty|e]; [|reflexivity].
  destruct (eq_str ty "attached_probes").
  { destruct (getitem obj "probes"); reflexivity. }
  destruct (eq_str ty "map").
  { destruct (getitem obj "data"); [apply maps_update_status | reflexivity]. }
  destruct (eq_str ty "hist").
  { destruct (getitem obj "data") as [d|]; [|reflexivity].
    destruct (items d); [apply hist_items_status | reflexivity]. }
  destruct (eq_str ty "printf" || eq_str ty "time"); [|reflexivity].
  destruct (getitem obj "msg") as [msg|]; [|reflexivity].
  destruct (add _ msg); reflexivity.
Qed.

End ValueFacts.

Section RecordStatements.
Import PyStr Py BPFtrace Spec Samples.

(** C6. Whatever the record, processing it takes the status from
    STARTING to STARTED and leaves any other status as it is, so STARTED
    stays STARTED. From STARTING, the two records of the example leave a
    state whose snapshot has status STARTED, 3 probes and 5 under [@x]. *)
Theorem C6_first_record_starts :
  (forall obj st,
      status (final_state (process_output_obj obj st))
      = match status st with Starting => Started | s => s end)
  /\ (forall st,
         status st = Starting ->
         exists snap st',
           (process_output_obj probes_record ;;
            process_output_obj map_record ;;
            state) st = Return snap st'
           /\ snap = st'
           /\ status snap = Started
           /\ probes snap = PInt 3
           /\ dget (PStr "@x") (maps snap) = Some (PInt 5)).
Proof.
  split; [apply process_output_obj_status|].
  intros st Hst.
  unfold process_output_obj, state, bind, modify, lift, ret, raise, get.
  rewrite Hst. simpl.
  eexists. eexists. split; [reflexivity|].
  split; [reflexivity|]. simpl.
  split; [reflexivity|]. split; [reflexivity|].
  apply dget_dset_same.
Qed.

Lemma C6_witness :
  status (with_status Starting BPFtraceState_init) = Starting
  /\ exists snap st',
       (process_output_obj probes_record ;;
        process_output_obj map_record ;;
        state) (with_status Starting BPFtraceState_init) = Return snap st'
       /\ snap = st'
       /\ status snap = Started
       /\ probes snap = PInt 3
       /\ dget (PStr "@x") (maps snap) = Some (PInt 5).
Proof.
  split; [reflexivity|].
  apply (proj2 C6_first_record_starts). reflexivity.
Defined.

(** While the console metric holds text (or nothing yet), a [printf] or
    [time] record whose [msg] is a string puts, under [@printf], the text
    accumulated so far followed by the message, and touches no other
    metric; from an empty console, [a] then [b] leave [ab]. *)
Lemma console_text_appends :
  (forall obj ty msg acc st,
      getitem obj "type" = Ok (PStr ty) ->
      ty = "printf" \/ ty = "time" ->
      getitem obj "msg" = Ok (PStr msg) ->
      console_text st = Some acc ->
      exists st',
        process_output_obj obj st = Return tt st'
        /\ console_text st' = Some (acc ++ msg)
        /\ forall k, k <> "@printf" ->
                     dget (PStr k) (maps st') = dget (PStr k) (maps st))
  /\ (forall st,
         console_text st = Some "" ->
         console_text
           (final_state ((process_output_obj (printf_record "a") ;;
                          process_output_obj (printf_record "b")) st))
         = Some "ab").
Proof.
  assert (Hone : forall obj ty msg acc st,
      getitem obj "type" = Ok (PStr ty) ->
      ty = "printf" \/ ty = "time" ->
      getitem obj "msg" = Ok (PStr msg) ->
      console_text st = Some acc ->
      exists st',
        process_output_obj obj st = Return tt st'
        /\ console_text st' = Some (acc ++ msg)
        /\ forall k, k <> "@printf" ->
                     dget (PStr k) (maps st') = dget (PStr k) (maps st)).
  { intros obj ty msg acc st Hty Hkind Hmsg Hacc.
    unfold console_text in Hacc.
    assert (Hmaps : maps (match status st with
                          | Starting => with_status Started st
                          | _ => st
                          end) = maps st)
      by (destruct (status st); reflexivity).
    destruct Hkind as [-> | ->];
      unfold process_output_obj, bind, modify, lift, ret, raise, get;
      rewrite Hty; simpl; rewrite Hmsg; simpl; rewrite Hmaps;
      destruct (dget (PStr "@printf") (maps st)) as [[| | |s| |]|] eqn:Hcur;
      try discriminate; inversion Hacc; subst; simpl;
      (eexists; split; [reflexivity|]; simpl; rewrite Hmaps; split;
       [unfold console_text; simpl; now rewrite dget_dset_same
       |intros k Hk; apply dget_dset_other; congruence]). }
  split; [exact Hone|].
  intros st Hst.
  destruct (Hone (printf_record "a") "printf" "a" "" st)
    as (st1 & H1 & Hc1 & _); auto.
  destruct (Hone (printf_record "b") "printf" "b" "a" st1)
    as (st2 & H2 & Hc2 & _); auto.
  unfold bind at 1. rewrite H1, H2. exact Hc2.
Qed.

Example console_text_appends_example :
  console_text BPFtraceState_init = Some ""
  /\ console_text
       (final_state ((process_output_obj (printf_record "a") ;;
                      process_output_obj (printf_record "b"))
                       BPFtraceState_init))
     = Some "ab".
Proof.
  split; [reflexivity|].
  apply (proj2 console_text_appends). reflexivity.
Qed.

End RecordStatements.

Section HistFacts.
Import PyStr Py BPFtrace Spec Samples.

Lemma bucket_map_spec buckets :
  Forall is_bucket buckets ->
  forall acc,
  exists m,
    bucket_map buckets acc = Ok m
    /\ forall lbl,
         dget (PStr lbl) m
         = match label_count lbl buckets with
           | Some c => Some c
           | None => dget (PStr lbl) acc
           end.
Proof.
  induction 1 as [|b buckets Hb _ IH]; intros acc.
  - exists acc. split; reflexivity.
  - destruct Hb as (d & c & -> & Hc). simpl.
    unfold get_default, getitem. rewrite Hc.
    destruct (dget (PStr "min") d) as [lo|] eqn:Hlo;
      destruct (dget (PStr "max") d) as [hi|] eqn:Hhi; simpl;
      match goal with
      | |- context [dset (PStr ?l) c acc] =>
          replace l with (bucket_label d)
            by (unfold bucket_label, label, bound; now rewrite Hlo, Hhi)
      end;
      destruct (IH (dset (PStr (bucket_label d)) c acc)) as (m & Hm & Hget);
      exists m; (split; [exact Hm|]); intros lbl; rewrite Hget;
      destruct (label_count lbl buckets); try reflexivity;
      destruct (String.eqb (bucket_label d) lbl) eqn:E;
      try (apply String.eqb_eq in E; subst lbl; apply dget_dset_same);
      try (apply String.eqb_neq in E; now apply dget_dset_other).
Qed.

Lemma hist_items_spec its :
  hist_data_ok its ->
  forall st,
  exists st',
    hist_items its st = Return tt st'
    /\ (forall name buckets,
           In (PStr name, PList buckets) its ->
           exists m, dget (PStr name) (maps st') = Some (PDict m)
                     /\ forall lbl, dget (PStr lbl) m = label_count lbl buckets)
    /\ (forall name, ~ In (PStr name) (map fst its) ->
                     dget (PStr name) (maps st') = dget (PStr name) (maps st)).
Proof.
  induction its as [|[k v] its IH]; intros [Hnd Hwf] st.
  - exists st. split; [reflexivity|]. split; [intros ? ? []|reflexivity].
  - destruct (Hwf k v (or_introl eq_refl)) as (n & bs & -> & -> & Hbs).
    simpl in Hnd. apply List.NoDup_cons_iff in Hnd. destruct Hnd as [Hfresh Hnd].
    destruct (bucket_map_spec bs Hbs []) as (m & Hm & Hget).
    simpl. unfold bind, lift, modify, ret. simpl. rewrite Hm.
    destruct (IH (conj Hnd (fun k v H => Hwf k v (or_intror H)))
                 (with_maps (dset (PStr n) (PDict m) (maps st)) st))
      as (st' & Hrun & Hin & Hout).
    exists st'. split; [exact Hrun|]. split.
    + intros name buckets [Heq | Hi].
      * inversion Heq; subst. exists m. split.
        -- rewrite (Hout name Hfresh). simpl. apply dget_dset_same.
        -- intros lbl. rewrite Hget. now destruct (label_count lbl buckets).
      * apply Hin, Hi.
    + intros name Hn. simpl in Hn. rewrite Hout by tauto. simpl.
      apply dget_dset_other. intros ->. tauto.
Qed.

End HistFacts.

Section HistStatements.
Import PyStr Py BPFtrace Spec Samples.

(** A [hist] record whose [data] gives each metric a list of buckets
    replaces the value of each metric it names with a mapping from range
    labels to counts: a label is [min-max] with [inf] for a bound the
    bucket does not give, and its count is the count of the bucket with
    that label (the last one if several have it). The record of the
    example leaves [{"0-10": 2, "inf-20": 1}] under [@h]. *)
Lemma hist_bucket_map :
  (forall obj data st,
      getitem obj "type" = Ok (PStr "hist") ->
      getitem obj "data" = Ok (PDict data) ->
      hist_data_ok data ->
      exists st',
        process_output_obj obj st = Return tt st'
        /\ forall name buckets,
             In (PStr name, PList buckets) data ->
             exists m,
               dget (PStr name) (maps st') = Some (PDict m)
               /\ forall lbl, dget (PStr lbl) m = label_count lbl buckets)
  /\ (forall st,
         exists st',
           process_output_obj hist_record st = Return tt st'
           /\ dget (PStr "@h") (maps st')
              = Some (record [("0-10", PInt 2); ("inf-20", PInt 1)])).
Proof.
  split.
  - intros obj data st Hty Hdata Hok.
    unfold process_output_obj, bind, modify, lift, ret, raise, get.
    rewrite Hty. simpl. rewrite Hdata. simpl.
    destruct (hist_items_spec data Hok
                (match status st with
                 | Starting => with_status Started st
                 | _ => st
                 end)) as (st' & Hrun & Hin & _).
    exists st'. split; [exact Hrun | exact Hin].
  - intros st.
    unfold process_output_obj, bind, modify, lift, ret, raise, get. simpl.
    eexists. split; [reflexivity|]. simpl. apply dget_dset_same.
Qed.

Example hist_bucket_map_example :
  hist_data_ok hist_data
  /\ exists st',
       process_output_obj hist_record BPFtraceState_init = Return tt st'
       /\ exists m, dget (PStr "@h") (maps st') = Some (PDict m)
                    /\ dget (PStr "0-10") m = Some (PInt 2)
                    /\ dget (PStr "inf-20") m = Some (PInt 1)
                    /\ dget (PStr "0-20") m = None.
Proof.
  assert (Hok : hist_data_ok hist_data).
  { split.
    - simpl. apply List.NoDup_cons; [simpl; tauto | apply List.NoDup_nil].
    - intros k v [Heq | []]. inversion Heq; subst.
      eexists. eexists. split; [reflexivity|]. split; [reflexivity|].
      repeat constructor; eexists; eexists; split; reflexivity. }
  split; [exact Hok|].
  destruct (proj1 hist_bucket_map hist_record hist_data BPFtraceState_init
                  eq_refl eq_refl Hok) as (st' & Hrun & Hin).
  exists st'. split; [exact Hrun|].
  destruct (Hin "@h" _ (or_introl eq_refl)) as (m & Hm & Hl).
  exists m. split; [exact Hm|]. rewrite !Hl. repeat split; reflexivity.
Qed.

End HistStatements.

(* ===================================================================== *)
(** * Lifecycle and line-by-line ingestion: the statements                *)
(* ===================================================================== *)

Section LifecycleStatements.
Import PyStr Py BPFtrace Spec Samples.

(** C7. [start] from a status other than STOPPED and [stop] from a
    status other than STARTED raise [BPFtraceError] and leave the state
    as it was; a [start] right after a successful [start] raises, and so
    does a [stop] on a fresh instance. *)
Theorem C7_lifecycle_guards :
  (forall popen st,
      status st <> Stopped ->
      start popen st = Raise (cannot "start" (status st)) st)
  /\ (forall wait returncode st,
         status st <> Started ->
         stop wait returncode st = Raise (cannot "stop" (status st)) st)
  /\ (forall child popen st,
         status st = Stopped ->
         exists st1,
           start (Ok child) st = Return tt st1
           /\ start popen st1 = Raise (cannot "start" Starting) st1)
  /\ (forall wait returncode,
         stop wait returncode BPFtraceState_init
         = Raise (cannot "stop" Stopped) BPFtraceState_init).
Proof.
  split; [|split; [|split]].
  - intros popen st Hst. unfold start, start_locked, bind, get.
    destruct (status st); try reflexivity. congruence.
  - intros wait rc st Hst. unfold stop, stop_locked, bind, get.
    destruct (status st); try reflexivity. congruence.
  - intros child popen st Hst. unfold start, start_locked, bind, get.
    rewrite Hst. simpl. eexists. split; reflexivity.
  - reflexivity.
Qed.

Lemma C7_witness :
  status BPFtraceState_init = Stopped
  /\ exists st1,
       start (Ok 4242%Z) BPFtraceState_init = Return tt st1
       /\ status st1 <> Stopped
       /\ start (Ok 4243%Z) st1 = Raise (cannot "start" (status st1)) st1.
Proof.
  split; [reflexivity|].
  destruct (proj1 (proj2 (proj2 C7_lifecycle_guards))
                  4242%Z (Ok 4243%Z) BPFtraceState_init eq_refl)
    as (st1 & Hfirst & Hsecond).
  exists st1.
  assert (Hst : status st1 <> Stopped)
    by (vm_compute in Hfirst; inversion Hfirst; discriminate).
  split; [exact Hfirst | split; [exact Hst |]].
  apply (proj1 C7_lifecycle_guards). exact Hst.
Defined.

End LifecycleStatements.

Section IngestionStatements.
Import PyStr Py BPFtrace Spec Samples.
Variable json_loads : string -> option value.

(** A line [json.loads] refuses is added to [output] as it is; the
    metrics and the status stay, and the loop goes on. *)
Lemma process_line_undecodable line st :
  json_loads line = None ->
  line <> "" -> isspace line = false ->
  process_line json_loads line st
  = Return tt (with_output (output st ++ line) st).
Proof.
  intros Hl Hne Hsp. unfold process_line. rewrite Hsp.
  destruct line; [congruence|]. simpl.
  unfold try_except_ValueError, bind, raise, modify. now rewrite Hl.
Qed.

Lemma process_line_decoded line obj st :
  json_loads line = Some obj ->
  line <> "" -> isspace line = false ->
  process_line json_loads line st
  = try_except_ValueError
      (process_output_obj obj)
      (modify (fun st => with_output (output st ++ line) st)) st.
Proof.
  intros Hl Hne Hsp. unfold process_line. rewrite Hsp.
  destruct line; [congruence|]. simpl.
  unfold try_except_ValueError, bind, ret. now rewrite Hl.
Qed.

Lemma process_output_first_raises line lines returncode st e st' :
  process_line json_loads line st = Raise e st' ->
  process_output json_loads (line :: lines) returncode st = Raise e st'.
Proof.
  intros H. unfold process_output. cbn [process_lines]. unfold bind.
  now rewrite H.
Qed.

(** C2, the divergence. A line that is valid JSON but not a record with
    the expected fields, here the empty object, is not added to [output]:
    [process_output_obj] raises [KeyError], which [process_output] does
    not catch. The loop ends there, after the status has gone from
    STARTING to STARTED; the lines that follow are not read and the
    status is not set to STOPPED. *)
Theorem C2_empty_object_aborts lines returncode st :
  json_loads ("{}" ++ nl) = Some (PDict []) ->
  status st = Starting ->
  process_output json_loads (("{}" ++ nl) :: lines) returncode st
  = Raise KeyError (with_status Started st).
Proof.
  intros Hl Hst. apply process_output_first_raises.
  rewrite (process_line_decoded _ _ _ Hl);
    [|discriminate|reflexivity].
  unfold try_except_ValueError, process_output_obj,
    bind, modify, lift, ret, raise, get.
  rewrite Hst. reflexivity.
Qed.

(** The same with a line that holds a number. *)
Lemma number_line_aborts lines returncode st n :
  json_loads ("5" ++ nl) = Some (PInt n) ->
  process_output json_loads (("5" ++ nl) :: lines) returncode st
  = Raise TypeError (match status st with
                     | Starting => with_status Started st
                     | _ => st
                     end).
Proof.
  intros Hl. apply process_output_first_raises.
  rewrite (process_line_decoded _ _ _ Hl);
    [|discriminate|reflexivity].
  reflexivity.
Qed.

End IngestionStatements.

(* ===================================================================== *)
(** * Properties of [deepcopy]                                            *)
(* ===================================================================== *)

Section CopyInvariant.
Import Store.
Variable n : nat.

Lemma memo_ext_refl memo : memo_ext memo memo.
Proof. intros l l' H. exact H. Qed.

Lemma memo_ext_trans m1 m2 m3 :
  memo_ext m1 m2 -> memo_ext m2 m3 -> memo_ext m1 m3.
Proof. intros H12 H23 l l' H. auto. Qed.

Lemma memo_ext_cons l l' memo :
  memo_get l memo = None -> memo_ext memo ((l, l') :: memo).
Proof.
  intros Hnone a a' Ha. simpl.
  destruct (Nat.eqb l a) eqn:E; [|exact Ha].
  apply Nat.eqb_eq in E. subst. congruence.
Qed.

Lemma related_ext memo memo' v v' :
  memo_ext memo memo' -> related memo v v' -> related memo' v v'.
Proof.
  intros Hext. destruct v; simpl; auto.
  intros (l' & -> & Hl). eauto.
Qed.

Lemma related_all_ext memo memo' vs vs' :
  memo_ext memo memo' ->
  Forall2 (related memo) vs vs' -> Forall2 (related memo') vs vs'.
Proof.
  intros Hext H. induction H; constructor; eauto using related_ext.
Qed.

Lemma cell_sim_ext memo memo' c c' :
  memo_ext memo memo' -> cell_sim memo c c' -> cell_sim memo' c c'.
Proof.
  intros Hext (vs & Hc & Hvs). exists vs. eauto using related_all_ext.
Qed.

Lemma post_refl pending h memo :
  pre n pending h memo -> post n pending h memo h memo.
Proof.
  intros (Hn & Hold & Hok & Hcop). unfold post.
  split; [|split; [|split; [|split; [|split]]]]; auto using memo_ext_refl.
  intros l l' H. auto.
Qed.

Lemma pre_post pending h memo h' memo' :
  pre n pending h memo -> post n pending h memo h' memo' ->
  pre n pending h' memo'.
Proof.
  intros (Hn & Hold & Hok & Hcop) (Hlen & Hsame & Hok' & Hext & Hfresh & Hcop').
  unfold pre. split; [|split; [|split]]; auto; try lia.
  intros l c Hl Hc. rewrite Hsame in Hc by lia. eauto.
Qed.

Lemma post_trans pending h memo h1 memo1 h2 memo2 :
  post n pending h memo h1 memo1 -> post n pending h1 memo1 h2 memo2 ->
  post n pending h memo h2 memo2.
Proof.
  intros (Hlen & Hsame & Hok & Hext & Hfresh & Hcop)
         (Hlen' & Hsame' & Hok' & Hext' & Hfresh' & Hcop').
  unfold post. split; [|split; [|split; [|split; [|split]]]]; auto; try lia.
  - intros l Hl. rewrite Hsame' by lia. auto.
  - eauto using memo_ext_trans.
  - intros l l' H. destruct (Hfresh' _ _ H) as [H1 | [H1 Hge]].
    + apply Hfresh in H1. exact H1.
    + right. split; [|lia].
      destruct (memo_get l memo) as [x|] eqn:E; [|reflexivity].
      apply Hext in E. congruence.
Qed.

End CopyInvariant.

Section CopySpec.
Import Store.
Variable n : nat.

Lemma copy_seq_spec copy :
  copy_ok n copy ->
  forall vs pending h memo h' memo' vs',
    pre n pending h memo -> Forall (val_below n) vs ->
    copy_seq copy vs h memo = Some (h', memo', vs') ->
    post n pending h memo h' memo' /\ Forall2 (related memo') vs vs'.
Proof.
  intros Hcopy. induction vs as [|x vs IH];
    intros pending h memo h' memo' vs' Hpre Hvs Hrun; simpl in Hrun.
  - inversion Hrun; subst. split; [now apply post_refl | constructor].
  - inversion Hvs as [|? ? Hx Hvs']; subst.
    destruct (copy h memo x) as [[[h1 memo1] x']|] eqn:Hc; [|discriminate].
    destruct (copy_seq copy vs h1 memo1) as [[[h2 memo2] vs'']|] eqn:Hs;
      [|discriminate].
    inversion Hrun; subst.
    destruct (Hcopy _ _ _ _ _ _ _ Hpre Hx Hc) as [Hpost1 Hrel].
    destruct (IH _ _ _ _ _ _ (pre_post _ _ _ _ _ _ Hpre Hpost1) Hvs' Hs)
      as [Hpost2 Hrels].
    split; [eapply post_trans; eassumption|].
    constructor; [|exact Hrels].
    destruct Hpost2 as (_ & _ & _ & Hext & _). eauto using related_ext.
Qed.

Lemma memo_get_cons_ne l l' a memo :
  a <> l -> memo_get a ((l, l') :: memo) = memo_get a memo.
Proof. intros H. simpl. destruct (Nat.eqb l a) eqn:E; [|reflexivity].
       apply Nat.eqb_eq in E. congruence. Qed.

Lemma memo_get_cons_eq l l' memo : memo_get l ((l, l') :: memo) = Some l'.
Proof. simpl. now rewrite Nat.eqb_refl. Qed.

(** Starting the copy of the object at [l]: a blank object at the end of
    the store, recorded in [memo] and pending. *)
Lemma pre_begin pending h memo l c :
  pre n pending h memo -> l < n -> memo_get l memo = None ->
  pre n (length h :: pending) (h ++ [blank c])%list ((l, length h) :: memo).
Proof.
  intros (Hn & Hold & Hok & Hcop) Hl Hnone.
  pose proof (memo_ext_cons l (length h) memo Hnone) as Hext.
  unfold pre. split; [|split; [|split]].
  - rewrite List.length_app. simpl. lia.
  - intros a ca Ha Hca. rewrite lookup_app_l in Hca by lia. eauto.
  - intros a a' Ha. rewrite List.length_app. simpl.
    destruct (Nat.eq_dec a l) as [-> | Hne].
    + rewrite memo_get_cons_eq in Ha. inversion Ha; subst. lia.
    + rewrite memo_get_cons_ne in Ha by assumption.
      apply Hok in Ha. lia.
  - intros a a' Ha Hpend.
    destruct (Nat.eq_dec a l) as [-> | Hne].
    + rewrite memo_get_cons_eq in Ha. inversion Ha; subst.
      exfalso. apply Hpend. left. reflexivity.
    + rewrite memo_get_cons_ne in Ha by assumption.
      destruct (Hcop _ _ Ha) as (ca & ca' & H1 & H2 & Hsim).
      { intros Hin. apply Hpend. right. exact Hin. }
      exists ca, ca'. split; [|split].
      * now apply lookup_app_l_Some.
      * now apply lookup_app_l_Some.
      * eapply cell_sim_ext; eassumption.
Qed.

End CopySpec.

Section DeepcopySpec.
Import Store.
Variable n : nat.

(** Filling the copy of the object at [l] once what it holds is copied. *)
Lemma post_finish pending h memo l c h2 memo2 vs :
  pre n pending h memo -> l < n -> memo_get l memo = None ->
  h !! l = Some c ->
  post n (length h :: pending) (h ++ [blank c])%list ((l, length h) :: memo)
       h2 memo2 ->
  Forall2 (related memo2) (children c) vs ->
  post n pending h memo (<[length h := rebuild c vs]> h2) memo2.
Proof.
  intros (Hn & Hold & Hok & Hcop) Hl Hnone Hc
         (Hlen & Hsame & Hok2 & Hext & Hfresh & Hcop2) Hvs.
  rewrite List.length_app in Hlen, Hsame, Hfresh. simpl in Hlen, Hsame, Hfresh.
  assert (Hold2 : forall x, x < length h -> h2 !! x = h !! x).
  { intros x Hx. rewrite Hsame by lia. now apply lookup_app_l. }
  unfold post. split; [|split; [|split; [|split; [|split]]]].
  - rewrite length_insert. lia.
  - intros x Hx. rewrite list_lookup_insert_ne by lia. auto.
  - intros a a' Ha. rewrite length_insert. eauto.
  - eapply memo_ext_trans; [apply memo_ext_cons; exact Hnone | exact Hext].
  - intros a a' Ha. destruct (Hfresh _ _ Ha) as [H1 | [H1 Hge]].
    + destruct (Nat.eq_dec a l) as [-> | Hne].
      * rewrite memo_get_cons_eq in H1. inversion H1; subst. auto.
      * rewrite memo_get_cons_ne in H1 by assumption. auto.
    + destruct (Nat.eq_dec a l) as [-> | Hne].
      * rewrite memo_get_cons_eq in H1. discriminate.
      * rewrite memo_get_cons_ne in H1 by assumption. right. split; [auto | lia].
  - intros a a' Ha Hpend.
    destruct (Nat.eq_dec a' (length h)) as [-> | Hne].
    + (* the object just filled *)
      assert (a = l) as ->.
      { destruct (Hfresh _ _ Ha) as [H1 | [_ Hge]]; [|lia].
        destruct (Nat.eq_dec a l) as [-> | Hal]; [reflexivity|].
        rewrite memo_get_cons_ne in H1 by assumption.
        apply Hok in H1. lia. }
      exists c, (rebuild c vs). split; [|split].
      * rewrite list_lookup_insert_ne by lia. rewrite Hold2 by lia. exact Hc.
      * apply list_lookup_insert_eq. lia.
      * exists vs. auto.
    + destruct (Hcop2 _ _ Ha) as (ca & ca' & H1 & H2 & Hsim).
      { intros [Heq | Hin]; [congruence | auto]. }
      exists ca, ca'. split; [|split; [|exact Hsim]].
      * apply Hok2 in Ha. rewrite list_lookup_insert_ne by lia. exact H1.
      * rewrite list_lookup_insert_ne by congruence. exact H2.
Qed.

(** The invariant holds across [deepcopy], and the result is the value
    with references to originals replaced by references to copies. *)
Lemma deepcopy_spec fuel : copy_ok n (deepcopy fuel).
Proof.
  induction fuel as [|fuel IH];
    intros pending h memo v h' memo' v' Hpre Hv Hrun;
    destruct v as [| | | |l]; simpl in Hrun;
    try (inversion Hrun; subst; split; [now apply post_refl | reflexivity]).
  - destruct (memo_get l memo) as [l'|] eqn:Hm; [|discriminate].
    inversion Hrun; subst. split; [now apply post_refl | simpl; eauto].
  - destruct (memo_get l memo) as [l'|] eqn:Hm.
    { inversion Hrun; subst. split; [now apply post_refl | simpl; eauto]. }
    destruct (h !! l) as [c|] eqn:Hc; [|discriminate].
    destruct (copy_seq (deepcopy fuel) (children c) (h ++ [blank c])%list
                       ((l, length h) :: memo))
      as [[[h2 memo2] vs]|] eqn:Hs; [|discriminate].
    inversion Hrun; subst. simpl in Hv.
    assert (Hkids : Forall (val_below n) (children c))
      by (destruct Hpre as (_ & Hold & _); eauto).
    destruct (copy_seq_spec n _ IH _ _ _ _ _ _ _
                (pre_begin n _ _ _ _ c Hpre Hv Hm) Hkids Hs)
      as [Hpost Hvs].
    split.
    + eapply post_finish; eassumption.
    + simpl. exists (length h). split; [reflexivity|].
      destruct Hpost as (_ & _ & _ & Hext & _).
      apply Hext. apply memo_get_cons_eq.
Qed.

End DeepcopySpec.

Section DeepcopyTotal.
Import Store.
Variable n : nat.

Lemma filter_length_le {A} (f g : A -> bool) l :
  (forall x, f x = true -> g x = true) ->
  length (List.filter f l) <= length (List.filter g l).
Proof.
  intros Hfg. induction l as [|x l IH]; simpl; [lia|].
  destruct (f x) eqn:Hf.
  - rewrite (Hfg _ Hf). simpl. lia.
  - destruct (g x); simpl; lia.
Qed.

Lemma filter_length_lt {A} (f g : A -> bool) l a :
  (forall x, f x = true -> g x = true) ->
  In a l -> f a = false -> g a = true ->
  length (List.filter f l) < length (List.filter g l).
Proof.
  intros Hfg Hin Hfa Hga. induction l as [|x l IH]; simpl; [destruct Hin|].
  destruct Hin as [-> | Hin].
  - rewrite Hfa, Hga. simpl.
    pose proof (filter_length_le f g l Hfg). lia.
  - specialize (IH Hin). destruct (f x) eqn:Hf.
    + rewrite (Hfg _ Hf). simpl. lia.
    + destruct (g x); simpl; lia.
Qed.

Lemma unvisited_ext memo memo' :
  memo_ext memo memo' -> unvisited n memo' <= unvisited n memo.
Proof.
  intros Hext. apply filter_length_le. intros x Hx.
  destruct (memo_get x memo) as [y|] eqn:E; [|reflexivity].
  apply Hext in E. rewrite E in Hx. discriminate.
Qed.

Lemma unvisited_cons memo l l' :
  l < n -> memo_get l memo = None ->
  unvisited n ((l, l') :: memo) < unvisited n memo.
Proof.
  intros Hl Hnone. apply (filter_length_lt _ _ _ l).
  - intros x Hx.
    destruct (memo_get x memo) as [y|] eqn:E; [|reflexivity].
    apply (memo_ext_cons l l' memo Hnone) in E. rewrite E in Hx. discriminate.
  - apply in_seq. lia.
  - now rewrite memo_get_cons_eq.
  - now rewrite Hnone.
Qed.

Lemma copy_seq_total copy k :
  copy_ok n copy ->
  (forall pending h memo v,
      pre n pending h memo -> val_below n v -> unvisited n memo <= k ->
      exists r, copy h memo v = Some r) ->
  forall vs pending h memo,
    pre n pending h memo -> Forall (val_below n) vs ->
    unvisited n memo <= k ->
    exists r, copy_seq copy vs h memo = Some r.
Proof.
  intros Hok Htot. induction vs as [|x vs IH];
    intros pending h memo Hpre Hvs Hk; simpl.
  - eauto.
  - inversion Hvs as [|? ? Hx Hvs']; subst.
    destruct (Htot _ _ _ _ Hpre Hx Hk) as [[[h1 memo1] x'] Hc]. rewrite Hc.
    destruct (Hok _ _ _ _ _ _ _ Hpre Hx Hc) as [Hpost _].
    assert (Hk1 : unvisited n memo1 <= k).
    { destruct Hpost as (_ & _ & _ & Hext & _).
      pose proof (unvisited_ext _ _ Hext). lia. }
    destruct (IH _ _ _ (pre_post _ _ _ _ _ _ Hpre Hpost) Hvs' Hk1)
      as [[[h2 memo2] vs'] Hs].
    rewrite Hs. eauto.
Qed.

(** With as much fuel as there are originals left to copy, [deepcopy]
    returns. *)
Lemma deepcopy_total fuel :
  forall pending h memo v,
    pre n pending h memo -> val_below n v -> unvisited n memo <= fuel ->
    exists r, deepcopy fuel h memo v = Some r.
Proof.
  induction fuel as [|fuel IH]; intros pending h memo v Hpre Hv Hfuel;
    destruct v as [| | | |l]; simpl; eauto;
    destruct (memo_get l memo) as [l'|] eqn:Hm; eauto; simpl in Hv.
  - pose proof (unvisited_cons memo l 0 Hv Hm). lia.
  - destruct Hpre as (Hn & Hold & Hrest).
    destruct (lookup_lt_is_Some_2 h l) as [c Hc]; [lia|]. rewrite Hc.
    assert (Hpre : pre n pending h memo) by (unfold pre; auto).
    pose proof (unvisited_cons memo l (length h) Hv Hm) as Hlt.
    destruct (copy_seq_total (deepcopy fuel) fuel (deepcopy_spec n fuel) IH
                (children c) _ _ _
                (pre_begin n _ _ _ _ c Hpre Hv Hm)) as [[[h2 memo2] vs] Hs].
    + eauto.
    + lia.
    + rewrite Hs. eauto.
Qed.

End DeepcopyTotal.

Section CopyContent.
Import Store.

Lemma flatten_pair_up es : forall vs,
  length vs = length (flatten es) -> flatten (pair_up vs) = vs.
Proof.
  induction es as [|[k v] es IH]; intros vs Hlen; simpl in Hlen.
  - destruct vs; [reflexivity | discriminate].
  - destruct vs as [|a [|b vs]]; try discriminate.
    simpl. rewrite IH; [reflexivity | simpl in Hlen; lia].
Qed.

Lemma children_rebuild c vs :
  length vs = length (children c) -> children (rebuild c vs) = vs.
Proof.
  destruct c as [items|es|s p e o pr m]; simpl; intros Hlen.
  - reflexivity.
  - now apply (flatten_pair_up es).
  - destruct vs as [|a [|b [|x vs]]]; try discriminate. reflexivity.
Qed.

Lemma Forall2_length_eq {A B} (R : A -> B -> Prop) l l' :
  Forall2 R l l' -> length l' = length l.
Proof. induction 1; simpl; congruence. Qed.

Lemma Forall2_In_r {A B} (R : A -> B -> Prop) l l' y :
  Forall2 R l l' -> In y l' -> exists x, In x l /\ R x y.
Proof.
  induction 1 as [|a b l l' Hab _ IH]; simpl; [tauto|].
  intros [<- | Hin]; [eauto|].
  destruct (IH Hin) as (x & Hx & Hr). eauto.
Qed.

Variables (n : nat) (h h' : heap) (memo : memo_t).
Hypothesis Hsame : forall l, l < n -> h' !! l = h !! l.
Hypothesis Hok : memo_ok n h' memo.
Hypothesis Hcop : copied [] h' memo.

(** A copy reads as its original does. *)
Lemma reify_related fuel : forall v v',
  related memo v v' -> reify fuel h' v' = reify fuel h v.
Proof.
  induction fuel as [|fuel IH]; intros v v' Hrel;
    destruct v as [| | | |l]; simpl in Hrel; subst; try reflexivity;
    destruct Hrel as (l' & -> & Hl); [reflexivity|].
  destruct (Hcop _ _ Hl) as (c & c' & Hc & Hc' & vs & -> & Hvs); [tauto|].
  assert (Hmap : map (reify fuel h') vs = map (reify fuel h) (children c)).
  { clear Hc Hc'. induction Hvs; simpl; [reflexivity|].
    f_equal; [now apply IH | assumption]. }
  rewrite Hsame in Hc by (apply Hok in Hl; lia).
  simpl. rewrite Hc, Hc'.
  destruct c as [items|es|s p e o pr m]; simpl in *.
  - now rewrite Hmap.
  - rewrite (flatten_pair_up es) by (now apply Forall2_length_eq in Hvs).
    now rewrite Hmap.
  - destruct vs as [|a [|b [|x vs]]]; reflexivity.
Qed.

Lemma reify_state_related fuel root snap :
  memo_get root memo = Some snap ->
  reify_state fuel h' snap = reify_state fuel h root.
Proof.
  intros Hl.
  destruct (Hcop _ _ Hl) as (c & c' & Hc & Hc' & vs & -> & Hvs); [tauto|].
  rewrite Hsame in Hc by (apply Hok in Hl; lia).
  unfold reify_state. rewrite Hc, Hc'.
  destruct c as [items|es|s p e o pr m]; simpl in *; try reflexivity.
  inversion Hvs as [|? pr' ? vs1 Hpr Hvs1]; subst.
  inversion Hvs1 as [|? m' ? vs2 Hm Hvs2]; subst.
  inversion Hvs2; subst.
  now rewrite (reify_related fuel _ _ Hpr), (reify_related fuel _ _ Hm).
Qed.

(** What is reachable from a copy is a copy. *)
Lemma reach_copy v x :
  reach h' v x ->
  (exists a l', v = VRef l' /\ memo_get a memo = Some l') ->
  exists a, memo_get a memo = Some x.
Proof.
  induction 1 as [l | l c v l' Hc Hin Hreach IH]; intros (a & t & Heq & Ha);
    inversion Heq; subst.
  - eauto.
  - destruct (Hcop _ _ Ha) as (c0 & c' & _ & Hc' & vs & -> & Hvs); [tauto|].
    rewrite Hc' in Hc. inversion Hc; subst.
    rewrite children_rebuild in Hin by (now apply Forall2_length_eq in Hvs).
    destruct (Forall2_In_r _ _ _ _ Hvs Hin) as (u & _ & Hrel).
    apply IH. destruct u as [| | | |b]; simpl in Hrel; subst;
      try (inversion Hreach; fail).
    destruct Hrel as (t' & -> & Hb). eauto.
Qed.

End CopyContent.

Section Footprints.
Import Store.

(** What is reachable from an original is an original. *)
Lemma reach_old n h v x :
  old_closed n h -> reach h v x -> val_below n v -> x < n.
Proof.
  intros Hold. induction 1 as [l | l c v l' Hc Hin Hreach IH]; simpl; intros Hl.
  - exact Hl.
  - apply IH. pose proof (Hold _ _ Hl Hc) as Hall.
    rewrite List.Forall_forall in Hall. auto.
Qed.

(** Reading a value only looks at what is reachable from it. *)
Lemma reify_frame h h2 fuel : forall v,
  (forall x, reach h v x -> h2 !! x = h !! x) ->
  reify fuel h2 v = reify fuel h v.
Proof.
  induction fuel as [|fuel IH]; intros v Hfp;
    destruct v as [| | | |l]; try reflexivity.
  simpl. rewrite (Hfp l (reach_here h l)).
  destruct (h !! l) as [c|] eqn:Hc; [|reflexivity].
  assert (Hmap : map (reify fuel h2) (children c)
                 = map (reify fuel h) (children c)).
  { apply map_ext_in. intros v Hin. apply IH.
    intros x Hx. apply Hfp. eapply reach_step; eassumption. }
  destruct c as [items|es|s p e o pr m]; simpl in Hmap; try reflexivity;
    now rewrite Hmap.
Qed.

Lemma reify_state_frame h h2 fuel root :
  (forall x, reach h (VRef root) x -> h2 !! x = h !! x) ->
  reify_state fuel h2 root = reify_state fuel h root.
Proof.
  intros Hfp. unfold reify_state. rewrite (Hfp root (reach_here h root)).
  destruct (h !! root) as [[items|es|s p e o pr m]|] eqn:Hc; try reflexivity.
  rewrite (reify_frame h h2 fuel pr), (reify_frame h h2 fuel m); [reflexivity| |];
    intros x Hx; apply Hfp; eapply reach_step; try eassumption; simpl; auto.
Qed.

(** A mutation that stays in one footprint is not seen from a value
    whose footprint is apart from it and holds no dangling reference. *)
Lemma mutation_unseen h h2 (footprint : loc -> Prop) root fuel :
  mutates_only footprint h h2 ->
  (forall x, reach h (VRef root) x -> x < length h /\ ~ footprint x) ->
  reify_state fuel h2 root = reify_state fuel h root.
Proof.
  intros Hmut Hapart. apply reify_state_frame. intros x Hx.
  destruct (Hapart x Hx) as [Hlt Hnot].
  destruct (lookup_lt_is_Some_2 h x Hlt) as [c Hc].
  rewrite Hc. eauto.
Qed.

End Footprints.

Section StateCopy.
Import Store.

(** [state] returns, and what it returns is a copy apart from everything
    the store held before. *)
Lemma state_spec h root :
  closed h -> root < length h ->
  exists h' snap memo,
    state h root = Some (h', snap)
    /\ length h <= snap < length h'
    /\ (forall l, l < length h -> h' !! l = h !! l)
    /\ old_closed (length h) h'
    /\ memo_ok (length h) h' memo
    /\ copied [] h' memo
    /\ memo_get root memo = Some snap.
Proof.
  intros Hclosed Hroot.
  assert (Hpre : pre (length h) [] h []).
  { unfold pre. split; [lia | split; [|split]].
    - intros l c _ Hc. eauto.
    - intros l l' Hl. discriminate.
    - intros l l' Hl. discriminate. }
  destruct (deepcopy_total (length h) (length h) [] h [] (VRef root) Hpre Hroot)
    as [[[h' memo] v'] Hrun].
  { unfold unvisited. rewrite List.filter_length_le, length_seq. lia. }
  destruct (deepcopy_spec (length h) (length h) [] h [] (VRef root)
                          h' memo v' Hpre Hroot Hrun) as [Hpost Hrel].
  destruct Hrel as (snap & -> & Hsnap).
  destruct (pre_post _ _ _ _ _ _ Hpre Hpost) as (_ & Hold & Hok & Hcop).
  destruct Hpost as (_ & Hsame & _).
  exists h', snap, memo. unfold state. rewrite Hrun.
  split; [reflexivity|]. split; [apply Hok in Hsnap; lia|]. auto.
Qed.

End StateCopy.

(* ===================================================================== *)
(** * The read accessor: the statement                                    *)
(* ===================================================================== *)

Section SnapshotStatements.
Import Store Samples.

(** C9. In a store without dangling references, [state] returns a new
    object, the snapshot. It reads as the live state does, nested bucket
    maps included, and the copy changes nothing that existed before. No
    object is reachable both from the snapshot and from an object that
    existed before it (the live state, an earlier snapshot). So a mutation
    confined to what such an earlier object reaches leaves the snapshot as
    it reads, and a mutation confined to what the snapshot reaches leaves
    the live state and every earlier snapshot as they read. *)
Theorem C9_state_is_independent_copy h root :
  closed h -> root < length h ->
  exists h' snap,
    state h root = Some (h', snap)
    /\ length h <= snap
    /\ (forall fuel, reify_state fuel h' snap = reify_state fuel h root)
    /\ (forall fuel other,
           other < length h ->
           reify_state fuel h' other = reify_state fuel h other)
    /\ (forall other x,
           other < length h ->
           reach h' (VRef snap) x -> ~ reach h' (VRef other) x)
    /\ (forall other h2 fuel,
           other < length h ->
           mutates_only (reach h' (VRef other)) h' h2 ->
           reify_state fuel h2 snap = reify_state fuel h' snap)
    /\ (forall other h2 fuel,
           other < length h ->
           mutates_only (reach h' (VRef snap)) h' h2 ->
           reify_state fuel h2 other = reify_state fuel h' other).
Proof.
  intros Hclosed Hroot.
  destruct (state_spec h root Hclosed Hroot)
    as (h' & snap & memo & Hstate & Hsnap & Hsame & Hold & Hok & Hcop & Hmemo).
  assert (Hnew : forall x, reach h' (VRef snap) x -> length h <= x < length h').
  { intros x Hx.
    destruct (reach_copy h' memo Hcop (VRef snap) x Hx) as [a Ha];
      [eauto|]. apply Hok in Ha. lia. }
  assert (Hbelow : forall other x,
             other < length h -> reach h' (VRef other) x -> x < length h).
  { intros other x Ho Hx. eapply reach_old; eauto. }
  exists h', snap.
  split; [exact Hstate|]. split; [lia|].
  split; [|split; [|split; [|split]]].
  - intros fuel. eapply reify_state_related; eauto.
  - intros fuel other Ho. apply reify_state_frame.
    intros x Hx. apply Hsame.
    eapply (reach_old (length h) h); eauto.
    intros l c _ Hc. eauto.
  - intros other x Ho Hx Hx'.
    apply Hnew in Hx. apply (Hbelow other x Ho) in Hx'. lia.
  - intros other h2 fuel Ho Hmut.
    eapply mutation_unseen; [exact Hmut|].
    intros x Hx. split; [apply Hnew in Hx; lia|].
    intros Hx'. apply Hnew in Hx. apply (Hbelow other x Ho) in Hx'. lia.
  - intros other h2 fuel Ho Hmut.
    eapply mutation_unseen; [exact Hmut|].
    intros x Hx. pose proof (Hbelow other x Ho Hx) as Hlt.
    split; [lia|]. intros Hx'. apply Hnew in Hx'. lia.
Qed.

End SnapshotStatements.

Section SnapshotExamples.
Import Py Store Samples.

Lemma live_store_closed : closed live_store.
Proof.
  intros l c Hc.
  do 3 (destruct l as [|l];
        [inversion Hc; subst; repeat constructor; simpl; lia|]).
  discriminate.
Qed.

Lemma C9_witness :
  closed live_store
  /\ live_root < length live_store
  /\ reify_state 3 live_store live_root = Some running_state
  /\ exists h' snap,
       state live_store live_root = Some (h', snap)
       /\ reify_state 3 h' snap = Some running_state
       /\ forall h2,
            mutates_only (reach h' (VRef live_root)) h' h2 ->
            reify_state 3 h2 snap = Some running_state.
Proof.
  assert (Hlt : live_root < length live_store) by (vm_compute; lia).
  assert (Hlive : reify_state 3 live_store live_root = Some running_state)
    by (vm_compute; reflexivity).
  split; [exact live_store_closed | split; [exact Hlt | split; [exact Hlive|]]].
  destruct (C9_state_is_independent_copy live_store live_root
              live_store_closed Hlt)
    as (h' & snap & Hstate & _ & Hcopy & _ & _ & Hwriter & _).
  exists h', snap. split; [exact Hstate|].
  split; [now rewrite Hcopy|].
  intros h2 Hmut. rewrite (Hwriter live_root h2 3 Hlt Hmut). now rewrite Hcopy.
Defined.

(** The same on one run: after the writer has overwritten the live
    bucket map, the live state reads differently and the snapshot reads
    as before. *)
Example snapshot_survives_overwrite :
  exists h' snap,
    state live_store live_root = Some (h', snap)
    /\ mutates_only (reach h' (VRef live_root)) h' (overwrite_buckets h')
    /\ reify_state 3 (overwrite_buckets h') live_root <> Some running_state
    /\ reify_state 3 (overwrite_buckets h') snap = Some running_state.
Proof.
  destruct (state live_store live_root) as [[h' snap]|] eqn:Hstate;
    [|vm_compute in Hstate; discriminate].
  exists h', snap. vm_compute in Hstate. inversion Hstate; subst.
  split; [reflexivity|]. split; [|split].
  - intros l c Hc Hnot. destruct l as [|l].
    + exfalso. apply Hnot.
      eapply reach_step; [reflexivity | right; left; reflexivity |].
      eapply reach_step; [reflexivity | |apply reach_here].
      simpl. auto.
    + exact Hc.
  - vm_compute. discriminate.
  - vm_compute. reflexivity.
Qed.

End SnapshotExamples.

Section IngestionExamples.
Import PyStr Py BPFtrace Spec Samples.

Lemma C2_witness :
  Json.loads empty_object_line = Some (PDict [])
  /\ status (with_status Starting BPFtraceState_init) = Starting
  /\ process_output Json.loads [empty_object_line; map_line] (Some 0%Z)
                    (with_status Starting BPFtraceState_init)
     = Raise KeyError
             (with_status Started (with_status Starting BPFtraceState_init)).
Proof.
  assert (Hl : Json.loads empty_object_line = Some (PDict []))
    by (vm_compute; reflexivity).
  split; [exact Hl | split; [reflexivity|]].
  exact (C2_empty_object_aborts Json.loads [map_line] (Some 0%Z)
           (with_status Starting BPFtraceState_init) Hl eq_refl).
Defined.

(** After a record, the empty object still ends the loop: the record
    that follows it is not read. *)
Example empty_object_mid_stream :
  process_output Json.loads [probes_line; empty_object_line; map_line]
                 (Some 0%Z) (with_status Starting BPFtraceState_init)
  = Raise KeyError
          (with_probes (PInt 3) (with_status Started BPFtraceState_init)).
Proof. vm_compute. reflexivity. Qed.

(** Records and free text, decoded from the lines as the child writes
    them. *)
Example ingestion_run :
  process_output Json.loads [text_line; probes_line; nl; map_line]
                 (Some 0%Z) (with_status Starting BPFtraceState_init)
  = Return tt (mkState Stopped None (Some 0%Z) text_line (PInt 3)
                       [(PStr "@x", PInt 5)]).
Proof. vm_compute. reflexivity. Qed.

End IngestionExamples.

(* ===================================================================== *)
(** * More on [process_output_obj]                                        *)
(* ===================================================================== *)

Section RecordFrame.
Import PyStr Py BPFtrace Spec Samples Cover.

Lemma stepped_fields st :
  pid (stepped st) = pid st /\ exit_code (stepped st) = exit_code st
  /\ output (stepped st) = output st /\ probes (stepped st) = probes st
  /\ maps (stepped st) = maps st.
Proof. unfold stepped. destruct (status st); repeat split. Qed.

Lemma hist_items_frame its : forall st,
  let st' := final_state (hist_items its st) in
  pid st' = pid st /\ exit_code st' = exit_code st
  /\ output st' = output st /\ probes st' = probes st.
Proof.
  induction its as [|[k v] its IH]; intros st; simpl; [auto|].
  unfold bind, lift, modify.
  destruct (iterate v) as [buckets|e]; simpl; [|auto].
  destruct (bucket_map buckets []) as [m|e]; simpl; [|auto].
  exact (IH (with_maps (dset k (PDict m) (maps st)) st)).
Qed.

(** A record, whatever it is and whether or not processing it raises,
    leaves the pid, the exit code and the free-text output as they
    were. *)
Theorem process_output_obj_frame obj st :
  pid (final_state (process_output_obj obj st)) = pid st
  /\ exit_code (final_state (process_output_obj obj st)) = exit_code st
  /\ output (final_state (process_output_obj obj st)) = output st.
Proof.
  destruct (stepped_fields st) as (Hp & He & Ho & _).
  rewrite <- Hp, <- He, <- Ho.
  unfold process_output_obj, bind, modify, lift, ret, raise, get.
  fold (stepped st). generalize (stepped st). clear. intros st.
  destruct (getitem obj "type") as [ty|e]; [|auto].
  destruct (eq_str ty "attached_probes").
  { destruct (getitem obj "probes"); simpl; auto. }
  destruct (eq_str ty "map").
  { destruct (getitem obj "data") as [d|]; simpl; [|auto].
    unfold maps_update. destruct (update d (maps st)) as [m [e|]]; simpl; auto. }
  destruct (eq_str ty "hist").
  { destruct (getitem obj "data") as [d|]; simpl; [|auto].
    destruct (items d) as [its|]; simpl; [|auto].
    destruct (hist_items_frame its st) as (H1 & H2 & H3 & _). auto. }
  destruct (eq_str ty "printf" || eq_str ty "time"); simpl; [|auto].
  destruct (getitem obj "msg") as [msg|]; simpl; [|auto].
  destruct (add _ msg); simpl; auto.
Qed.

(** Only an [attached_probes] record changes the probe count. *)
Theorem probes_only_by_attached_probes obj st :
  (forall ty, getitem obj "type" = Ok ty -> eq_str ty "attached_probes" = false) ->
  probes (final_state (process_output_obj obj st)) = probes st.
Proof.
  intros Hty.
  destruct (stepped_fields st) as (_ & _ & _ & Hp & _). rewrite <- Hp.
  unfold process_output_obj, bind, modify, lift, ret, raise, get.
  fold (stepped st). generalize (stepped st). clear Hp. intros st1.
  destruct (getitem obj "type") as [ty|e]; [|reflexivity].
  rewrite (Hty ty eq_refl).
  destruct (eq_str ty "map").
  { destruct (getitem obj "data") as [d|]; simpl; [|reflexivity].
    unfold maps_update. destruct (update d (maps st1)) as [m [e|]]; reflexivity. }
  destruct (eq_str ty "hist").
  { destruct (getitem obj "data") as [d|]; simpl; [|reflexivity].
    destruct (items d) as [its|]; simpl; [|reflexivity].
    apply hist_items_frame. }
  destruct (eq_str ty "printf" || eq_str ty "time"); simpl; [|reflexivity].
  destruct (getitem obj "msg") as [msg|]; simpl; [|reflexivity].
  destruct (add _ msg); reflexivity.
Qed.

Lemma probes_only_by_attached_probes_witness :
  (forall ty, getitem map_record "type" = Ok ty ->
              eq_str ty "attached_probes" = false)
  /\ probes (final_state (process_output_obj map_record running_state))
     = probes running_state.
Proof.
  assert (H : forall ty, getitem map_record "type" = Ok ty ->
                         eq_str ty "attached_probes" = false)
    by (intros ty Hty; vm_compute in Hty; inversion Hty; reflexivity).
  split; [exact H|].
  exact (probes_only_by_attached_probes map_record running_state H).
Defined.

(** A record whose [type] is none of the five the module knows changes
    nothing but the status, and raises nothing, whatever else it holds. *)
Theorem unknown_type_ignored obj ty st :
  getitem obj "type" = Ok ty -> known_type ty = false ->
  process_output_obj obj st = Return tt (stepped st).
Proof.
  intros Hty Hk. unfold known_type in Hk.
  repeat (apply orb_false_iff in Hk; destruct Hk as [Hk ?]).
  unfold process_output_obj, bind, modify, lift, ret, raise, get.
  fold (stepped st). rewrite Hty. simpl.
  repeat match goal with H : eq_str ty _ = false |- _ => rewrite H; clear H end.
  reflexivity.
Qed.

Lemma unknown_type_ignored_witness :
  getitem lost_events_record "type" = Ok (PStr "lost_events")
  /\ known_type (PStr "lost_events") = false
  /\ process_output_obj lost_events_record running_state
     = Return tt running_state.
Proof.
  split; [reflexivity | split; [reflexivity|]].
  exact (unknown_type_ignored lost_events_record (PStr "lost_events")
           running_state eq_refl eq_refl).
Defined.

(** Once a record has been processed, with or without an exception, the
    status is not STARTING: no metric is visible before STARTED. *)
Theorem never_starting_after_record obj st :
  status (final_state (process_output_obj obj st)) <> Starting.
Proof.
  rewrite process_output_obj_status. destruct (status st); discriminate.
Qed.

End RecordFrame.

Section RecordMerge.
Import PyStr Py BPFtrace Spec Samples Cover.

Lemma update_fold_lookup a m : forall d,
  str_keys m ->
  dget (PStr a) (Dict.update key_eqb m d)
  = match last_value a m with
    | Some v => Some v
    | None => dget (PStr a) d
    end.
Proof.
  unfold Dict.update.
  induction m as [|[k v] m IH]; intros d Hkeys; simpl; [reflexivity|].
  inversion Hkeys as [|? ? [b Hb] Hkeys']; subst. simpl in Hb. subst k.
  rewrite (IH _ Hkeys'). destruct (last_value a m); [reflexivity|].
  simpl. destruct (String.eqb b a) eqn:E.
  - apply String.eqb_eq in E. subst. apply dget_dset_same.
  - apply String.eqb_neq in E. now apply dget_dset_other.
Qed.

(** A [map] record merges its [data] into the metrics: a metric the data
    names gets the value the data gives it, every metric it does not name
    keeps its value, and the probe count stays. *)
Theorem map_record_merges obj m st :
  getitem obj "type" = Ok (PStr "map") ->
  getitem obj "data" = Ok (PDict m) ->
  str_keys m ->
  exists st',
    process_output_obj obj st = Return tt st'
    /\ probes st' = probes st
    /\ forall a, dget (PStr a) (maps st')
                 = match last_value a m with
                   | Some v => Some v
                   | None => dget (PStr a) (maps st)
                   end.
Proof.
  intros Hty Hdata Hkeys.
  destruct (stepped_fields st) as (_ & _ & _ & Hp & Hm).
  unfold process_output_obj, bind, modify, lift, ret, raise, get.
  fold (stepped st). rewrite Hty. simpl. rewrite Hdata. simpl.
  unfold maps_update. simpl.
  eexists. split; [reflexivity|]. simpl. split; [exact Hp|].
  intros a. rewrite update_fold_lookup by assumption. now rewrite Hm.
Qed.

Lemma map_record_merges_witness :
  str_keys [(PStr "@x", PInt 7); (PStr "@y", PInt 2)]
  /\ exists st',
       process_output_obj map_record_two running_state = Return tt st'
       /\ dget (PStr "@x") (maps st') = Some (PInt 7)
       /\ dget (PStr "@y") (maps st') = Some (PInt 2)
       /\ dget (PStr "@h") (maps st') = dget (PStr "@h") (maps running_state).
Proof.
  assert (Hk : str_keys [(PStr "@x", PInt 7); (PStr "@y", PInt 2)])
    by (repeat constructor; simpl; eauto).
  split; [exact Hk|].
  destruct (map_record_merges map_record_two _ running_state
              eq_refl eq_refl Hk) as (st' & Hrun & _ & Hget).
  exists st'. split; [exact Hrun|]. rewrite !Hget. repeat split.
Defined.

(** A [hist] record changes only the metrics it names; the others and
    the probe count stay. *)
Theorem hist_record_touches_named_only obj data st :
  getitem obj "type" = Ok (PStr "hist") ->
  getitem obj "data" = Ok (PDict data) ->
  hist_data_ok data ->
  exists st',
    process_output_obj obj st = Return tt st'
    /\ probes st' = probes st
    /\ forall name, ~ In (PStr name) (map fst data) ->
                    dget (PStr name) (maps st') = dget (PStr name) (maps st).
Proof.
  intros Hty Hdata Hok.
  destruct (stepped_fields st) as (_ & _ & _ & Hp & Hm).
  unfold process_output_obj, bind, modify, lift, ret, raise, get.
  fold (stepped st). rewrite Hty. simpl. rewrite Hdata. simpl.
  destruct (hist_items_spec data Hok (stepped st)) as (st' & Hrun & _ & Hout).
  exists st'. split; [exact Hrun|]. split.
  - destruct (hist_items_frame data (stepped st)) as (_ & _ & _ & H).
    rewrite Hrun in H. simpl in H. congruence.
  - intros name Hn. rewrite (Hout name Hn). now rewrite Hm.
Qed.

Lemma hist_record_touches_named_only_witness :
  hist_data_ok hist_data
  /\ exists st',
       process_output_obj hist_record running_state = Return tt st'
       /\ probes st' = PInt 3
       /\ dget (PStr "@x") (maps st') = Some (PInt 5).
Proof.
  assert (Hok : hist_data_ok hist_data).
  { split.
    - simpl. apply List.NoDup_cons; [simpl; tauto | apply List.NoDup_nil].
    - intros k v [Heq | []]. inversion Heq; subst.
      eexists. eexists. split; [reflexivity|]. split; [reflexivity|].
      repeat constructor; eexists; eexists; split; reflexivity. }
  split; [exact Hok|].
  destruct (hist_record_touches_named_only hist_record hist_data running_state
              eq_refl eq_refl Hok) as (st' & Hrun & Hp & Hout).
  exists st'. split; [exact Hrun|]. split; [exact Hp|].
  rewrite Hout; [reflexivity|]. simpl. intros [H | []]. discriminate.
Defined.

(** When the console metric holds something that is not a string (a
    [map] record can put a number there), a [printf] or [time] record
    with a string message raises [TypeError] and stores nothing. *)
Theorem console_not_text_raises obj ty msg cur st :
  getitem obj "type" = Ok (PStr ty) ->
  ty = "printf" \/ ty = "time" ->
  getitem obj "msg" = Ok (PStr msg) ->
  dget (PStr "@printf") (maps st) = Some cur ->
  (forall s, cur <> PStr s) ->
  process_output_obj obj st = Raise TypeError (stepped st).
Proof.
  intros Hty Hkind Hmsg Hcur Hnot.
  destruct (stepped_fields st) as (_ & _ & _ & _ & Hm).
  destruct Hkind as [-> | ->];
    unfold process_output_obj, bind, modify, lift, ret, raise, get;
    fold (stepped st); rewrite Hty; simpl; rewrite Hmsg; simpl;
    rewrite Hm, Hcur;
    destruct cur as [|b| | | |]; try reflexivity;
    try (destruct b; reflexivity);
    exfalso; eapply Hnot; reflexivity.
Qed.

Lemma console_not_text_raises_witness :
  exists st1,
    process_output_obj console_number_record BPFtraceState_init = Return tt st1
    /\ dget (PStr "@printf") (maps st1) = Some (PInt 5)
    /\ process_output_obj (printf_record "a") st1 = Raise TypeError st1.
Proof.
  eexists. split; [vm_compute; reflexivity|]. split; [reflexivity|].
  apply (console_not_text_raises (printf_record "a") "printf" "a" (PInt 5));
    auto; discriminate.
Defined.

End RecordMerge.

(* ===================================================================== *)
(** * More on [process_output]                                            *)
(* ===================================================================== *)

Section StreamFacts.
Import PyStr Py BPFtrace Spec Samples Cover.
Variable json_loads : string -> option value.

Lemma str_app_empty_r (s : string) : s ++ "" = s.
Proof. induction s as [|c s IH]; simpl; [reflexivity | now rewrite IH]. Qed.

Lemma nonblank_true line :
  nonblank line = true -> line <> "" /\ isspace line = false.
Proof.
  unfold nonblank. rewrite negb_true_iff, orb_false_iff.
  intros [Hne Hsp]. split; [|exact Hsp]. intros ->. discriminate.
Qed.

Lemma process_line_blank line st :
  nonblank line = false -> process_line json_loads line st = Return tt st.
Proof.
  unfold nonblank, process_line. rewrite negb_false_iff. intros ->. reflexivity.
Qed.

Lemma process_lines_undecodable lines : forall st,
  (forall line, In line lines -> json_loads line = None) ->
  process_lines json_loads lines st
  = Return tt (with_output
                 (output st ++ concat_lines (List.filter nonblank lines)) st).
Proof.
  induction lines as [|line lines IH]; intros st Hall; simpl.
  - rewrite str_app_empty_r. destruct st; reflexivity.
  - unfold bind. destruct (nonblank line) eqn:Hnb.
    + destruct (nonblank_true _ Hnb) as [Hne Hsp].
      rewrite (process_line_undecodable json_loads line st);
        [|apply Hall; left; reflexivity|exact Hne|exact Hsp].
      rewrite IH by (intros l Hl; apply Hall; right; exact Hl).
      simpl. now rewrite app_assoc_s.
    + rewrite (process_line_blank _ _ Hnb). apply IH.
      intros l Hl. apply Hall. right. exact Hl.
Qed.

(** A child that never writes a line [json.loads] accepts: [process_output]
    returns, [output] holds the lines that are not blank, in order and
    unchanged, after what it held; the metrics, the probe count and the
    pid stay; the status is STOPPED and the exit code is recorded. *)
Theorem undecodable_stream_captured lines returncode st :
  (forall line, In line lines -> json_loads line = None) ->
  process_output json_loads lines returncode st
  = Return tt (mkState Stopped (pid st) returncode
                       (output st ++ concat_lines (List.filter nonblank lines))
                       (probes st) (maps st)).
Proof.
  intros Hall. unfold process_output, bind.
  rewrite process_lines_undecodable by assumption. reflexivity.
Qed.

(** [ValueError] raised while the record is processed is caught like a
    decoding error: a [map] record whose [data] is a non-empty string
    makes [dict.update] raise it, and the line goes to [output]; the
    metrics stay, the status has taken its step. *)
Theorem map_text_data_captured line obj text st :
  json_loads line = Some obj -> nonblank line = true ->
  getitem obj "type" = Ok (PStr "map") ->
  getitem obj "data" = Ok (PStr text) -> text <> "" ->
  process_line json_loads line st
  = Return tt (with_output (output st ++ line) (stepped st)).
Proof.
  intros Hl Hnb Hty Hdata Htext.
  destruct (nonblank_true _ Hnb) as [Hne Hsp].
  destruct (stepped_fields st) as (_ & _ & Ho & _ & Hm).
  rewrite (process_line_decoded json_loads line obj st Hl Hne Hsp).
  unfold try_except_ValueError, process_output_obj,
    bind, modify, lift, ret, raise, get.
  fold (stepped st). rewrite Hty. simpl. rewrite Hdata. simpl.
  destruct text as [|c text]; [congruence|].
  unfold maps_update. simpl. rewrite Ho.
  destruct (stepped st); reflexivity.
Qed.

(** A decoded value that is not an object with a [type] ends the loop:
    the exception is not [ValueError], the state has only taken the status
    step, and neither the rest of the lines nor the final STOPPED is
    reached. *)
Theorem untyped_value_aborts line obj lines returncode st :
  json_loads line = Some obj -> nonblank line = true ->
  (forall ty, getitem obj "type" <> Ok ty) ->
  exists e,
    e <> ValueError
    /\ process_output json_loads (line :: lines) returncode st
       = Raise e (stepped st).
Proof.
  intros Hl Hnb Hty. destruct (nonblank_true _ Hnb) as [Hne Hsp].
  destruct (getitem obj "type") as [ty|e] eqn:Hg; [destruct (Hty ty eq_refl)|].
  exists e. split.
  - unfold getitem in Hg. destruct obj; try (inversion Hg; discriminate).
    destruct (dget (PStr "type") d); inversion Hg. discriminate.
  - apply process_output_first_raises.
    rewrite (process_line_decoded json_loads line obj st Hl Hne Hsp).
    unfold try_except_ValueError, process_output_obj,
      bind, modify, lift, ret, raise, get.
    fold (stepped st). rewrite Hg. simpl.
    unfold getitem in Hg. destruct obj; try (inversion Hg; reflexivity).
    destruct (dget (PStr "type") d); inversion Hg. reflexivity.
Qed.

(** When [process_output] returns, the status is STOPPED with the exit
    code recorded; an explicit [stop] then raises, and [start] is allowed
    again. *)
Theorem stop_after_exit_raises lines returncode st st' :
  process_output json_loads lines returncode st = Return tt st' ->
  status st' = Stopped /\ exit_code st' = returncode
  /\ (forall wait rc, stop wait rc st' = Raise (cannot "stop" Stopped) st')
  /\ (forall child, exists st2,
         start (Ok child) st' = Return tt st2 /\ status st2 = Starting).
Proof.
  unfold process_output, bind, modify.
  destruct (process_lines json_loads lines st) as [[] st1|e st1];
    [|discriminate].
  intros H. inversion H; subst. split; [reflexivity|]. split; [reflexivity|].
  split.
  - intros wait rc. reflexivity.
  - intros child. eexists. split; reflexivity.
Qed.

End StreamFacts.

Section StreamExamples.
Import PyStr Py BPFtrace Spec Samples Cover.

Lemma undecodable_stream_captured_witness :
  (forall line, In line [text_line; nl; "ERROR: no probes" ++ nl] ->
                Json.loads line = None)
  /\ process_output Json.loads [text_line; nl; "ERROR: no probes" ++ nl]
                    (Some 1%Z) (with_status Starting BPFtraceState_init)
     = Return tt (mkState Stopped None (Some 1%Z)
                          (text_line ++ "ERROR: no probes" ++ nl)
                          (PInt 0) []).
Proof.
  assert (H : forall line, In line [text_line; nl; "ERROR: no probes" ++ nl] ->
                           Json.loads line = None).
  { intros line [<- | [<- | [<- | []]]]; vm_compute; reflexivity. }
  split; [exact H|].
  exact (undecodable_stream_captured Json.loads _ (Some 1%Z)
           (with_status Starting BPFtraceState_init) H).
Defined.

Lemma map_text_data_captured_witness :
  Json.loads map_text_line
  = Some (record [("type", PStr "map"); ("data", PStr "x")])
  /\ nonblank map_text_line = true
  /\ process_line Json.loads map_text_line
                  (with_status Starting BPFtraceState_init)
     = Return tt (with_output map_text_line
                              (with_status Started BPFtraceState_init)).
Proof.
  assert (Hl : Json.loads map_text_line
               = Some (record [("type", PStr "map"); ("data", PStr "x")]))
    by (vm_compute; reflexivity).
  assert (Hnb : nonblank map_text_line = true) by (vm_compute; reflexivity).
  assert (Hne : "x" <> "") by discriminate.
  split; [exact Hl | split; [exact Hnb|]].
  exact (map_text_data_captured Json.loads map_text_line _ "x"
           (with_status Starting BPFtraceState_init)
           Hl Hnb eq_refl eq_refl Hne).
Defined.

Lemma untyped_value_aborts_witness :
  Json.loads ("[1, 2]" ++ nl) = Some (PList [PInt 1; PInt 2])
  /\ nonblank ("[1, 2]" ++ nl) = true
  /\ exists e,
       e <> ValueError
       /\ process_output Json.loads [("[1, 2]" ++ nl); map_line] (Some 0%Z)
                         running_state
          = Raise e running_state.
Proof.
  assert (Hl : Json.loads ("[1, 2]" ++ nl) = Some (PList [PInt 1; PInt 2]))
    by (vm_compute; reflexivity).
  assert (Hnb : nonblank ("[1, 2]" ++ nl) = true) by (vm_compute; reflexivity).
  split; [exact Hl | split; [exact Hnb|]].
  apply (untyped_value_aborts Json.loads _ _ [map_line] (Some 0%Z)
           running_state Hl Hnb).
  intros ty. discriminate.
Defined.

Lemma stop_after_exit_raises_witness :
  process_output Json.loads [probes_line; map_line] (Some 0%Z)
                 (with_status Starting BPFtraceState_init)
  = Return tt (mkState Stopped None (Some 0%Z) "" (PInt 3)
                       [(PStr "@x", PInt 5)])
  /\ stop true (Some 0%Z)
          (mkState Stopped None (Some 0%Z) "" (PInt 3) [(PStr "@x", PInt 5)])
     = Raise (cannot "stop" Stopped)
             (mkState Stopped None (Some 0%Z) "" (PInt 3) [(PStr "@x", PInt 5)]).
Proof.
  assert (Hrun : process_output Json.loads [probes_line; map_line] (Some 0%Z)
                   (with_status Starting BPFtraceState_init)
                 = Return tt (mkState Stopped None (Some 0%Z) "" (PInt 3)
                                      [(PStr "@x", PInt 5)]))
    by (vm_compute; reflexivity).
  split; [exact Hrun|].
  destruct (stop_after_exit_raises Json.loads _ _ _ _ Hrun)
    as (_ & _ & Hstop & _).
  apply Hstop.
Defined.

End StreamExamples.

(* ===================================================================== *)
(** * More on [start] and [stop]                                          *)
(* ===================================================================== *)

Section LifecycleFacts.
Import PyStr Py BPFtrace Spec Samples Cover.

(** When [subprocess.Popen] raises, [start] has already reset the state
    and set the status to STARTING, and nothing sets it back: the
    exception goes to the caller, and from then on every [start] and
    every [stop] raises [BPFtraceError]. *)
Theorem failed_spawn_blocks_instance e st :
  status st = Stopped ->
  exists st1,
    start (Err e) st = Raise e st1
    /\ st1 = mkState Starting None None "" (PInt 0) []
    /\ (forall popen, start popen st1 = Raise (cannot "start" Starting) st1)
    /\ (forall wait rc, stop wait rc st1 = Raise (cannot "stop" Starting) st1).
Proof.
  intros Hst. unfold start, start_locked, bind, get, modify, lift, raise.
  rewrite Hst. simpl. eexists. split; [reflexivity|]. split; [reflexivity|].
  split; reflexivity.
Qed.

Lemma failed_spawn_blocks_instance_witness :
  status BPFtraceState_init = Stopped
  /\ exists st1,
       start (Err OSError) BPFtraceState_init = Raise OSError st1
       /\ start (Ok 4242%Z) st1 = Raise (cannot "start" Starting) st1.
Proof.
  split; [reflexivity|].
  destruct (failed_spawn_blocks_instance OSError BPFtraceState_init eq_refl)
    as (st1 & Hrun & _ & Hstart & _).
  exists st1. split; [exact Hrun | apply Hstart].
Defined.

Lemma process_output_obj_pid obj st :
  pid (final_state (process_output_obj obj st)) = pid st.
Proof.
  destruct (stepped_fields st) as (Hp & _). rewrite <- Hp.
  unfold process_output_obj, bind, modify, lift, ret, raise, get.
  fold (stepped st). generalize (stepped st). clear. intros st.
  destruct (getitem obj "type") as [ty|e]; [|reflexivity].
  destruct (eq_str ty "attached_probes").
  { destruct (getitem obj "probes"); reflexivity. }
  destruct (eq_str ty "map").
  { destruct (getitem obj "data") as [d|]; simpl; [|reflexivity].
    unfold maps_update. destruct (update d (maps st)) as [m [e|]]; reflexivity. }
  destruct (eq_str ty "hist").
  { destruct (getitem obj "data") as [d|]; simpl; [|reflexivity].
    destruct (items d) as [its|]; simpl; [|reflexivity].
    apply hist_items_frame. }
  destruct (eq_str ty "printf" || eq_str ty "time"); simpl; [|reflexivity].
  destruct (getitem obj "msg") as [msg|]; simpl; [|reflexivity].
  destruct (add _ msg); reflexivity.
Qed.

Lemma process_line_pid json_loads line st :
  pid (final_state (process_line json_loads line st)) = pid st.
Proof.
  unfold process_line.
  destruct ((match line with EmptyString => true | _ => false end)
            || isspace line); [reflexivity|].
  unfold try_except_ValueError, bind, ret, raise, modify.
  destruct (json_loads line) as [obj|]; [|reflexivity].
  pose proof (process_output_obj_pid obj st) as H.
  destruct (process_output_obj obj st) as [[] st1|e st1]; simpl in *;
    [exact H|].
  destruct e; simpl; exact H.
Qed.

Lemma process_lines_pid json_loads lines : forall st,
  pid (final_state (process_lines json_loads lines st)) = pid st.
Proof.
  induction lines as [|line lines IH]; intros st; simpl; [reflexivity|].
  unfold bind.
  pose proof (process_line_pid json_loads line st) as H.
  destruct (process_line json_loads line st) as [[] st1|e st1]; simpl in *.
  - rewrite IH. exact H.
  - exact H.
Qed.

(** [stop(wait=False)] does not wait for the thread that reads the old
    child, and [start] resets the state that thread writes to. In the
    schedule where the old reader handles its remaining lines and returns
    after the new [start], it leaves the new run with the status STOPPED
    and the exit code it polls, next to the pid of the new child: a
    [stop] then raises although that child runs, and a further [start]
    is accepted. *)
Theorem stale_reader_stops_new_run
        json_loads returncode child lines polled st st' :
  status st = Started ->
  (stop false returncode ;; start (Ok child) ;;
   process_output json_loads lines polled) st = Return tt st' ->
  status st' = Stopped /\ pid st' = Some child /\ exit_code st' = polled
  /\ (forall wait rc, stop wait rc st' = Raise (cannot "stop" Stopped) st')
  /\ (forall child2, exists st2,
         start (Ok child2) st' = Return tt st2 /\ status st2 = Starting).
Proof.
  intros Hst.
  unfold stop, stop_locked, start, start_locked, bind at 1 2 3 4 5,
    get, modify, lift, ret.
  rewrite Hst. simpl.
  set (fresh := with_pid (Some child) _).
  unfold process_output, bind, modify.
  pose proof (process_lines_pid json_loads lines fresh) as Hpid.
  destruct (process_lines json_loads lines fresh) as [[] st1|e st1];
    [|discriminate].
  intros H. inversion H; subst. simpl in Hpid.
  split; [reflexivity|]. split; [exact Hpid|]. split; [reflexivity|].
  split.
  - intros wait rc. reflexivity.
  - intros child2. eexists. split; reflexivity.
Qed.

Lemma stale_reader_stops_new_run_witness :
  status running_state = Started
  /\ (stop false None ;; start (Ok 4300%Z) ;;
      process_output Json.loads [map_line] None) running_state
     = Return tt (mkState Stopped (Some 4300%Z) None "" (PInt 0)
                          [(PStr "@x", PInt 5)])
  /\ stop false None (mkState Stopped (Some 4300%Z) None "" (PInt 0)
                              [(PStr "@x", PInt 5)])
     = Raise (cannot "stop" Stopped)
             (mkState Stopped (Some 4300%Z) None "" (PInt 0)
                      [(PStr "@x", PInt 5)]).
Proof.
  assert (Hrun : (stop false None ;; start (Ok 4300%Z) ;;
                  process_output Json.loads [map_line] None) running_state
                 = Return tt (mkState Stopped (Some 4300%Z) None "" (PInt 0)
                                      [(PStr "@x", PInt 5)]))
    by (vm_compute; reflexivity).
  split; [reflexivity | split; [exact Hrun|]].
  destruct (stale_reader_stops_new_run Json.loads None 4300%Z [map_line] None
              running_state _ eq_refl Hrun) as (_ & _ & _ & Hstop & _).
  apply Hstop.
Defined.

End LifecycleFacts.

(* ===================================================================== *)
(** * More on [parse_script]                                              *)
(* ===================================================================== *)

Section DeclarationFacts.
Import PyStr Re Patterns Py BPFtrace Spec Samples Cover.

Lemma str_get_set_other k k' (v : BPFtraceVarDef) d :
  k <> k' ->
  Dict.get String.eqb k' (Dict.set String.eqb k v d) = Dict.get String.eqb k' d.
Proof.
  intros Hne. apply dict_get_set_other.
  - apply String.eqb_refl.
  - intros x Hx. apply String.eqb_eq in Hx. subst x. now apply String.eqb_neq.
Qed.

Lemma str_get_set_same k (v : BPFtraceVarDef) d :
  Dict.get String.eqb k (Dict.set String.eqb k v d) = Some v.
Proof. apply dict_get_set_same. apply String.eqb_refl. Qed.

Lemma declare_get md vars : forall acc var,
  Dict.get String.eqb var (declare md vars acc)
  = if excluded md var then Dict.get String.eqb var acc
    else match last_def var vars with
         | Some d => Some d
         | None => Dict.get String.eqb var acc
         end.
Proof.
  induction vars as [|[[v key] func] vars IH]; intros acc var; simpl.
  - destruct (excluded md var); reflexivity.
  - destruct (excluded md v) eqn:Hv; rewrite IH;
      destruct (excluded md var) eqn:Hvar; try reflexivity.
    + destruct (last_def var vars); [reflexivity|].
      destruct (String.eqb v var) eqn:E; [|reflexivity].
      apply String.eqb_eq in E. congruence.
    + apply str_get_set_other. congruence.
    + destruct (last_def var vars); [reflexivity|].
      destruct (String.eqb v var) eqn:E.
      * apply String.eqb_eq in E. subst. apply str_get_set_same.
      * apply String.eqb_neq in E. now apply str_get_set_other.
Qed.

Lemma script_variables_declare script :
  script_variables script
  = declare (metadata_of script) (find_variables script) [].
Proof.
  unfold script_variables, declare_variables.
  destruct (find_variables script); reflexivity.
Qed.

Lemma last_def_u64 var vars d :
  last_def var vars = Some d -> datatype d = PM_TYPE_U64.
Proof.
  induction vars as [|[[v key] func] vars IH]; simpl; [discriminate|].
  destruct (last_def var vars); [exact IH|].
  destruct (String.eqb v var); [|discriminate].
  intros H. inversion H. unfold vardef_of.
  destruct (mem func ["hist"; "lhist"]), (String.eqb func "count"), key;
    reflexivity.
Qed.

Lemma declarations_get script var :
  Dict.get String.eqb var (declarations script)
  = if String.eqb var "@printf" && console_declared script
    then Some printf_def
    else if excluded (metadata_of script) var then None
         else last_def var (find_variables script).
Proof.
  unfold declarations, declare_printf. fold (script_variables script).
  fold (console_declared script).
  assert (Hvars : Dict.get String.eqb var (script_variables script)
                  = if excluded (metadata_of script) var then None
                    else last_def var (find_variables script)).
  { rewrite script_variables_declare, declare_get. simpl.
    destruct (excluded _ var); [reflexivity|].
    now destruct (last_def var (find_variables script)). }
  destruct (console_declared script); simpl.
  - destruct (String.eqb var "@printf") eqn:E; simpl.
    + apply String.eqb_eq in E. subst. apply str_get_set_same.
    + apply String.eqb_neq in E. rewrite str_get_set_other by congruence.
      exact Hvars.
  - rewrite andb_false_r. exact Hvars.
Qed.

(** A variable assigned several times is declared with the descriptor of
    its last assignment: a later plain assignment turns a counter or a
    histogram back into an INSTANT metric. A variable the [include] list
    leaves out is not declared. *)
Theorem last_assignment_decides script md defs script' var :
  parse_script script = Ok (md, defs, script') ->
  var <> "@printf" ->
  Dict.get String.eqb var defs
  = if excluded md var then None
    else last_def var (find_variables script).
Proof.
  intros Hok Hvar.
  apply parse_script_ok_inv in Hok. destruct Hok as (-> & -> & _ & _).
  rewrite declarations_get.
  apply String.eqb_neq in Hvar. now rewrite Hvar.
Qed.

Lemma last_assignment_decides_witness :
  find_variables two_metrics
  = [("@x", "[pid]", "count"); ("@y", "", "hist"); ("@x", "[0]", "")]
  /\ exists md defs script',
       parse_script two_metrics = Ok (md, defs, script')
       /\ Dict.get String.eqb "@x" defs
          = Some (mkVarDef false PM_SEM_INSTANT PM_TYPE_U64).
Proof.
  split; [vm_compute; reflexivity|].
  destruct (parse_script two_metrics) as [[[md defs] s']|e] eqn:Hp;
    [|vm_compute in Hp; discriminate].
  exists md, defs, s'. split; [reflexivity|].
  rewrite (last_assignment_decides two_metrics md defs s' "@x" Hp)
    by discriminate.
  vm_compute in Hp. inversion Hp; subst. vm_compute. reflexivity.
Defined.

(** The datatype of a declared metric is STRING for [@printf] when the
    console metric is declared, and unsigned integer in every other case.
    When the script also assigns a variable named [@printf], the console
    descriptor replaces the variable's. *)
Theorem datatype_of_declared script md defs script' var d :
  parse_script script = Ok (md, defs, script') ->
  Dict.get String.eqb var defs = Some d ->
  (String.eqb var "@printf" && console_declared script = true
   -> d = printf_def)
  /\ datatype d
     = if String.eqb var "@printf" && console_declared script
       then PM_TYPE_STRING else PM_TYPE_U64.
Proof.
  intros Hok Hget.
  apply parse_script_ok_inv in Hok. destruct Hok as (-> & -> & _ & _).
  rewrite declarations_get in Hget.
  destruct (String.eqb var "@printf" && console_declared script).
  - inversion Hget. split; reflexivity.
  - split; [discriminate|].
    destruct (excluded (metadata_of script) var); [discriminate|].
    eapply last_def_u64; eassumption.
Qed.

Lemma datatype_of_declared_witness :
  parse_script console_clash
  = Ok (mkMeta None None, [("@printf", printf_def)],
        console_clash ++ " interval:s:1 { print(@printf); }")
  /\ find_variables console_clash = [("@printf", "", "count")]
  /\ datatype printf_def = PM_TYPE_STRING.
Proof.
  assert (Hp : parse_script console_clash
               = Ok (mkMeta None None, [("@printf", printf_def)],
                     console_clash ++ " interval:s:1 { print(@printf); }"))
    by (vm_compute; reflexivity).
  split; [exact Hp | split; [vm_compute; reflexivity|]].
  destruct (datatype_of_declared console_clash _ _ _ "@printf" printf_def
              Hp eq_refl) as [_ Hd].
  rewrite Hd. vm_compute. reflexivity.
Defined.

End DeclarationFacts.

Section AnnotationFacts.
Import PyStr Re Patterns Py BPFtrace Spec Samples Cover.

Lemma last_opt_cons {A} (x : A) l :
  last_opt (x :: l) = match last_opt l with Some y => Some y | None => Some x end.
Proof.
  revert x. induction l as [|y l IH]; intros x; [reflexivity|].
  change (last_opt (x :: y :: l)) with (last_opt (y :: l)).
  rewrite (IH y). destruct (last_opt l); reflexivity.
Qed.

Lemma scan_metadata_last pairs : forall md,
  md_name (scan_metadata pairs md)
  = match last_opt (map snd (List.filter (fun kv => String.eqb (fst kv) "name") pairs)) with
    | Some v => Some v
    | None => md_name md
    end
  /\ md_include (scan_metadata pairs md)
     = match last_opt (map snd (List.filter (fun kv => String.eqb (fst kv) "include") pairs)) with
       | Some v => Some (split "," v)
       | None => md_include md
       end.
Proof.
  induction pairs as [|[key val] pairs IH]; intros md; [split; reflexivity|].
  cbn [scan_metadata List.filter fst].
  destruct (String.eqb key "name") eqn:Hn.
  - apply String.eqb_eq in Hn. subst key. cbn [String.eqb Ascii.eqb Bool.eqb].
    destruct (IH (mkMeta (Some val) (md_include md))) as [H1 H2].
    rewrite H1, H2. cbn [map snd]. rewrite last_opt_cons. simpl.
    split; [|reflexivity].
    match goal with |- context [last_opt ?l] => destruct (last_opt l) end;
      reflexivity.
  - destruct (String.eqb key "include") eqn:Hi.
    + destruct (IH (mkMeta (md_name md) (Some (split "," val)))) as [H1 H2].
      rewrite H1, H2. cbn [map snd]. rewrite last_opt_cons. simpl.
      split; [reflexivity|].
      match goal with |- context [last_opt ?l] => destruct (last_opt l) end;
        reflexivity.
    + apply IH.
Qed.

Lemma metadata_of_last script :
  md_name (metadata_of script) = last_opt (declared_names script)
  /\ md_include (metadata_of script)
     = match last_opt (include_values script) with
       | Some v => Some (split "," v)
       | None => None
       end.
Proof.
  unfold metadata_of, declared_names, include_values.
  destruct (scan_metadata_last (find_metadata script) (mkMeta None None))
    as [H1 H2].
  rewrite H1, H2. simpl.
  split; match goal with |- context [last_opt ?l] => destruct (last_opt l) end;
    reflexivity.
Qed.

(** When an annotation is written more than once, the last one counts:
    the name is the value of the last [name] annotation and the include
    list is the last [include] value, split at its commas. *)
Theorem last_annotation_counts script md defs script' :
  parse_script script = Ok (md, defs, script') ->
  md_name md = last_opt (declared_names script)
  /\ md_include md
     = match last_opt (include_values script) with
       | Some v => Some (split "," v)
       | None => None
       end.
Proof.
  intros Hok.
  apply parse_script_ok_inv in Hok. destruct Hok as (-> & _ & _ & _).
  apply metadata_of_last.
Qed.

Lemma last_annotation_counts_witness :
  parse_script annotated_twice
  = Ok (mkMeta (Some "second") (Some ["@b"; "@c"]),
        [("@b", mkVarDef true PM_SEM_COUNTER PM_TYPE_U64)],
        annotated_twice ++ " interval:s:1 { print(@b); }")
  /\ last_opt (declared_names annotated_twice) = Some "second"
  /\ last_opt (include_values annotated_twice) = Some "@b,@c".
Proof.
  assert (Hp : parse_script annotated_twice
               = Ok (mkMeta (Some "second") (Some ["@b"; "@c"]),
                     [("@b", mkVarDef true PM_SEM_COUNTER PM_TYPE_U64)],
                     annotated_twice ++ " interval:s:1 { print(@b); }"))
    by (vm_compute; reflexivity).
  split; [exact Hp|].
  destruct (last_annotation_counts _ _ _ _ Hp) as [H1 H2].
  split; [symmetry; exact H1|].
  destruct (last_opt (include_values annotated_twice)) as [v|] eqn:E;
    [|discriminate].
  vm_compute in E. symmetry. exact E.
Defined.

Lemma split_not_nil sep s : split sep s <> [].
Proof.
  destruct s as [|c s]; simpl; [discriminate|].
  destruct (chr_eqb c sep); [discriminate|].
  destruct (split sep s); discriminate.
Qed.

Lemma join_cons sep x l :
  l <> [] -> join sep (x :: l) = x ++ sep ++ join sep l.
Proof. destruct l; [congruence | reflexivity]. Qed.

(** [sep.join(s.split(sep))] is [s]. *)
Lemma join_split sep s : join (String sep "") (split sep s) = s.
Proof.
  induction s as [|c s IH]; [reflexivity|]. simpl.
  destruct (chr_eqb c sep) eqn:E.
  - apply Ascii.eqb_eq in E. subst.
    rewrite join_cons by apply split_not_nil. now rewrite IH.
  - destruct (split sep s) as [|w ws] eqn:Hs; [now apply split_not_nil in Hs|].
    destruct ws as [|w' ws].
    + simpl in *. now rewrite IH.
    + rewrite join_cons by discriminate.
      rewrite join_cons in IH by discriminate.
      rewrite <- IH. reflexivity.
Qed.

Lemma split_no_sep s :
  Forall (fun e => has_comma e = false) (split "," s).
Proof.
  induction s as [|c s IH]; simpl; [repeat constructor|].
  destruct (chr_eqb c ",") eqn:E.
  - constructor; [reflexivity | exact IH].
  - destruct (split "," s) as [|w ws]; [repeat constructor; simpl; now rewrite E|].
    inversion IH; subst. constructor; [|assumption].
    simpl. rewrite E. assumption.
Qed.

(** The include list loses nothing of the annotation: it is never empty,
    no element holds a comma, and joined with commas it is the value of
    the last [include] annotation, spaces included. *)
Theorem include_list_round_trip script md defs script' incl :
  parse_script script = Ok (md, defs, script') ->
  md_include md = Some incl ->
  incl <> []
  /\ Forall (fun e => has_comma e = false) incl
  /\ last_opt (include_values script) = Some (join "," incl).
Proof.
  intros Hok Hincl.
  apply parse_script_ok_inv in Hok. destruct Hok as (-> & _ & _ & _).
  destruct (metadata_of_last script) as [_ H2].
  rewrite Hincl in H2.
  destruct (last_opt (include_values script)) as [v|]; [|discriminate].
  inversion H2; subst.
  split; [apply split_not_nil|]. split; [apply split_no_sep|].
  now rewrite (join_split "," v).
Qed.

Lemma include_list_round_trip_witness :
  parse_script spaced_include
  = Ok (mkMeta None (Some ["@a"; " @b"]),
        [("@a", mkVarDef true PM_SEM_COUNTER PM_TYPE_U64)],
        spaced_include ++ " interval:s:1 { print(@a); }")
  /\ last_opt (include_values spaced_include) = Some "@a, @b".
Proof.
  assert (Hp : parse_script spaced_include
               = Ok (mkMeta None (Some ["@a"; " @b"]),
                     [("@a", mkVarDef true PM_SEM_COUNTER PM_TYPE_U64)],
                     spaced_include ++ " interval:s:1 { print(@a); }"))
    by (vm_compute; reflexivity).
  split; [exact Hp|].
  destruct (include_list_round_trip _ _ _ _ _ Hp eq_refl) as (_ & _ & H).
  exact H.
Defined.

(** When the [include] list lets no variable through, analysis can only
    succeed through the console metric: it is the one declaration, and the
    script comes back unchanged if it assigns no variable, and with an
    empty periodic clause if it does. *)
Theorem console_only_analysis script md defs script' :
  parse_script script = Ok (md, defs, script') ->
  kept script = [] ->
  defs = [("@printf", printf_def)]
  /\ script' = match find_variables script with
               | [] => script
               | _ => script ++ " interval:s:1 {  }"
               end.
Proof.
  intros Hok Hkept.
  pose proof Hok as Hinv.
  apply parse_script_ok_inv in Hinv. destruct Hinv as (-> & -> & -> & Hnames).
  assert (Hvars : script_variables script = []).
  { pose proof (script_variables_keys script) as Hk. rewrite Hkept in Hk.
    destruct (script_variables script); [reflexivity | discriminate]. }
  split.
  - assert (Hne : declarations script <> []).
    { intros Hd. rewrite parse_script_valid in Hok.
      - rewrite Hd in Hok. discriminate.
      - intros v Hv. rewrite name_re_ok. auto. }
    unfold declarations in *. fold (script_variables script) in *.
    rewrite Hvars in *. unfold declare_printf in *.
    destruct (search printf_re (rewritten script) && _); [reflexivity|].
    congruence.
  - destruct (find_variables script) as [|t vars] eqn:Hf.
    + unfold rewritten, declare_variables. now rewrite Hf.
    + rewrite rewritten_clause by (rewrite Hf; discriminate).
      rewrite Hkept. reflexivity.
Qed.

Lemma console_only_analysis_witness :
  kept console_only = []
  /\ parse_script console_only
     = Ok (mkMeta None (Some ["@printf"]), [("@printf", printf_def)],
           console_only ++ " interval:s:1 {  }").
Proof.
  assert (Hk : kept console_only = []) by (vm_compute; reflexivity).
  split; [exact Hk|].
  destruct (parse_script console_only) as [[[md defs] s']|e] eqn:Hp;
    [|vm_compute in Hp; discriminate].
  destruct (console_only_analysis _ _ _ _ Hp Hk) as [-> Hs].
  vm_compute in Hp. inversion Hp; subst. reflexivity.
Defined.

End AnnotationFacts.

Section CaptureFacts.
Import PyStr Re Patterns Py BPFtrace Spec Samples Cover.

Lemma Matches_Plus_run g p a b :
  Matches (Plus g p) a b ->
  exists c t, consumed a b = String c t
              /\ p c = true /\ all_chars p t = true.
Proof.
  unfold Plus. intros H.
  apply Matches_Seq_inv in H. destruct H as (mid & Hc & Hrun).
  inversion Hc as [|? pv c s cs Hp| | | | | | | |]; subst.
  apply Matches_Star_run in Hrun. destruct Hrun as (t & Ht & Hall).
  simpl in Ht. exists c, t. split; [|auto].
  apply consumed_app. simpl. now rewrite Ht.
Qed.

Lemma all_chars_app p s t :
  all_chars p (s ++ t) = all_chars p s && all_chars p t.
Proof.
  induction s as [|c s IH]; simpl; [reflexivity|].
  now rewrite IH, andb_assoc.
Qed.

(** What a match of the annotation pattern captures. *)
Lemma metadata_re_shape pv s m :
  Matches metadata_re (MState pv s []) m ->
  (exists c t, group 1 m = String c t /\ all_chars is_word (String c t) = true)
  /\ (exists c t, group 2 m = String c t /\ all_chars is_dot (String c t) = true).
Proof.
  unfold metadata_re. intros H.
  apply Matches_Seq_inv in H. destruct H as (a1 & _ & H).
  apply Matches_Seq_inv in H. destruct H as (a2 & _ & H).
  apply Matches_Seq_inv in H. destruct H as (a3 & Hg1 & H).
  apply Matches_Seq_inv in H. destruct H as (a4 & Hlit & H).
  apply Matches_Seq_inv in H. destruct H as (a5 & Hg2 & Heol).
  inversion Heol; subst. clear Heol.
  apply Matches_Group_inv in Hg1. destruct Hg1 as (b1 & Hb1 & ->).
  apply Matches_Group_inv in Hg2. destruct Hg2 as (b2 & Hb2 & ->).
  pose proof (Matches_other_group 1 _ _ _ Hb2 eq_refl) as Hk2.
  pose proof (Matches_other_group 1 _ _ _ Hlit eq_refl) as Hk1.
  apply Matches_Plus_run in Hb1. destruct Hb1 as (c1 & t1 & He1 & Hc1 & Ht1).
  apply Matches_Plus_run in Hb2. destruct Hb2 as (c2 & t2 & He2 & Hc2 & Ht2).
  split.
  - exists c1, t1. unfold group. simpl. rewrite Hk2, Hk1. simpl.
    rewrite He1, Hc1, Ht1. auto.
  - exists c2, t2. unfold group. simpl. rewrite He2, Hc2, Ht2. auto.
Qed.

(** An annotation has a key made of word characters and a value without
    a line feed, neither of them empty: a comment line without a value is
    not an annotation, and a value ends with its line. *)
Theorem annotation_shape script key val :
  In (key, val) (find_metadata script) ->
  key <> "" /\ all_chars is_word key = true
  /\ val <> "" /\ all_chars is_dot val = true.
Proof.
  unfold find_metadata. rewrite in_map_iff.
  intros (m & Heq & Hin). inversion Heq; subst.
  apply findall_sound in Hin. destruct Hin as (pv & s & Hm).
  destruct (metadata_re_shape _ _ _ Hm)
    as [(c1 & t1 & -> & H1) (c2 & t2 & -> & H2)].
  repeat split; try discriminate; assumption.
Qed.

Lemma annotation_shape_witness :
  In ("include", "@a, @b") (find_metadata spaced_include)
  /\ all_chars is_dot "@a, @b" = true.
Proof.
  assert (Hin : In ("include", "@a, @b") (find_metadata spaced_include))
    by (vm_compute; auto).
  split; [exact Hin|].
  exact (proj2 (proj2 (proj2 (annotation_shape _ _ _ Hin)))).
Defined.

(** What a match of the variables pattern captures besides: the name
    holds no line feed, and the key is empty or a bracketed text without
    a line feed. *)
Lemma variables_re_lines pv s m :
  Matches variables_re (MState pv s []) m ->
  all_chars is_dot (group 1 m) = true
  /\ (group 2 m = ""
      \/ exists c t, group 2 m = String "[" (String c t ++ "]")
                     /\ all_chars is_dot (String c t) = true).
Proof.
  unfold variables_re, Opt. intros H.
  apply Matches_Seq_inv in H. destruct H as (a1 & Hg1 & H).
  apply Matches_Seq_inv in H. destruct H as (a2 & Hopt2 & Htail).
  assert (Hrest : Matches
            (Seq (Alt (Group 2 (Seq (Chr "[")
                                    (Seq (Plus false is_dot) (Chr "]")))) Eps)
                 (Seq (Star true is_space)
                      (Seq (Chr "=")
                           (Seq (Star true is_space)
                                (Alt (Group 3 (Alt (Lit "count") (Lit "hist")))
                                     Eps))))) a1 m)
    by (eapply M_Seq; eassumption).
  apply Matches_Group_inv in Hg1. destruct Hg1 as (b1 & Hb1 & ->).
  split.
  - unfold group. rewrite (Matches_other_group 1 _ _ _ Hrest) by reflexivity.
    simpl.
    apply Matches_Seq_inv in Hb1. destruct Hb1 as (x & Hat & Hrun).
    apply Matches_Chr in Hat.
    apply Matches_Star_run in Hrun. destruct Hrun as (t & Ht & Hall).
    simpl in Hat.
    rewrite (consumed_app _ b1 (String "@" t))
      by (simpl; rewrite Hat, Ht; reflexivity).
    simpl. exact Hall.
  - unfold group. rewrite (Matches_other_group 2 _ _ _ Htail) by reflexivity.
    apply Matches_Alt_inv in Hopt2. destruct Hopt2 as [H2 | H2].
    + right. apply Matches_Group_inv in H2. destruct H2 as (d & Hd & ->).
      simpl.
      apply Matches_Seq_inv in Hd. destruct Hd as (y & Hopen & Hd).
      apply Matches_Seq_inv in Hd. destruct Hd as (z & Hin & Hclose).
      apply Matches_Chr in Hopen. apply Matches_Chr in Hclose.
      pose proof (Matches_rest _ _ _ Hin) as [u Hu].
      apply Matches_Plus_run in Hin. destruct Hin as (c & t & He & Hc & Ht).
      rewrite (consumed_app _ _ _ Hu) in He. subst u.
      exists c, t. split; [|simpl; now rewrite Hc, Ht].
      apply consumed_app. rewrite Hopen, Hu, Hclose.
      simpl. f_equal. f_equal. now rewrite app_assoc_s.
    + left. apply Matches_Eps_inv in H2. subst a2. simpl.
      rewrite (Matches_other_group 2 _ _ _ Hb1) by reflexivity. reflexivity.
Qed.

(** A declaration stays on one line: the name of a discovered variable
    holds no line feed, and its key is empty or a bracketed, non-empty
    text without a line feed. *)
Theorem declaration_on_one_line script var key func :
  In (var, key, func) (find_variables script) ->
  all_chars is_dot var = true
  /\ (key = ""
      \/ exists inner, key = "[" ++ inner ++ "]" /\ inner <> ""
                       /\ all_chars is_dot inner = true).
Proof.
  unfold find_variables. rewrite in_map_iff.
  intros (m & Heq & Hin). inversion Heq; subst.
  apply findall_sound in Hin. destruct Hin as (pv & s & Hm).
  destruct (variables_re_lines _ _ _ Hm) as [H1 [H2 | (c & t & H2 & Hall)]].
  - split; [exact H1 | left; exact H2].
  - split; [exact H1 | right]. exists (String c t).
    split; [exact H2 | split; [discriminate | exact Hall]].
Qed.

Lemma declaration_on_one_line_witness :
  In ("@x", "[pid]", "count") (find_variables two_metrics)
  /\ all_chars is_dot "@x" = true.
Proof.
  assert (Hin : In ("@x", "[pid]", "count") (find_variables two_metrics))
    by (vm_compute; auto).
  split; [exact Hin|].
  exact (proj1 (declaration_on_one_line _ _ _ _ Hin)).
Defined.

End CaptureFacts.

Section OrderAndPartialFacts.
Import PyStr Re Patterns Py BPFtrace Spec Samples Cover.

(** The declarations come in this order: the script variables let
    through, each where it is first assigned, then the console metric, if
    it is declared and no script variable has its name. *)
Theorem declaration_order script md defs script' :
  parse_script script = Ok (md, defs, script') ->
  Dict.keys defs
  = (first_occurrences [] (kept script)
     ++ (if console_declared script && negb (mem "@printf" (kept script))
         then ["@printf"] else []))%list.
Proof.
  intros Hok.
  apply parse_script_ok_inv in Hok. destruct Hok as (_ & -> & _ & _).
  unfold declarations, declare_printf. fold (script_variables script).
  fold (console_declared script).
  destruct (console_declared script); simpl.
  - destruct (mem "@printf" (kept script)) eqn:E; simpl.
    + rewrite (dict_keys_set_old String.eqb String.eqb_eq).
      * rewrite script_variables_keys. now rewrite app_nil_r.
      * rewrite script_variables_keys. apply first_occurrences_nil_In.
        now apply mem_In.
    + rewrite (dict_keys_set_new String.eqb String.eqb_eq).
      * now rewrite script_variables_keys.
      * rewrite script_variables_keys, first_occurrences_nil_In.
        now apply mem_false_In.
  - rewrite script_variables_keys. now rewrite app_nil_r.
Qed.

Lemma declaration_order_witness :
  exists md defs script',
    parse_script with_printf = Ok (md, defs, script')
    /\ Dict.keys defs = ["@x"; "@printf"].
Proof.
  destruct (parse_script with_printf) as [[[md defs] s']|e] eqn:Hp;
    [|vm_compute in Hp; discriminate].
  exists md, defs, s'. split; [reflexivity|].
  rewrite (declaration_order with_printf md defs s' Hp).
  vm_compute. reflexivity.
Defined.

Lemma update_pairs_good good : forall bad rest d,
  length bad <> 2 ->
  update_pairs (map pair_of good ++ PList bad :: rest)%list d
  = (Dict.update key_eqb (str_entries good) d, Some ValueError).
Proof.
  unfold Dict.update, str_entries.
  induction good as [|[k v] good IH]; intros bad rest d Hbad; simpl.
  - destruct bad as [|a [|b [|c bad]]]; simpl in *; try reflexivity. lia.
  - apply IH. exact Hbad.
Qed.

(** A [map] record can be half applied: when its [data] is a list of
    key-value pairs followed by an element that is not a pair,
    [dict.update] stores the pairs before it and then raises [ValueError];
    the line is captured as output although the metrics have changed. *)
Theorem map_record_half_applied json_loads line obj good bad rest st :
  json_loads line = Some obj -> nonblank line = true ->
  getitem obj "type" = Ok (PStr "map") ->
  getitem obj "data"
  = Ok (PList (map pair_of good ++ PList bad :: rest)%list) ->
  length bad <> 2 ->
  process_line json_loads line st
  = Return tt (with_output (output st ++ line)
                 (with_maps (Dict.update key_eqb (str_entries good) (maps st))
                            (stepped st))).
Proof.
  intros Hl Hnb Hty Hdata Hbad.
  destruct (nonblank_true _ Hnb) as [Hne Hsp].
  destruct (stepped_fields st) as (_ & _ & Ho & _ & Hm).
  rewrite (process_line_decoded json_loads line obj st Hl Hne Hsp).
  unfold try_except_ValueError, process_output_obj,
    bind, modify, lift, ret, raise, get.
  fold (stepped st). rewrite Hty. simpl. rewrite Hdata. simpl.
  unfold maps_update, update. cbn [iterate].
  rewrite update_pairs_good by assumption. simpl.
  now rewrite Ho, Hm.
Qed.

Lemma map_record_half_applied_witness :
  Json.loads map_pairs_line
  = Some (record [("type", PStr "map");
                  ("data", PList [PList [PStr "@a"; PInt 1];
                                  PList [PStr "@b"]])])
  /\ nonblank map_pairs_line = true
  /\ process_line Json.loads map_pairs_line running_state
     = Return tt (with_output (output running_state ++ map_pairs_line)
                    (with_maps (dset (PStr "@a") (PInt 1) (maps running_state))
                               running_state)).
Proof.
  assert (Hl : Json.loads map_pairs_line
               = Some (record [("type", PStr "map");
                               ("data", PList [PList [PStr "@a"; PInt 1];
                                               PList [PStr "@b"]])]))
    by (vm_compute; reflexivity).
  assert (Hnb : nonblank map_pairs_line = true) by (vm_compute; reflexivity).
  assert (Hbad : length [PStr "@b"] <> 2) by (simpl; lia).
  split; [exact Hl | split; [exact Hnb|]].
  exact (map_record_half_applied Json.loads map_pairs_line _
           [("@a", PInt 1)] [PStr "@b"] [] running_state
           Hl Hnb eq_refl eq_refl Hbad).
Defined.

End OrderAndPartialFacts.

(* ===================================================================== *)
(** * Records the reader does not survive                                 *)
(* ===================================================================== *)

Section RecordDivergences.
Import PyStr Py BPFtrace Spec Samples Cover.

(** C4, the divergence. For a histogram with a key the child gives, under
    the metric name, an object from key to buckets where the [hist]
    branch expects the list of buckets. The comprehension then iterates
    over the keys, [bucket.get] on a string raises [AttributeError], and
    nothing is put under the metric: the metrics are as before.
    [process_output] does not catch the exception, so the loop ends there:
    the lines that follow are not read and the status is not set to
    STOPPED. *)
Theorem C4_keyed_hist_aborts
        json_loads line obj name key buckets inner rest lines returncode st :
  json_loads line = Some obj -> nonblank line = true ->
  getitem obj "type" = Ok (PStr "hist") ->
  getitem obj "data"
  = Ok (PDict ((PStr name, PDict ((PStr key, buckets) :: inner)) :: rest)) ->
  process_output_obj obj st = Raise AttributeError (stepped st)
  /\ maps (stepped st) = maps st
  /\ process_output json_loads (line :: lines) returncode st
     = Raise AttributeError (stepped st).
Proof.
  intros Hl Hnb Hty Hdata.
  destruct (nonblank_true _ Hnb) as [Hne Hsp].
  assert (Hobj : process_output_obj obj st = Raise AttributeError (stepped st)).
  { unfold process_output_obj, bind, modify, lift, ret, raise, get.
    fold (stepped st). rewrite Hty. simpl. rewrite Hdata. reflexivity. }
  split; [exact Hobj|]. split; [apply stepped_fields|].
  apply process_output_first_raises.
  rewrite (process_line_decoded json_loads line obj st Hl Hne Hsp).
  unfold try_except_ValueError. rewrite Hobj. reflexivity.
Qed.

(** The script is accepted, with [@h] declared as a histogram; the
    record for it ends the reader and leaves the state as it was. *)
Lemma C4_witness :
  parse_script keyed_hist_script
  = Ok (mkMeta None None,
        [("@h", mkVarDef false PM_SEM_COUNTER PM_TYPE_U64)],
        keyed_hist_script ++ " interval:s:1 { print(@h); }")
  /\ Json.loads keyed_hist_line = Some keyed_hist_record
  /\ nonblank keyed_hist_line = true
  /\ process_output Json.loads [keyed_hist_line; map_line] (Some 0%Z)
                    running_state
     = Raise AttributeError running_state.
Proof.
  assert (Hl : Json.loads keyed_hist_line = Some keyed_hist_record)
    by (vm_compute; reflexivity).
  assert (Hnb : nonblank keyed_hist_line = true) by (vm_compute; reflexivity).
  split; [vm_compute; reflexivity|]. split; [exact Hl|]. split; [exact Hnb|].
  exact (proj2 (proj2 (C4_keyed_hist_aborts Json.loads keyed_hist_line
                         keyed_hist_record "@h" "bash" _ [] [] [map_line]
                         (Some 0%Z) running_state Hl Hnb eq_refl eq_refl))).
Defined.

(** C5, the divergence. The console text is kept in [maps] under
    [@printf], where a [map] record also puts the value of a script
    variable of that name. Once a value that is not a string is there, a
    [printf] or [time] record with a string message raises [TypeError]:
    the message is not appended, and since [process_output] does not
    catch the exception the loop ends, the lines that follow are not read
    and the status is not set to STOPPED. *)
Theorem C5_console_clash_aborts
        json_loads line obj ty msg cur lines returncode st :
  json_loads line = Some obj -> nonblank line = true ->
  getitem obj "type" = Ok (PStr ty) ->
  ty = "printf" \/ ty = "time" ->
  getitem obj "msg" = Ok (PStr msg) ->
  dget (PStr "@printf") (maps st) = Some cur ->
  (forall s, cur <> PStr s) ->
  process_output json_loads (line :: lines) returncode st
  = Raise TypeError (stepped st)
  /\ dget (PStr "@printf") (maps (stepped st)) = Some cur.
Proof.
  intros Hl Hnb Hty Hkind Hmsg Hcur Hnot.
  destruct (nonblank_true _ Hnb) as [Hne Hsp].
  destruct (stepped_fields st) as (_ & _ & _ & _ & Hm).
  split; [|now rewrite Hm].
  apply process_output_first_raises.
  rewrite (process_line_decoded json_loads line obj st Hl Hne Hsp).
  destruct Hkind as [-> | ->];
    unfold try_except_ValueError, process_output_obj,
      bind, modify, lift, ret, raise, get;
    fold (stepped st); rewrite Hty; simpl; rewrite Hmsg; simpl;
    rewrite Hm, Hcur;
    destruct cur as [|b| | | |]; try reflexivity;
    try (destruct b; reflexivity);
    exfalso; eapply Hnot; reflexivity.
Qed.

(** The script is accepted, with [@printf] declared as the console
    metric; the value of its variable [@printf] followed by a message of
    its [printf] ends the reader. *)
Lemma C5_witness :
  parse_script console_clash
  = Ok (mkMeta None None, [("@printf", printf_def)],
        console_clash ++ " interval:s:1 { print(@printf); }")
  /\ process_output Json.loads [console_number_line] None
                    (with_status Starting BPFtraceState_init)
     = Return tt (mkState Stopped None None "" (PInt 0)
                          [(PStr "@printf", PInt 5)])
  /\ process_output Json.loads [printf_line; map_line] None
                    (mkState Started None None "" (PInt 0)
                             [(PStr "@printf", PInt 5)])
     = Raise TypeError (mkState Started None None "" (PInt 0)
                                [(PStr "@printf", PInt 5)])
  /\ process_output Json.loads [console_number_line; printf_line; map_line]
                    None (with_status Starting BPFtraceState_init)
     = Raise TypeError (mkState Started None None "" (PInt 0)
                                [(PStr "@printf", PInt 5)]).
Proof.
  assert (Hl : Json.loads printf_line = Some (printf_record "x"))
    by (vm_compute; reflexivity).
  assert (Hnb : nonblank printf_line = true) by (vm_compute; reflexivity).
  assert (Hnot : forall s, PInt 5 <> PStr s) by (intros s; discriminate).
  split; [vm_compute; reflexivity|]. split; [vm_compute; reflexivity|].
  split; [|vm_compute; reflexivity].
  exact (proj1 (C5_console_clash_aborts Json.loads printf_line
                  (printf_record "x") "printf" "x" (PInt 5) [map_line] None
                  (mkState Started None None "" (PInt 0)
                           [(PStr "@printf", PInt 5)])
                  Hl Hnb eq_refl (or_introl eq_refl) eq_refl eq_refl Hnot)).
Defined.

End RecordDivergences.
